(** * calculate_accuracy: the accuracy report of a binary classifier

    A shallow embedding of [calculate_accuracy] from
    [jupyter_notebooks/05_accuracy_standalone.ipynb], and the properties
    its specification states about it.

    The Python function takes two lists (or one-dimensional NumPy arrays)
    of integer class labels, builds boolean masks with NumPy's elementwise
    comparisons, counts them with [np.sum], divides the counts in IEEE
    binary64 and stores eighteen numbers in a dictionary.  It checks
    nothing about its arguments and raises nothing of its own: what can go
    wrong is what NumPy does with the arrays it is given.

    The embedding keeps these layers apart:
    - [Py]: what Python contributes, an outcome that is either a returned
      value or a raised exception, and the insertion-ordered dictionary;
    - [Np]: the NumPy operations the function calls, with the broadcasting
      rule for one-dimensional operands;
    - [Arith]: the arithmetic in which the counts are divided.  NumPy uses
      binary64, instance [binary64] (Rocq's primitive floats, bit for bit).
      Instance [exact] reads the same formulas over the rationals, with the
      IEEE results of a division by zero, and tells what the formulas mean
      before rounding;
    - [calculate_accuracy]: the function itself, line by line. *)

From Stdlib Require Import ZArith Zpower Bool String List Permutation Lia.
From Stdlib Require Import QArith Qminmax Qreduction Qpower Lqa.
From Stdlib Require Import Uint63 PrimFloat SpecFloat FloatOps FloatAxioms.
Import ListNotations.

Local Open Scope string_scope.
Local Open Scope Z_scope.

(** ** Python: outcomes and dictionaries *)

Module Py.

(** The exceptions the modelled code can raise.  The only one is NumPy's
    [ValueError] for operands whose shapes cannot be broadcast together;
    it carries the two lengths, as the message of the exception does. *)
Inductive exn : Type :=
| ValueError_broadcast (shape1 shape2 : nat).

Inductive outcome (A : Type) : Type :=
| Returned (a : A)
| Raised (e : exn).

Arguments Returned {A} a.
Arguments Raised {A} e.

Definition bind {A B : Type} (m : outcome A) (k : A -> outcome B) : outcome B :=
  match m with
  | Returned a => k a
  | Raised e => Raised e
  end.

(** A [dict] with string keys, in insertion order. *)
Definition dict (V : Type) : Type := list (string * V).

Definition dict_new {V : Type} : dict V := [].

(** [d[k] = v]: replaces the value of an existing key in place, appends a
    new key at the end. *)
Fixpoint dict_set {V : Type} (k : string) (v : V) (d : dict V) : dict V :=
  match d with
  | [] => [(k, v)]
  | (k', v') :: d' =>
      if String.eqb k k' then (k, v) :: d' else (k', v') :: dict_set k v d'
  end.

(** [d[k]], [None] standing for [KeyError]. *)
Fixpoint dict_get {V : Type} (k : string) (d : dict V) : option V :=
  match d with
  | [] => None
  | (k', v') :: d' => if String.eqb k k' then Some v' else dict_get k d'
  end.

Definition dict_keys {V : Type} (d : dict V) : list string := map fst d.

End Py.

Import Py.

Notation "x <- m ;; k" := (Py.bind m (fun x => k))
  (at level 61, m at next level, right associativity).

(** ** The arithmetic of the report *)

(** [of_int] converts an integer count to a number ([np.int64] to
    [np.float64], and the Python literals [1] and [2]); the four operations
    are those of [np.float64]. *)
Class Arith (F : Type) : Type := {
  of_int : Z -> F;
  add : F -> F -> F;
  sub : F -> F -> F;
  mul : F -> F -> F;
  div : F -> F -> F
}.

(** *** IEEE binary64, as NumPy computes

    A division by zero does not raise: NumPy's default error state turns it
    into a [RuntimeWarning] and the result is [nan] or an infinity.  The
    warning goes to Python's warning channel; it is no part of what the
    function returns and is not modelled.  The counts converted here are
    lengths of arrays, below [2^63]. *)
#[export] Instance binary64 : Arith float := {
  of_int := fun z => PrimFloat.of_uint63 (Uint63.of_Z z);
  add := PrimFloat.add;
  sub := PrimFloat.sub;
  mul := PrimFloat.mul;
  div := PrimFloat.div
}.

(** *** Exact arithmetic

    Rationals extended with the two infinities and not-a-number.  Finite
    results are exact (and kept in lowest terms); the results on infinities,
    not-a-number and zero divisors follow IEEE 754, with zero unsigned. *)
Inductive xnum : Type :=
| XFin (q : Q)
| XInf (negative : bool)
| XNaN.

Definition Qzerob (q : Q) : bool := (Qnum q =? 0)%Z.
Definition Qnegb (q : Q) : bool := (Qnum q <? 0)%Z.

Definition xadd (x y : xnum) : xnum :=
  match x, y with
  | XNaN, _ | _, XNaN => XNaN
  | XInf s, XInf t => if Bool.eqb s t then XInf s else XNaN
  | XInf s, XFin _ => XInf s
  | XFin _, XInf t => XInf t
  | XFin a, XFin b => XFin (Qred (a + b))
  end.

Definition xsub (x y : xnum) : xnum :=
  match x, y with
  | XNaN, _ | _, XNaN => XNaN
  | XInf s, XInf t => if Bool.eqb s t then XNaN else XInf s
  | XInf s, XFin _ => XInf s
  | XFin _, XInf t => XInf (negb t)
  | XFin a, XFin b => XFin (Qred (a - b))
  end.

Definition xmul (x y : xnum) : xnum :=
  match x, y with
  | XNaN, _ | _, XNaN => XNaN
  | XInf s, XInf t => XInf (xorb s t)
  | XInf s, XFin b => if Qzerob b then XNaN else XInf (xorb s (Qnegb b))
  | XFin a, XInf t => if Qzerob a then XNaN else XInf (xorb (Qnegb a) t)
  | XFin a, XFin b => XFin (Qred (a * b))
  end.

Definition xdiv (x y : xnum) : xnum :=
  match x, y with
  | XNaN, _ | _, XNaN => XNaN
  | XInf _, XInf _ => XNaN
  | XInf s, XFin b => XInf (xorb s (Qnegb b))
  | XFin _, XInf _ => XFin 0
  | XFin a, XFin b =>
      if Qzerob b then (if Qzerob a then XNaN else XInf (Qnegb a))
      else XFin (Qred (a / b))
  end.

#[export] Instance exact : Arith xnum := {
  of_int := fun z => XFin (inject_Z z);
  add := xadd;
  sub := xsub;
  mul := xmul;
  div := xdiv
}.

(** ** NumPy: the operations on one-dimensional arrays *)

Module Np.

Fixpoint zip_with {A B C : Type} (f : A -> B -> C) (a : list A) (b : list B)
  : list C :=
  match a, b with
  | x :: a', y :: b' => f x y :: zip_with f a' b'
  | _, _ => []
  end.

(** A binary elementwise operation on two one-dimensional arrays: equal
    lengths pair up, an array of length one is stretched to the other
    length, any other pair of lengths raises. *)
Definition broadcast2 {A B C : Type} (f : A -> B -> C)
    (a : list A) (b : list B) : outcome (list C) :=
  if Nat.eqb (length a) (length b) then Returned (zip_with f a b)
  else
    match a, b with
    | [x], _ => Returned (map (f x) b)
    | _, [y] => Returned (map (fun x => f x y) a)
    | _, _ => Raised (ValueError_broadcast (length a) (length b))
    end.

(** [a == k] for an integer array and a scalar. *)
Definition eq_scalar (a : list Z) (k : Z) : list bool :=
  map (fun x => x =? k) a.

(** [m == k] for a boolean array and a scalar: [True] compares as 1 and
    [False] as 0. *)
Definition mask_eq (m : list bool) (k : Z) : list bool :=
  map (fun b => Z.b2z b =? k) m.

(** [m1 & m2] on boolean arrays. *)
Definition band (m1 m2 : list bool) : outcome (list bool) :=
  broadcast2 andb m1 m2.

(** [a == b] for two integer arrays. *)
Definition eq_arrays (a b : list Z) : outcome (list bool) :=
  broadcast2 Z.eqb a b.

(** [np.sum] of a boolean array: the number of [True]. *)
Fixpoint sum (m : list bool) : Z :=
  match m with
  | [] => 0
  | b :: m' => Z.b2z b + sum m'
  end.

Section WithArith.
Context {F : Type} `{Arith F}.

(** [i / j] for two [np.int64]: true division, in floating point. *)
Definition true_divide (i j : Z) : F := div (of_int i) (of_int j).

(** [np.mean] of a boolean array: the sum, accumulated in floating
    point, over the number of elements.  A floating-point sum of ones is
    the exact count as long as the array has fewer than [2^53] elements;
    this is the range the definition stands for. *)
Definition mean (m : list bool) : F :=
  div (of_int (sum m)) (of_int (Z.of_nat (length m))).
End WithArith.

End Np.

(** ** calculate_accuracy *)

Section CalculateAccuracy.
Context {F : Type} `{Arith F}.

(** The four boolean arrays of lines 88 to 91.  The conversion of a list
    to an array, lines 82 to 85, changes no element: both are [list Z]
    here. *)
Definition observed_positives (observed : list Z) : list bool :=
  Np.eq_scalar observed 1.
Definition observed_negatives (observed : list Z) : list bool :=
  Np.eq_scalar observed 0.
Definition predicted_positives (predicted : list Z) : list bool :=
  Np.eq_scalar predicted 1.
Definition predicted_negatives (predicted : list Z) : list bool :=
  Np.eq_scalar predicted 0.

(** Lines 93 to 99. *)
Definition true_positives (observed predicted : list Z) : outcome (list bool) :=
  Np.band (Np.mask_eq (predicted_positives predicted) 1)
          (Np.mask_eq (observed_positives observed) 1).

Definition false_positives (observed predicted : list Z) : outcome (list bool) :=
  Np.band (Np.mask_eq (predicted_positives predicted) 1)
          (Np.mask_eq (observed_positives observed) 0).

Definition true_negatives (observed predicted : list Z) : outcome (list bool) :=
  Np.band (Np.mask_eq (predicted_negatives predicted) 1)
          (Np.mask_eq (observed_negatives observed) 1).

Definition false_negatives (observed predicted : list Z) : outcome (list bool) :=
  Np.band (Np.mask_eq (predicted_negatives predicted) 1)
          (Np.mask_eq (observed_negatives observed) 0).

(** Lines 101 to 154.  [one] and [two] are the Python literals [1] and
    [2] next to a float. *)
Definition calculate_accuracy (observed predicted : list Z) : outcome (dict F) :=
  let one := of_int 1 in
  let two := of_int 2 in
  tp <- true_positives observed predicted ;;
  fp <- false_positives observed predicted ;;
  tn <- true_negatives observed predicted ;;
  fn <- false_negatives observed predicted ;;
  matches <- Np.eq_arrays predicted observed ;;
  let accuracy := Np.mean matches in
  let precision := Np.true_divide (Np.sum tp) (Np.sum tp + Np.sum fp) in
  let recall := Np.true_divide (Np.sum tp) (Np.sum (observed_positives observed)) in
  let sensitivity := recall in
  let f1 := mul two (div (mul precision recall) (add precision recall)) in
  let specificity := Np.true_divide (Np.sum tn) (Np.sum (observed_negatives observed)) in
  let positive_likelihood := div sensitivity (sub one specificity) in
  let negative_likelihood := div (sub one sensitivity) specificity in
  let false_positive_rate := sub one specificity in
  let false_negative_rate := sub one sensitivity in
  let true_positive_rate := sensitivity in
  let true_negative_rate := specificity in
  let positive_predictive_value :=
    Np.true_divide (Np.sum tp) (Np.sum (observed_positives observed)) in
  let negative_predictive_value :=
    Np.true_divide (Np.sum tn) (Np.sum (observed_negatives observed)) in
  let results := dict_new in
  let results := dict_set "observed_positive_rate" (Np.mean (observed_positives observed)) results in
  let results := dict_set "observed_negative_rate" (Np.mean (observed_negatives observed)) results in
  let results := dict_set "predicted_positive_rate" (Np.mean (predicted_positives predicted)) results in
  let results := dict_set "predicted_negative_rate" (Np.mean (predicted_negatives predicted)) results in
  let results := dict_set "accuracy" accuracy results in
  let results := dict_set "precision" precision results in
  let results := dict_set "recall" recall results in
  let results := dict_set "f1" f1 results in
  let results := dict_set "sensitivity" sensitivity results in
  let results := dict_set "specificity" specificity results in
  let results := dict_set "positive_likelihood" positive_likelihood results in
  let results := dict_set "negative_likelihood" negative_likelihood results in
  let results := dict_set "false_positive_rate" false_positive_rate results in
  let results := dict_set "false_negative_rate" false_negative_rate results in
  let results := dict_set "true_positive_rate" true_positive_rate results in
  let results := dict_set "true_negative_rate" true_negative_rate results in
  let results := dict_set "positive_predictive_value" positive_predictive_value results in
  let results := dict_set "negative_predictive_value" negative_predictive_value results in
  Returned results.

End CalculateAccuracy.

(** The eighteen keys of the report, in the order the function stores them. *)
Definition report_keys : list string :=
  [ "observed_positive_rate"; "observed_negative_rate";
    "predicted_positive_rate"; "predicted_negative_rate";
    "accuracy"; "precision"; "recall"; "f1"; "sensitivity"; "specificity";
    "positive_likelihood"; "negative_likelihood";
    "false_positive_rate"; "false_negative_rate";
    "true_positive_rate"; "true_negative_rate";
    "positive_predictive_value"; "negative_predictive_value" ].

Definition demo_observed : list Z := [0; 0; 1; 0; 1; 0; 1; 0; 1; 0].
Definition demo_predicted : list Z := [0; 0; 1; 0; 1; 0; 1; 0; 0; 1].

(** ** The vocabulary of the specification *)

Module Spec.

(** A label is valid when it is 0 or 1. *)
Definition label (x : Z) : bool := (x =? 0) || (x =? 1).

(** A valid input: two sequences of the same length, not empty, all of
    whose elements are labels. *)
Definition valid (observed predicted : list Z) : bool :=
  Nat.eqb (length observed) (length predicted)
  && negb (Nat.eqb (length observed) 0)
  && forallb label observed
  && forallb label predicted.

(** The number of indices [i] at which [c observed[i] predicted[i]] holds. *)
Fixpoint count (c : Z -> Z -> bool) (observed predicted : list Z) : Z :=
  match observed, predicted with
  | o :: observed', p :: predicted' => Z.b2z (c o p) + count c observed' predicted'
  | _, _ => 0
  end.

(** TP and TN, in the words of the specification: the number of cases
    predicted 1 and observed 1, predicted 0 and observed 0. *)
Definition TP : list Z -> list Z -> Z := count (fun o p => (p =? 1) && (o =? 1)).
Definition TN : list Z -> list Z -> Z := count (fun o p => (p =? 0) && (o =? 0)).

(** The number of observed positives, of observed negatives, of cases
    (the first two look at one sequence only). *)
Definition P (observed : list Z) : Z := count (fun o _ => o =? 1) observed observed.
Definition N_ (observed : list Z) : Z := count (fun o _ => o =? 0) observed observed.
Definition N (observed : list Z) : Z := Z.of_nat (length observed).

(** The conventional false-negative mask: predicted 0 and observed 1. *)
Definition false_negatives (observed predicted : list Z) : list bool :=
  Np.zip_with (fun o p => (p =? 0) && (o =? 1)) observed predicted.

End Spec.

(** The report written out from the counts the function takes of its masks:
    [calculate_accuracy_report] below proves that this is the dictionary
    the function returns whenever the two arrays have the same length. *)
Section Report.
Context {F : Type} `{Arith F}.

Record counts : Type := {
  n_cases : Z;
  n_observed_positives : Z;
  n_observed_negatives : Z;
  n_predicted_positives : Z;
  n_predicted_negatives : Z;
  n_true_positives : Z;
  n_false_positives : Z;
  n_true_negatives : Z;
  n_matches : Z
}.

Definition report (c : counts) : dict F :=
  let rate (k : Z) := div (of_int k) (of_int (n_cases c)) in
  let precision :=
    Np.true_divide (n_true_positives c) (n_true_positives c + n_false_positives c) in
  let recall := Np.true_divide (n_true_positives c) (n_observed_positives c) in
  let specificity := Np.true_divide (n_true_negatives c) (n_observed_negatives c) in
  [ ("observed_positive_rate", rate (n_observed_positives c));
    ("observed_negative_rate", rate (n_observed_negatives c));
    ("predicted_positive_rate", rate (n_predicted_positives c));
    ("predicted_negative_rate", rate (n_predicted_negatives c));
    ("accuracy", rate (n_matches c));
    ("precision", precision);
    ("recall", recall);
    ("f1", mul (of_int 2) (div (mul precision recall) (add precision recall)));
    ("sensitivity", recall);
    ("specificity", specificity);
    ("positive_likelihood", div recall (sub (of_int 1) specificity));
    ("negative_likelihood", div (sub (of_int 1) recall) specificity);
    ("false_positive_rate", sub (of_int 1) specificity);
    ("false_negative_rate", sub (of_int 1) recall);
    ("true_positive_rate", recall);
    ("true_negative_rate", specificity);
    ("positive_predictive_value", recall);
    ("negative_predictive_value", specificity) ].

(** The counts of the masks of two arrays of the same length. *)
Definition counts_of (observed predicted : list Z) : counts :=
  {| n_cases := Z.of_nat (length observed);
     n_observed_positives := Np.sum (observed_positives observed);
     n_observed_negatives := Np.sum (observed_negatives observed);
     n_predicted_positives := Np.sum (predicted_positives predicted);
     n_predicted_negatives := Np.sum (predicted_negatives predicted);
     n_true_positives := Spec.count (fun o p => (p =? 1) && (o =? 1)) observed predicted;
     n_false_positives := Spec.count (fun o p => (p =? 1) && negb (o =? 1)) observed predicted;
     n_true_negatives := Spec.count (fun o p => (p =? 0) && (o =? 0)) observed predicted;
     n_matches := Spec.count (fun o p => p =? o) observed predicted |}.
End Report.

(** Looks the literal keys up in a [report] and exposes the counts. *)
Ltac report_fields :=
  cbn [report dict_get String.eqb Ascii.eqb Bool.eqb counts_of n_cases
       n_observed_positives n_observed_negatives n_predicted_positives
       n_predicted_negatives n_true_positives n_false_positives
       n_true_negatives n_matches].

(** ** The number a binary64 value stands for

    A finite value is [m * 2^e].  The infinities and not-a-number stand
    for no number and are given 0 here: a statement that uses
    [float_value] says separately that the float is finite. *)
Definition SF2Q (x : spec_float) : Q :=
  match x with
  | S754_finite false m e => inject_Z (Z.pos m) * 2 ^ e
  | S754_finite true m e => - (inject_Z (Z.pos m) * 2 ^ e)
  | _ => 0
  end.

Definition float_value (x : float) : Q := SF2Q (Prim2SF x).

(** [x] is within the relative error [t] of [y]. *)
Definition within (t x y : Q) : Prop := ((1 - t) * y <= x <= (1 + t) * y)%Q.

(** The error allowed to one operation, and to the four of 'f1'. *)
Definition eps : Q := 1 # (2 ^ 52).
Definition f1_tolerance : Q := 1 # (2 ^ 49).

(** A positive float with a full mantissa of 53 bits and an exponent
    between [lo] and [hi]. *)
Definition normal_between (lo hi : Z) (x : spec_float) : Prop :=
  exists (m : positive) (e : Z),
    x = S754_finite false m e /\ 2 ^ 52 <= Z.pos m < 2 ^ 53 /\ lo <= e <= hi.

(** * Properties *)

(** ** Arrays, masks and counts *)

Lemma zip_with_length {A B C : Type} (f : A -> B -> C) (a : list A) (b : list B) :
  length a = length b -> length (Np.zip_with f a b) = length a.
Proof.
  revert b; induction a as [|x a IH]; intros [|y b] E; simpl in *; try discriminate; auto.
Qed.

Lemma broadcast2_same_length {A B C : Type} (f : A -> B -> C) (a : list A) (b : list B) :
  length a = length b -> Np.broadcast2 f a b = Returned (Np.zip_with f a b).
Proof.
  intros E. unfold Np.broadcast2. rewrite E, Nat.eqb_refl. reflexivity.
Qed.

Lemma broadcast2_mismatch {A B C : Type} (f : A -> B -> C) (a : list A) (b : list B) :
  length a <> length b -> length a <> 1%nat -> length b <> 1%nat ->
  Np.broadcast2 f a b = Raised (ValueError_broadcast (length a) (length b)).
Proof.
  intros E Ha Hb. unfold Np.broadcast2.
  apply Nat.eqb_neq in E. rewrite E.
  destruct a as [|x [|x' a]]; destruct b as [|y [|y' b]]; simpl in *;
    try reflexivity; congruence.
Qed.

Lemma broadcast2_stretch {A B C : Type} (f : A -> B -> C) (a : list A) (b : list B) :
  length a = 1%nat \/ length b = 1%nat ->
  exists m, Np.broadcast2 f a b = Returned m
            /\ length m = if Nat.eqb (length a) 1 then length b else length a.
Proof.
  intros E. unfold Np.broadcast2.
  destruct (Nat.eqb (length a) (length b)) eqn:L.
  - apply Nat.eqb_eq in L. eexists; split; [reflexivity|].
    rewrite zip_with_length by assumption.
    destruct (Nat.eqb (length a) 1) eqn:L1; [|reflexivity]. assumption.
  - apply Nat.eqb_neq in L.
    destruct a as [|x [|x' a]]; destruct b as [|y [|y' b]]; simpl in *;
      try (exfalso; lia);
      (eexists; split; [reflexivity|]); cbn [length]; rewrite ?length_map;
      reflexivity.
Qed.

Lemma sum_zip_with_map (f g : Z -> bool) (observed predicted : list Z) :
  Np.sum (Np.zip_with andb (map f predicted) (map g observed))
  = Spec.count (fun o p => f p && g o) observed predicted.
Proof.
  revert predicted; induction observed as [|o observed IH]; intros [|p predicted];
    simpl; try reflexivity.
  now rewrite IH.
Qed.

Lemma sum_zip_with_eqb (observed predicted : list Z) :
  Np.sum (Np.zip_with Z.eqb predicted observed)
  = Spec.count (fun o p => p =? o) observed predicted.
Proof.
  revert predicted; induction observed as [|o observed IH]; intros [|p predicted];
    simpl; try reflexivity.
  now rewrite IH.
Qed.

Lemma mask_eq_1 (m : list bool) : Np.mask_eq m 1 = m.
Proof.
  unfold Np.mask_eq. induction m as [|[] m IH]; simpl; congruence.
Qed.

Lemma mask_eq_0 (m : list bool) : Np.mask_eq m 0 = map negb m.
Proof.
  unfold Np.mask_eq. induction m as [|[] m IH]; simpl; congruence.
Qed.

Lemma count_bounds (c : Z -> Z -> bool) (observed predicted : list Z) :
  0 <= Spec.count c observed predicted <= Z.of_nat (length observed).
Proof.
  revert predicted; induction observed as [|o observed IH]; intros [|p predicted];
    simpl length; cbn [Spec.count]; try lia.
  specialize (IH predicted). destruct (c o p); simpl Z.b2z; lia.
Qed.

Lemma sum_eq_scalar (k : Z) (a : list Z) :
  Np.sum (Np.eq_scalar a k) = Spec.count (fun o _ => o =? k) a a.
Proof.
  unfold Np.eq_scalar.
  assert (G : forall b, length b = length a ->
            Np.sum (map (fun x => x =? k) a) = Spec.count (fun o _ => o =? k) a b).
  { induction a as [|x a IH]; intros [|y b] E; simpl in *; try discriminate; auto.
    now rewrite (IH b) by congruence. }
  now apply G.
Qed.

(** ** What the function returns on arrays of the same length *)

Section Returns.
Context {F : Type} `{Arith F}.

Lemma calculate_accuracy_report (observed predicted : list Z) :
  length observed = length predicted ->
  calculate_accuracy observed predicted = Returned (report (counts_of observed predicted)).
Proof.
  intros E.
  unfold calculate_accuracy, true_positives, false_positives, true_negatives,
    false_negatives, Np.band, Np.eq_arrays.
  assert (L : forall f g k k', length (Np.mask_eq (map f predicted) k)
                  = length (Np.mask_eq (map g observed) k')).
  { intros. unfold Np.mask_eq. rewrite !length_map. congruence. }
  unfold predicted_positives, predicted_negatives, observed_positives,
    observed_negatives, Np.eq_scalar at 1 2 3 4 5 6 7 8.
  rewrite !(broadcast2_same_length andb) by apply L.
  rewrite (broadcast2_same_length Z.eqb) by congruence.
  cbn [bind].
  rewrite !mask_eq_1, !mask_eq_0, !map_map, !sum_zip_with_map.
  unfold Np.mean. rewrite sum_zip_with_eqb.
  rewrite zip_with_length by congruence.
  unfold Np.eq_scalar. rewrite !length_map, <- E.
  reflexivity.
Qed.
End Returns.

Lemma valid_inv (observed predicted : list Z) :
  Spec.valid observed predicted = true ->
  length observed = length predicted
  /\ (0 < length observed)%nat
  /\ forallb Spec.label observed = true
  /\ forallb Spec.label predicted = true.
Proof.
  unfold Spec.valid. rewrite !andb_true_iff, negb_true_iff.
  intros [[[E NE] Lo] Lp].
  apply Nat.eqb_eq in E. apply Nat.eqb_neq in NE. repeat split; auto; lia.
Qed.

Lemma label_inv (x : Z) : Spec.label x = true -> x = 0 \/ x = 1.
Proof. unfold Spec.label. rewrite orb_true_iff, !Z.eqb_eq. tauto. Qed.

(** ** When the function raises *)

Section Outcome.
Context {F : Type} `{Arith F}.

Lemma mask_length (a : list Z) (k k' : Z) :
  length (Np.mask_eq (Np.eq_scalar a k) k') = length a.
Proof. unfold Np.mask_eq, Np.eq_scalar. now rewrite !length_map. Qed.

Lemma band_masks_broadcast (a b : list Z) (ka ka' kb kb' : Z) :
  length a = length b \/ length a = 1%nat \/ length b = 1%nat ->
  exists m, Np.band (Np.mask_eq (Np.eq_scalar a ka) ka')
                    (Np.mask_eq (Np.eq_scalar b kb) kb') = Returned m.
Proof.
  intros [E|E].
  - eexists. apply broadcast2_same_length. now rewrite !mask_length.
  - destruct (broadcast2_stretch andb
                (Np.mask_eq (Np.eq_scalar a ka) ka')
                (Np.mask_eq (Np.eq_scalar b kb) kb')) as (m & Hm & _).
    + now rewrite !mask_length.
    + now exists m.
Qed.

(** Lengths that broadcast give the full report. *)
Lemma calculate_accuracy_returns (observed predicted : list Z) :
  length observed = length predicted
  \/ length observed = 1%nat \/ length predicted = 1%nat ->
  exists d : dict F,
    calculate_accuracy observed predicted = Returned d
    /\ dict_keys d = report_keys.
Proof.
  intros E.
  assert (E' : length predicted = length observed
               \/ length predicted = 1%nat \/ length observed = 1%nat)
    by (destruct E as [E|[E|E]]; auto).
  unfold calculate_accuracy, true_positives, false_positives, true_negatives,
    false_negatives, predicted_positives, predicted_negatives.
  unfold observed_positives at 1 2, observed_negatives at 1 2.
  destruct (band_masks_broadcast predicted observed 1 1 1 1 E') as (tp & ->).
  destruct (band_masks_broadcast predicted observed 1 1 1 0 E') as (fp & ->).
  destruct (band_masks_broadcast predicted observed 0 1 0 1 E') as (tn & ->).
  destruct (band_masks_broadcast predicted observed 0 1 0 0 E') as (fn & ->).
  assert (M : exists m, Np.eq_arrays predicted observed = Returned m).
  { destruct E' as [E'|E'].
    - eexists. now apply broadcast2_same_length.
    - destruct (broadcast2_stretch Z.eqb predicted observed E') as (m & Hm & _).
      now exists m. }
  destruct M as (m & ->).
  cbn [bind]. eexists. split; reflexivity.
Qed.

(** Lengths that do not broadcast make the first conjunction of masks,
    line 93, raise; nothing after it runs. *)
Lemma calculate_accuracy_raises (observed predicted : list Z) :
  length observed <> length predicted ->
  length observed <> 1%nat -> length predicted <> 1%nat ->
  true_positives observed predicted
  = Raised (ValueError_broadcast (length predicted) (length observed))
  /\ calculate_accuracy (F:=F) observed predicted
     = Raised (ValueError_broadcast (length predicted) (length observed)).
Proof.
  intros E Ho Hp.
  assert (T : true_positives observed predicted
              = Raised (ValueError_broadcast (length predicted) (length observed))).
  { unfold true_positives, Np.band, predicted_positives, observed_positives.
    rewrite broadcast2_mismatch; rewrite !mask_length; congruence. }
  split; [exact T|].
  unfold calculate_accuracy. rewrite T. reflexivity.
Qed.
End Outcome.

(** ** The four masks *)

Lemma zip_with_map_map (f g : Z -> bool) (observed predicted : list Z) :
  Np.zip_with andb (map f predicted) (map g observed)
  = Np.zip_with (fun o p => f p && g o) observed predicted.
Proof.
  revert predicted; induction observed as [|o observed IH]; intros [|p predicted];
    simpl; try reflexivity.
  now rewrite IH.
Qed.

Lemma sum_zip_with (c : Z -> Z -> bool) (observed predicted : list Z) :
  Np.sum (Np.zip_with c observed predicted) = Spec.count c observed predicted.
Proof.
  revert predicted; induction observed as [|o observed IH]; intros [|p predicted];
    simpl; try reflexivity.
  now rewrite IH.
Qed.

(** The masks of lines 93 to 99 on two arrays of the same length. *)
Lemma masks_same_length (observed predicted : list Z) :
  length observed = length predicted ->
  true_positives observed predicted
  = Returned (Np.zip_with (fun o p => (p =? 1) && (o =? 1)) observed predicted)
  /\ false_positives observed predicted
     = Returned (Np.zip_with (fun o p => (p =? 1) && negb (o =? 1)) observed predicted)
  /\ true_negatives observed predicted
     = Returned (Np.zip_with (fun o p => (p =? 0) && (o =? 0)) observed predicted)
  /\ false_negatives observed predicted
     = Returned (Np.zip_with (fun o p => (p =? 0) && negb (o =? 0)) observed predicted).
Proof.
  intros E.
  unfold true_positives, false_positives, true_negatives, false_negatives,
    Np.band, predicted_positives, predicted_negatives, observed_positives,
    observed_negatives.
  rewrite !broadcast2_same_length by (rewrite !mask_length; congruence).
  unfold Np.eq_scalar. rewrite !mask_eq_1, !mask_eq_0, !map_map, !zip_with_map_map.
  repeat split; reflexivity.
Qed.

(** The four masks are disjoint, and cover the cases whose predicted value
    is a label. *)
Lemma four_counts_cover_predicted_labels (observed predicted : list Z) :
  length observed = length predicted ->
  Spec.count (fun o p => (p =? 1) && (o =? 1)) observed predicted
  + Spec.count (fun o p => (p =? 1) && negb (o =? 1)) observed predicted
  + Spec.count (fun o p => (p =? 0) && (o =? 0)) observed predicted
  + Spec.count (fun o p => (p =? 0) && negb (o =? 0)) observed predicted
  = Spec.count (fun _ p => Spec.label p) observed predicted.
Proof.
  revert predicted; induction observed as [|o observed IH]; intros [|p predicted] E;
    cbn [Spec.count length] in *; try discriminate; try reflexivity.
  injection E as E. specialize (IH predicted E).
  unfold Spec.label at 1.
  destruct (Z.eqb_spec p 1); destruct (Z.eqb_spec p 0);
    destruct (o =? 1); destruct (o =? 0); cbn [Z.b2z andb orb negb]; lia.
Qed.

Lemma count_full_iff (c : Z -> bool) (observed predicted : list Z) :
  length observed = length predicted ->
  Spec.count (fun _ p => c p) observed predicted = Z.of_nat (length observed)
  <-> forallb c predicted = true.
Proof.
  revert predicted; induction observed as [|o observed IH]; intros [|p predicted] E;
    simpl length in *; cbn [Spec.count forallb]; try discriminate; try tauto.
  injection E as E. specialize (IH predicted E).
  pose proof (count_bounds (fun _ p => c p) observed predicted).
  destruct (c p); simpl Z.b2z; simpl andb.
  - rewrite <- IH. lia.
  - split; [lia|discriminate].
Qed.

Lemma observed_counts_miss_invalid (observed : list Z) :
  existsb (fun x => negb (Spec.label x)) observed = true ->
  Spec.P observed + Spec.N_ observed < Spec.N observed.
Proof.
  unfold Spec.P, Spec.N_, Spec.N.
  assert (G : forall b, length b = length observed ->
            Spec.count (fun o _ => o =? 1) observed b
            + Spec.count (fun o _ => o =? 0) observed b
            <= Z.of_nat (length observed)
            /\ (existsb (fun x => negb (Spec.label x)) observed = true ->
                Spec.count (fun o _ => o =? 1) observed b
                + Spec.count (fun o _ => o =? 0) observed b
                < Z.of_nat (length observed))).
  { induction observed as [|o observed IH]; intros [|y b] E;
      simpl length in *; cbn [Spec.count existsb]; try discriminate.
    - split; [lia|discriminate].
    - injection E as E. destruct (IH b E) as [IH1 IH2].
      unfold Spec.label.
      destruct (Z.eqb_spec o 1); destruct (Z.eqb_spec o 0);
        cbn [Z.b2z andb orb negb].
      + lia.
      + split; [lia|]. intros X; specialize (IH2 X); lia.
      + split; [lia|]. intros X; specialize (IH2 X); lia.
      + split; [lia|]. intros _; lia. }
  intros X. now apply (G observed).
Qed.

(** In exact arithmetic, a count over a positive number of cases is the
    finite quotient. *)
Lemma exact_rate (k n : Z) :
  0 < n -> div (of_int k) (of_int n) = XFin (Qred (inject_Z k / inject_Z n)).
Proof.
  intros Hn. cbn. unfold Qzerob; simpl Qnum.
  destruct (n =? 0) eqn:N0; [apply Z.eqb_eq in N0; lia|reflexivity].
Qed.

(** ** Not-a-number in binary64 *)

Lemma Prim2SF_nan : Prim2SF nan = S754_nan.
Proof. reflexivity. Qed.

Lemma nan_div_l (x : float) : (nan / x)%float = nan.
Proof. apply Prim2SF_inj. now rewrite div_spec, Prim2SF_nan. Qed.

Lemma nan_div_r (x : float) : (x / nan)%float = nan.
Proof.
  apply Prim2SF_inj. rewrite div_spec, Prim2SF_nan. now destruct (Prim2SF x).
Qed.

Lemma nan_mul_l (x : float) : (nan * x)%float = nan.
Proof. apply Prim2SF_inj. now rewrite mul_spec, Prim2SF_nan. Qed.

Lemma nan_mul_r (x : float) : (x * nan)%float = nan.
Proof.
  apply Prim2SF_inj. rewrite mul_spec, Prim2SF_nan. now destruct (Prim2SF x).
Qed.

Lemma nan_add_l (x : float) : (nan + x)%float = nan.
Proof. apply Prim2SF_inj. now rewrite add_spec, Prim2SF_nan. Qed.

Lemma nan_add_r (x : float) : (x + nan)%float = nan.
Proof.
  apply Prim2SF_inj. rewrite add_spec, Prim2SF_nan. now destruct (Prim2SF x).
Qed.

Lemma nan_sub_r (x : float) : (x - nan)%float = nan.
Proof.
  apply Prim2SF_inj. rewrite sub_spec, Prim2SF_nan. now destruct (Prim2SF x).
Qed.

Lemma zero_over_zero : Np.true_divide (F:=float) 0 0 = nan.
Proof. reflexivity. Qed.

Lemma true_positives_le_observed (observed predicted : list Z) :
  Spec.count (fun o p => (p =? 1) && (o =? 1)) observed predicted
  <= Np.sum (observed_positives observed).
Proof.
  unfold observed_positives, Np.eq_scalar.
  revert predicted; induction observed as [|o observed IH]; intros [|p predicted];
    cbn [Spec.count map Np.sum]; try lia.
  - pose proof (count_bounds (fun o _ => o =? 1) observed observed) as B.
    rewrite <- sum_eq_scalar in B. unfold Np.eq_scalar in B.
    destruct (o =? 1); cbn [Z.b2z]; lia.
  - specialize (IH predicted).
    destruct (p =? 1); destruct (o =? 1); cbn [Z.b2z andb]; lia.
Qed.

(** ** Division in binary64

    The quotient of two integers [0 <= k <= n < 2^53], as [np.float64]
    computes it, is a float between 0 and 1.  The proof follows the
    specification of binary64 in [SpecFloat]: both integers convert
    exactly, to mantissas of 53 bits; the quotient of the mantissas has 53
    or 54 bits and is rounded to 53. *)

Lemma digits2_pos_size (p : positive) : digits2_pos p = Pos.size p.
Proof. induction p; simpl; congruence. Qed.

Lemma Zdigits2_log2 (p : positive) : Z.pos (digits2_pos p) = Z.log2 (Z.pos p) + 1.
Proof.
  rewrite digits2_pos_size. destruct p; simpl Z.log2; simpl Pos.size; lia.
Qed.

Lemma Zdigits2_unique (p : positive) (d : Z) :
  0 < d -> 2 ^ (d - 1) <= Z.pos p < 2 ^ d -> Z.pos (digits2_pos p) = d.
Proof.
  intros Hd B. rewrite Zdigits2_log2.
  rewrite (Z.log2_unique (Z.pos p) (d - 1)); try lia.
  now replace (Z.succ (d - 1)) with d by lia.
Qed.

Lemma Zdigits2_bounds (p : positive) :
  2 ^ (Z.pos (digits2_pos p) - 1) <= Z.pos p < 2 ^ Z.pos (digits2_pos p).
Proof.
  rewrite Zdigits2_log2.
  pose proof (Z.log2_spec (Z.pos p) eq_refl) as B.
  now replace (Z.log2 (Z.pos p) + 1 - 1) with (Z.log2 (Z.pos p)) by lia.
Qed.

(** A mantissa of 53 bits is not shifted. *)
Lemma shr_fexp_53 (m : positive) (e : Z) (l : location) :
  2 ^ 52 <= Z.pos m < 2 ^ 53 -> -1074 <= e ->
  shr_fexp prec emax (Z.pos m) e l = (shr_record_of_loc (Z.pos m) l, e).
Proof.
  intros B He. unfold shr_fexp, Zdigits2.
  rewrite (Zdigits2_unique m 53) by (try lia; exact B).
  unfold fexp, SpecFloat.emin, prec, emax.
  replace (Z.max (53 + e - 53) (3 - 1024 - 53) - e) with 0 by lia.
  reflexivity.
Qed.

(** A mantissa of 54 bits is shifted once. *)
Lemma shr_fexp_54 (m : positive) (e : Z) (l : location) :
  2 ^ 53 <= Z.pos m < 2 ^ 54 -> -1074 <= e ->
  shr_fexp prec emax (Z.pos m) e l = (shr_1 (shr_record_of_loc (Z.pos m) l), e + 1).
Proof.
  intros B He. unfold shr_fexp, Zdigits2.
  rewrite (Zdigits2_unique m 54) by (try lia; exact B).
  unfold fexp, SpecFloat.emin, prec, emax.
  replace (Z.max (54 + e - 53) (3 - 1024 - 53) - e) with 1 by lia.
  reflexivity.
Qed.

Lemma shr_m_record_of_loc (m : Z) (l : location) :
  shr_m (shr_record_of_loc m l) = m.
Proof. destruct l as [|[]]; reflexivity. Qed.

Lemma shr_m_shr_1 (m : positive) (l : location) :
  shr_m (shr_1 (shr_record_of_loc (Z.pos m) l)) = Z.pos m / 2.
Proof.
  rewrite <- Z.div2_div. destruct l as [|[]]; destruct m; reflexivity.
Qed.

Lemma round_nearest_even_bounds (m : Z) (l : location) :
  m <= round_nearest_even m l <= m + 1.
Proof.
  unfold round_nearest_even. destruct l as [|[]]; try destruct (Z.even m); lia.
Qed.

(** Rounding a mantissa of 53 bits: the result keeps the exponent, or is
    the next power of two. *)
Lemma binary_round_aux_normal (s : bool) (mx ex : Z) (lx : location)
    (mrs : shr_record) (e : Z) :
  shr_fexp prec emax mx ex lx = (mrs, e) ->
  2 ^ 52 <= shr_m mrs < 2 ^ 53 -> -1074 <= e <= 900 ->
  let r := round_nearest_even (shr_m mrs) (loc_of_shr_record mrs) in
  binary_round_aux prec emax s mx ex lx
  = if r <? 2 ^ 53 then S754_finite s (Z.to_pos r) e
    else S754_finite s (2 ^ 52)%positive (e + 1).
Proof.
  intros S B He r. unfold binary_round_aux. rewrite S. fold r.
  pose proof (round_nearest_even_bounds (shr_m mrs) (loc_of_shr_record mrs)) as R.
  fold r in R.
  destruct (Z.ltb_spec r (2 ^ 53)) as [L|L].
  - destruct r as [|p|p] eqn:Er; try lia.
    rewrite shr_fexp_53 by lia. cbn [shr_record_of_loc shr_m].
    unfold emax, prec. destruct (Z.leb_spec e (1024 - 53)); [reflexivity|lia].
  - assert (Er : r = 2 ^ 53) by lia. rewrite Er.
    change (2 ^ 53) with (Z.pos (2 ^ 53)%positive).
    rewrite shr_fexp_54; [| split; vm_compute; (reflexivity || discriminate) | lia].
    cbn [shr_record_of_loc shr_1 shr_m].
    unfold emax, prec. 
    destruct (Z.leb_spec (e + 1) (1024 - 53)); [reflexivity|lia].
Qed.

Lemma SFleb_finite_one (m : positive) (e : Z) :
  e < -52 \/ (e = -52 /\ Z.pos m = 2 ^ 52) ->
  SFleb (S754_finite false m e) (Prim2SF 1) = true.
Proof.
  intros B. change (Prim2SF 1) with (S754_finite false (2 ^ 52)%positive (-52)).
  unfold SFleb, SFcompare.
  destruct (Z.compare_spec e (-52)) as [E|E|E]; try reflexivity; try lia.
  destruct B as [B|[_ B]]; [lia|].
  assert (m = (2 ^ 52)%positive) as -> by (apply Pos2Z.inj; exact B).
  reflexivity.
Qed.

Lemma SFltb_finite_one (m : positive) (e : Z) :
  e < -52 -> SFltb (S754_finite false m e) (Prim2SF 1) = true.
Proof.
  intros L. change (Prim2SF 1) with (S754_finite false (2 ^ 52)%positive (-52)).
  unfold SFltb, SFcompare.
  destruct (Z.compare_spec e (-52)); try reflexivity; lia.
Qed.

Lemma new_location_0 (n : Z) : new_location n 0 = loc_Exact.
Proof.
  unfold new_location, new_location_even, new_location_odd.
  destruct (Z.even n); reflexivity.
Qed.

(** The quotient of two normal floats: a mantissa [m] of 53 bits, within
    one unit of the quotient [q] of the two mantissas, which has 53 or 54
    bits; equal mantissas give a power of two. *)
Lemma SFdiv_normal (m1 m2 : positive) (e1 e2 : Z) :
  2 ^ 52 <= Z.pos m1 < 2 ^ 53 -> 2 ^ 52 <= Z.pos m2 < 2 ^ 53 ->
  -52 <= e1 <= 0 -> -52 <= e2 <= 0 ->
  exists (m : positive) (e q : Z),
    SF64div (S754_finite false m1 e1) (S754_finite false m2 e2)
    = S754_finite false m e
    /\ 2 ^ 52 <= Z.pos m < 2 ^ 53
    /\ Z.pos m2 * q <= Z.pos m1 * 2 ^ 53 < Z.pos m2 * (q + 1)
    /\ ((Z.pos m1 = Z.pos m2 /\ Z.pos m = 2 ^ 52 /\ e = e1 - e2 - 52)
        \/ (q < 2 ^ 53 /\ e = e1 - e2 - 53 /\ q <= Z.pos m <= q + 1)
        \/ (q < 2 ^ 53 /\ e = e1 - e2 - 52 /\ Z.pos m = 2 ^ 52 /\ q + 1 = 2 ^ 53)
        \/ (Z.pos m2 < Z.pos m1 /\ e = e1 - e2 - 52
            /\ 2 * Z.pos m <= q + 2)
        \/ (Z.pos m2 < Z.pos m1 /\ e = e1 - e2 - 51
            /\ Z.pos m = 2 ^ 52 /\ 2 ^ 54 <= q + 2)).
Proof.
  intros B1 B2 E1 E2.
  unfold SF64div, SFdiv, SFdiv_core_binary, Zdigits2.
  rewrite (Zdigits2_unique m1 53), (Zdigits2_unique m2 53) by (try lia; assumption).
  unfold fexp, SpecFloat.emin, prec, emax.
  replace (Z.min (Z.max (53 + e1 - (53 + e2) - 53) (3 - 1024 - 53)) (e1 - e2))
    with (e1 - e2 - 53) by lia.
  replace (e1 - e2 - (e1 - e2 - 53)) with 53 by lia.
  rewrite Z.shiftl_mul_pow2 by lia.
  pose proof (Z_div_mod (Z.pos m1 * 2 ^ 53) (Z.pos m2) eq_refl) as D.
  destruct (Z.div_eucl (Z.pos m1 * 2 ^ 53) (Z.pos m2)) as [q r].
  destruct D as [D R]. cbn [xorb].
  assert (P53 : 2 ^ 53 = 2 * 2 ^ 52) by reflexivity.
  assert (P54 : 2 ^ 54 = 4 * 2 ^ 52) by reflexivity.
  assert (Q : 2 ^ 52 <= q < 2 ^ 54).
  { rewrite P53 in *. rewrite P54. revert B1 B2 D. generalize (2 ^ 52).
    intros t B1 B2 D. split.
    - destruct (Z_lt_le_dec q t) as [L|L]; [exfalso|exact L].
      assert (Z.pos m2 * (q + 1) <= Z.pos m2 * t) by (apply Z.mul_le_mono_nonneg_l; lia).
      assert (Z.pos m2 * t < 2 * t * t) by nia.
      assert (2 * t * t <= Z.pos m1 * (2 * t)) by nia.
      lia.
    - destruct (Z_lt_le_dec q (4 * t)) as [L|L]; [exact L|exfalso].
      assert (Z.pos m2 * (4 * t) <= Z.pos m2 * q) by (apply Z.mul_le_mono_nonneg_l; lia).
      assert (4 * t * t <= Z.pos m2 * (4 * t)) by nia.
      assert (Z.pos m1 * (2 * t) < 4 * t * t) by nia.
      lia. }
  assert (QR : Z.pos m2 * q <= Z.pos m1 * 2 ^ 53 < Z.pos m2 * (q + 1)) by lia.
  destruct (Z.eq_dec (Z.pos m1) (Z.pos m2)) as [EQ|NE].
  - (* the same mantissa: the quotient is exact *)
    assert (q = 2 ^ 53 /\ r = 0) as [-> ->].
    { rewrite EQ in D. revert D. generalize (2 ^ 53). intros t D.
      destruct (Z.lt_trichotomy q t) as [L|[L|L]].
      - assert (Z.pos m2 * (q + 1) <= Z.pos m2 * t)
          by (apply Z.mul_le_mono_nonneg_l; lia).
        lia.
      - subst q. lia.
      - assert (Z.pos m2 * (t + 1) <= Z.pos m2 * q)
          by (apply Z.mul_le_mono_nonneg_l; lia).
        lia. }
    rewrite new_location_0.
    pose proof (binary_round_aux_normal false (2 ^ 53) (e1 - e2 - 53) loc_Exact _ _
                  (shr_fexp_54 (2 ^ 53)%positive (e1 - e2 - 53) loc_Exact
                     ltac:(split; vm_compute; (reflexivity || discriminate))
                     ltac:(lia))) as A.
    cbn [shr_record_of_loc shr_1 shr_m loc_of_shr_record round_nearest_even] in A.
    specialize (A ltac:(split; vm_compute; (reflexivity || discriminate))
                  ltac:(lia)).
    cbv zeta in A. unfold prec, emax in A.
    change (Z.pos (2 ^ 53)%positive) with (2 ^ 53) in A. rewrite A.
    change (Z.pos (2 ^ 52) <? 2 ^ 53) with true. cbv iota.
    exists (2 ^ 52)%positive, (e1 - e2 - 53 + 1), (2 ^ 53).
    split; [reflexivity|]. split; [split; vm_compute; (reflexivity || discriminate)|].
    split; [exact QR|]. left. repeat split; try assumption; lia.
  - set (e' := e1 - e2 - 53). set (l := new_location (Z.pos m2) r).
    destruct q as [|pq|pq]; try lia.
    destruct (Z_lt_le_dec (Z.pos pq) (2 ^ 53)) as [S|S].
    + (* a quotient of 53 bits *)
      pose proof (binary_round_aux_normal false (Z.pos pq) e' l _ _
                    (shr_fexp_53 pq e' l ltac:(lia) ltac:(unfold e'; lia))) as A.
      rewrite shr_m_record_of_loc in A.
      specialize (A ltac:(lia) ltac:(unfold e'; lia)). cbv zeta in A.
      unfold prec, emax in A. rewrite A.
      pose proof (round_nearest_even_bounds (Z.pos pq)
                    (loc_of_shr_record (shr_record_of_loc (Z.pos pq) l))) as R'.
      destruct (Z.ltb_spec (round_nearest_even (Z.pos pq)
                  (loc_of_shr_record (shr_record_of_loc (Z.pos pq) l))) (2 ^ 53)).
      * exists (Z.to_pos (round_nearest_even (Z.pos pq)
                  (loc_of_shr_record (shr_record_of_loc (Z.pos pq) l)))),
               e', (Z.pos pq).
        rewrite Z2Pos.id by lia.
        split; [reflexivity|]. split; [lia|]. split; [exact QR|].
        right; left. repeat split; unfold e'; lia.
      * exists (2 ^ 52)%positive, (e' + 1), (Z.pos pq).
        split; [reflexivity|].
        split; [split; vm_compute; (reflexivity || discriminate)|].
        split; [exact QR|]. right; right; left.
        repeat split; unfold e'; lia.
    + (* a quotient of 54 bits: the dividend has the greater mantissa *)
      assert (GT : Z.pos m2 < Z.pos m1).
      { destruct (Z_lt_le_dec (Z.pos m2) (Z.pos m1)) as [G|G]; [exact G|exfalso].
        assert (Z.pos m2 * 2 ^ 53 <= Z.pos m2 * Z.pos pq)
          by (apply Z.mul_le_mono_nonneg_l; lia).
        assert (Z.pos m1 * 2 ^ 53 < Z.pos m2 * 2 ^ 53)
          by (apply Z.mul_lt_mono_pos_r; [reflexivity|lia]).
        lia. }
      pose proof (binary_round_aux_normal false (Z.pos pq) e' l _ _
                    (shr_fexp_54 pq e' l ltac:(lia) ltac:(unfold e'; lia))) as A.
      rewrite shr_m_shr_1 in A.
      assert (H2 : 2 ^ 52 <= Z.pos pq / 2 < 2 ^ 53).
      { split.
        - apply Z.div_le_lower_bound; [lia|]. change (2 * 2 ^ 52) with (2 ^ 53). lia.
        - apply Z.div_lt_upper_bound; [lia|]. change (2 * 2 ^ 53) with (2 ^ 54). lia. }
      specialize (A H2 ltac:(unfold e'; lia)). cbv zeta in A.
      unfold prec, emax in A. rewrite A.
      pose proof (round_nearest_even_bounds (Z.pos pq / 2)
                    (loc_of_shr_record (shr_1 (shr_record_of_loc (Z.pos pq) l)))) as R'.
      pose proof (Z.mul_div_le (Z.pos pq) 2 ltac:(lia)) as Half.
      destruct (Z.ltb_spec (round_nearest_even (Z.pos pq / 2)
                  (loc_of_shr_record (shr_1 (shr_record_of_loc (Z.pos pq) l))))
                  (2 ^ 53)).
      * exists (Z.to_pos (round_nearest_even (Z.pos pq / 2)
                  (loc_of_shr_record (shr_1 (shr_record_of_loc (Z.pos pq) l))))),
               (e' + 1), (Z.pos pq).
        rewrite Z2Pos.id by lia.
        split; [reflexivity|]. split; [lia|]. split; [exact QR|].
        right; right; right; left. repeat split; unfold e'; lia.
      * exists (2 ^ 52)%positive, (e' + 1 + 1), (Z.pos pq).
        split; [reflexivity|].
        split; [split; vm_compute; (reflexivity || discriminate)|].
        split; [exact QR|]. right; right; right; right.
        repeat split; unfold e'; lia.
Qed.

(** An integer below [2^53] converts exactly: the mantissa is the integer
    shifted left to 53 bits. *)
Lemma of_int_normal (k : Z) :
  0 < k < 2 ^ 53 ->
  exists (m : positive) (e : Z),
    Prim2SF (of_uint63 (of_Z k)) = S754_finite false m e
    /\ 2 ^ 52 <= Z.pos m < 2 ^ 53
    /\ -52 <= e <= 0
    /\ Z.pos m = k * 2 ^ (- e).
Proof.
  intros B.
  rewrite of_uint63_spec, of_Z_spec.
  rewrite Z.mod_small
    by (split; [lia|]; apply Z.lt_trans with (2 ^ 53); [lia|reflexivity]).
  destruct k as [|p|p]; try lia.
  cbn [binary_normalize]. unfold binary_round, shl_align.
  pose proof (Zdigits2_bounds p) as Dp.
  set (d := Z.pos (digits2_pos p)) in *.
  assert (Hd : 1 <= d <= 53).
  { split; [unfold d; lia|].
    destruct (Z_lt_le_dec 53 d) as [L|L]; [exfalso|exact L].
    assert (2 ^ 53 <= 2 ^ (d - 1)) by (apply Z.pow_le_mono_r; lia). lia. }
  unfold fexp, SpecFloat.emin, prec, emax.
  replace (Z.max (d + 0 - 53) (3 - 1024 - 53)) with (d - 53) by lia.
  destruct (Z.eq_dec d 53) as [E53|N53].
  - rewrite E53. change (53 - 53) with 0. change (0 - 0) with 0. cbv iota beta.
    rewrite E53 in Dp. change (53 - 1) with 52 in Dp.
    pose proof (binary_round_aux_normal false (Z.pos p) 0 loc_Exact _ _
                  (shr_fexp_53 p 0 loc_Exact Dp ltac:(lia))) as A.
    cbn [shr_record_of_loc shr_m loc_of_shr_record round_nearest_even] in A.
    specialize (A Dp ltac:(lia)). cbv zeta in A. unfold prec, emax in A.
    rewrite A. destruct (Z.ltb_spec (Z.pos p) (2 ^ 53)); [|lia].
    exists p, 0. split; [reflexivity|]. split; [exact Dp|]. split; [lia|].
    change (2 ^ (- 0)) with 1. lia.
  - set (s := Z.to_pos (53 - d)).
    replace (d - 53 - 0) with (Z.neg s) by (unfold s; lia).
    cbv iota beta. fold (shift_pos s p).
    assert (Ms : Z.pos (shift_pos s p) = Z.pos p * 2 ^ (53 - d)).
    { rewrite shift_pos_correct, Z.pow_pos_fold. unfold s.
      rewrite Z2Pos.id by lia. lia. }
    assert (Bs : 2 ^ 52 <= Z.pos (shift_pos s p) < 2 ^ 53).
    { rewrite Ms.
      replace (2 ^ 52) with (2 ^ (d - 1) * 2 ^ (53 - d))
        by (rewrite <- Z.pow_add_r by lia; f_equal; lia).
      replace (2 ^ 53) with (2 ^ d * 2 ^ (53 - d))
        by (rewrite <- Z.pow_add_r by lia; f_equal; lia).
      assert (0 < 2 ^ (53 - d)) by (apply Z.pow_pos_nonneg; lia).
      split.
      - apply Z.mul_le_mono_nonneg_r; lia.
      - apply Z.mul_lt_mono_pos_r; lia. }
    pose proof (binary_round_aux_normal false (Z.pos (shift_pos s p)) (d - 53)
                  loc_Exact _ _
                  (shr_fexp_53 (shift_pos s p) (d - 53) loc_Exact Bs ltac:(lia))) as A.
    cbn [shr_record_of_loc shr_m loc_of_shr_record round_nearest_even] in A.
    specialize (A Bs ltac:(lia)). cbv zeta in A. unfold prec, emax in A.
    rewrite A. destruct (Z.ltb_spec (Z.pos (shift_pos s p)) (2 ^ 53)); [|lia].
    exists (shift_pos s p), (d - 53). split; [reflexivity|].
    split; [exact Bs|]. split; [lia|].
    rewrite Ms. f_equal. f_equal. lia.
Qed.

Lemma normal_order (k n : Z) (mk mn : positive) (ek en : Z) :
  0 < k <= n ->
  2 ^ 52 <= Z.pos mk < 2 ^ 53 -> 2 ^ 52 <= Z.pos mn < 2 ^ 53 ->
  -52 <= ek <= 0 -> -52 <= en <= 0 ->
  Z.pos mk = k * 2 ^ (- ek) -> Z.pos mn = n * 2 ^ (- en) ->
  ek < en \/ (ek = en /\ Z.pos mk <= Z.pos mn).
Proof.
  intros K Bk Bn Ek En Mk Mn.
  destruct (Z.lt_trichotomy ek en) as [L|[L|L]].
  - now left.
  - right. split; [exact L|]. subst en. rewrite Mk, Mn.
    apply Z.mul_le_mono_nonneg_r; [apply Z.pow_nonneg|]; lia.
  - exfalso.
    assert (P : 2 * 2 ^ (- ek) <= 2 ^ (- en)).
    { rewrite <- Z.pow_succ_r by lia. apply Z.pow_le_mono_r; lia. }
    assert (0 < 2 ^ (- ek)) by (apply Z.pow_pos_nonneg; lia).
    assert (k * (2 * 2 ^ (- ek)) <= n * 2 ^ (- en)).
    { apply Z.le_trans with (k * 2 ^ (- en)).
      - apply Z.mul_le_mono_nonneg_l; lia.
      - apply Z.mul_le_mono_nonneg_r; lia. }
    change (2 ^ 53) with (2 * 2 ^ 52) in *. lia.
Qed.

(** The arithmetic behind [binary64_rate]: [V] is the value of the rounded
    quotient, [A], [B] and [T] are powers of two and [c] is [2^52]. *)
Lemma rate_value_bound (k n m1 m2 q A B T V c : Z) :
  0 < A -> 0 < B -> 0 < T -> 0 < k -> 0 < n -> 0 < c -> 0 <= q ->
  m1 = k * A -> m2 = n * B -> T * A = c * B ->
  c <= m1 -> m2 < 2 * c ->
  m2 * q <= m1 * (2 * c) ->
  V <= (q + 2) * T ->
  V * n <= k * (2 * c * c + 4 * c).
Proof.
  intros HA HB HT Hk Hn Hc Hq E1 E2 ET L1 L2 Q HV.
  (* n T < 2 c k *)
  assert (NT : n * T < 2 * c * k).
  { apply (Z.mul_lt_mono_pos_r A); [exact HA|].
    replace (n * T * A) with (c * m2) by (rewrite E2; rewrite <- Z.mul_assoc, ET; ring).
    replace (2 * c * k * A) with (2 * c * m1) by (rewrite E1; ring).
    assert (c * m2 < c * (2 * c)) by (apply Z.mul_lt_mono_pos_l; lia).
    assert (c * (2 * c) <= 2 * c * m1) by nia.
    lia. }
  apply (Z.mul_le_mono_pos_r _ _ B); [exact HB|].
  assert (S1 : V * n * B <= (q + 2) * T * (n * B)).
  { rewrite <- Z.mul_assoc. apply Z.mul_le_mono_nonneg_r; [nia|exact HV]. }
  assert (S2 : (q + 2) * T * (n * B) = (m2 * q + 2 * m2) * T) by (rewrite E2; ring).
  assert (S3 : (m2 * q + 2 * m2) * T <= (m1 * (2 * c) + 2 * m2) * T)
    by (apply Z.mul_le_mono_nonneg_r; lia).
  assert (S4 : (m1 * (2 * c) + 2 * m2) * T = B * (2 * c * c * k + 2 * (n * T))).
  { rewrite E1, E2.
    replace (k * A * (2 * c)) with (2 * c * k * A) by ring.
    replace ((2 * c * k * A + 2 * (n * B)) * T)
      with (2 * c * k * (T * A) + 2 * n * B * T) by ring.
    rewrite ET. ring. }
  assert (S5 : B * (2 * c * c * k + 2 * (n * T)) <= B * (2 * c * c * k + 4 * c * k))
    by (apply Z.mul_le_mono_nonneg_l; lia).
  replace (k * (2 * c * c + 4 * c) * B) with (B * (2 * c * c * k + 4 * c * k)) by ring.
  lia.
Qed.

(** A count over a greater count, divided in binary64: a normal float, at
    most one, and at most [1 + 2^-51] times the exact quotient (values in
    units of [2^-105]). *)
Lemma binary64_rate (k n : Z) :
  0 < k <= n -> n < 2 ^ 53 ->
  exists (m : positive) (e : Z),
    Prim2SF (of_uint63 (of_Z k) / of_uint63 (of_Z n)) = S754_finite false m e
    /\ 2 ^ 52 <= Z.pos m < 2 ^ 53
    /\ -105 <= e
    /\ (e < -52 \/ (e = -52 /\ Z.pos m = 2 ^ 52))
    /\ Z.pos m * 2 ^ (e + 105) * n <= k * (2 ^ 105 + 2 ^ 54).
Proof.
  intros K N. rewrite div_spec.
  destruct (of_int_normal n ltac:(lia)) as (mn & en & -> & Bn & En & Mn).
  destruct (of_int_normal k ltac:(lia)) as (mk & ek & -> & Bk & Ek & Mk).
  pose proof (normal_order k n mk mn ek en ltac:(lia) Bk Bn Ek En Mk Mn) as O.
  destruct (SFdiv_normal mk mn ek en Bk Bn Ek En) as (m & e & q & -> & Bm & QR & C).
  exists m, e. split; [reflexivity|]. split; [exact Bm|].
  assert (Hq : 0 <= q).
  { destruct (Z_lt_le_dec q 0) as [L|L]; [exfalso|exact L].
    assert (Z.pos mn * (q + 1) <= Z.pos mn * 0)
      by (apply Z.mul_le_mono_nonneg_l; lia).
    lia. }
  set (T := 2 ^ (ek - en + 52)).
  assert (HT : 0 < T) by (apply Z.pow_pos_nonneg; lia).
  assert (HA : 0 < 2 ^ (- ek)) by (apply Z.pow_pos_nonneg; lia).
  assert (HB : 0 < 2 ^ (- en)) by (apply Z.pow_pos_nonneg; lia).
  assert (ET : T * 2 ^ (- ek) = 2 ^ 52 * 2 ^ (- en)).
  { unfold T. rewrite <- !Z.pow_add_r by lia. f_equal. lia. }
  assert (T2 : 2 ^ (ek - en + 53) = 2 * T).
  { unfold T. replace (ek - en + 53) with (Z.succ (ek - en + 52)) by lia.
    rewrite Z.pow_succ_r by lia. reflexivity. }
  assert (T4 : 2 ^ (ek - en + 54) = 4 * T).
  { replace (ek - en + 54) with (Z.succ (ek - en + 53)) by lia.
    rewrite Z.pow_succ_r, T2 by lia. lia. }
  assert (P105 : 2 ^ 105 + 2 ^ 54 = 2 * 2 ^ 52 * 2 ^ 52 + 4 * 2 ^ 52) by reflexivity.
  assert (P53 : 2 ^ 53 = 2 * 2 ^ 52) by reflexivity.
  assert (P54 : 2 ^ 54 = 4 * 2 ^ 52) by reflexivity.
  assert (Hc : 0 < 2 ^ 52) by reflexivity.
  assert (VB : forall V, V <= (q + 2) * T ->
                 V * n <= k * (2 ^ 105 + 2 ^ 54)).
  { intros V HV. rewrite P105.
    apply (rate_value_bound k n (Z.pos mk) (Z.pos mn) q
             (2 ^ (- ek)) (2 ^ (- en)) T V (2 ^ 52)); try assumption; try lia. }
  destruct C as [(EQ & Em & Ee)|[(Q & Ee & Bq)|[(Q & Ee & Em & Eq')
               |[(GT & Ee & Bq)|(GT & Ee & Em & Bq)]]]].
  - (* exact *)
    split; [lia|]. split; [lia|].
    rewrite Ee, Em. replace (ek - en - 52 + 105) with (ek - en + 53) by lia.
    rewrite T2.
    apply (Z.mul_le_mono_pos_r _ _ (2 ^ (- ek))); [exact HA|].
    replace (2 ^ 52 * (2 * T) * n * 2 ^ (- ek))
      with (2 * 2 ^ 52 * n * (T * 2 ^ (- ek))) by ring.
    rewrite ET.
    replace (2 * 2 ^ 52 * n * (2 ^ 52 * 2 ^ (- en)))
      with (2 * 2 ^ 52 * 2 ^ 52 * (n * 2 ^ (- en))) by ring.
    rewrite <- Mn, <- EQ, Mk, P105.
    assert (0 <= k * 2 ^ (- ek) * (4 * 2 ^ 52)) by nia.
    nia.
  - split; [lia|]. split; [lia|].
    apply VB. rewrite Ee. replace (ek - en - 53 + 105) with (ek - en + 52) by lia.
    fold T. apply Z.mul_le_mono_nonneg_r; lia.
  - split; [lia|]. split; [lia|].
    apply VB. rewrite Ee, Em. replace (ek - en - 52 + 105) with (ek - en + 53) by lia.
    rewrite T2. nia.
  - split; [lia|]. split; [lia|].
    apply VB. rewrite Ee. replace (ek - en - 52 + 105) with (ek - en + 53) by lia.
    rewrite T2. nia.
  - split; [lia|]. split; [lia|].
    apply VB. rewrite Ee, Em. replace (ek - en - 51 + 105) with (ek - en + 54) by lia.
    rewrite T4. nia.
Qed.

(** A count over a greater count, divided in binary64, lies between 0 and 1. *)
Lemma binary64_rate_in_unit_interval (k n : Z) :
  0 <= k <= n -> 0 < n < 2 ^ 53 ->
  (0 <=? of_uint63 (of_Z k) / of_uint63 (of_Z n))%float = true
  /\ (of_uint63 (of_Z k) / of_uint63 (of_Z n) <=? 1)%float = true.
Proof.
  intros K N. rewrite !leb_spec.
  destruct (Z.eq_dec k 0) as [->|K0].
  - rewrite div_spec.
    destruct (of_int_normal n N) as (mn & en & -> & _). split; reflexivity.
  - destruct (binary64_rate k n ltac:(lia) ltac:(lia)) as (m & e & -> & _ & _ & LE & _).
    split; [reflexivity|]. now apply SFleb_finite_one.
Qed.

(** ** Addition in binary64 *)

(** [n] right shifts: the quotient by [2^n], and whether anything was lost. *)
Lemma iter_shr_1_nat (n : nat) (m : Z) :
  0 <= m ->
  let r := Nat.iter n shr_1 (Build_shr_record m false false) in
  shr_m r = m / 2 ^ Z.of_nat n
  /\ (orb (shr_r r) (shr_s r) = false <-> m mod 2 ^ Z.of_nat n = 0).
Proof.
  intros Hm. induction n as [|n IH].
  - cbn [Nat.iter shr_m shr_r shr_s orb]. change (2 ^ Z.of_nat 0) with 1.
    rewrite Z.div_1_r, Z.mod_1_r. tauto.
  - cbv zeta in IH |- *. rewrite !Nat.iter_succ.
    destruct (Nat.iter n shr_1 (Build_shr_record m false false)) as [m' r' s'].
    cbn [shr_m shr_r shr_s] in IH. destruct IH as [IHm IHs].
    assert (P : 0 < 2 ^ Z.of_nat n) by (apply Z.pow_pos_nonneg; lia).
    assert (Hm' : 0 <= m') by (rewrite IHm; apply Z.div_pos; lia).
    rewrite Nat2Z.inj_succ, Z.pow_succ_r by lia.
    assert (Em : m = 2 ^ Z.of_nat n * m' + m mod 2 ^ Z.of_nat n)
      by (rewrite IHm; apply Z.div_mod; lia).
    pose proof (Z.mod_pos_bound m (2 ^ Z.of_nat n) P) as Bm.
    assert (Q : shr_m (shr_1 (Build_shr_record m' r' s')) = m' / 2
                /\ shr_r (shr_1 (Build_shr_record m' r' s')) = Z.odd m'
                /\ shr_s (shr_1 (Build_shr_record m' r' s')) = orb r' s').
    { rewrite <- Z.div2_div.
      destruct m' as [|[p|p|]|p]; try lia; cbn; repeat split; reflexivity. }
    destruct Q as (-> & -> & ->).
    split.
    + rewrite IHm. rewrite Z.div_div by lia. f_equal. lia.
    + rewrite orb_false_iff, IHs.
      pose proof (Z.div_mod m' 2 ltac:(lia)) as D2.
      pose proof (Z.mod_pos_bound m' 2 ltac:(lia)) as B2.
      assert (M2 : m mod (2 * 2 ^ Z.of_nat n)
                   = 2 ^ Z.of_nat n * (m' mod 2) + m mod 2 ^ Z.of_nat n).
      { symmetry. apply Z.mod_unique with (q := m' / 2); [nia|]. nia. }
      rewrite M2, (Zmod_odd m'). destruct (Z.odd m').
      * split; [intros [X _]; discriminate|nia].
      * split; [intros [_ X]; lia|]. intros; split; [reflexivity|lia].
Qed.

Lemma iter_pos_nat {A : Type} (f : A -> A) (p : positive) (x : A) :
  iter_pos f p x = Nat.iter (Pos.to_nat p) f x.
Proof.
  revert x; induction p as [p IH|p IH|]; intros x; cbn [iter_pos].
  - rewrite !IH, Pos2Nat.inj_xI, Nat.iter_succ_r.
    replace (2 * Pos.to_nat p)%nat with (Pos.to_nat p + Pos.to_nat p)%nat by lia.
    now rewrite Nat.iter_add.
  - rewrite !IH, Pos2Nat.inj_xO.
    replace (2 * Pos.to_nat p)%nat with (Pos.to_nat p + Pos.to_nat p)%nat by lia.
    now rewrite Nat.iter_add.
  - reflexivity.
Qed.

Lemma loc_Exact_iff (mrs : shr_record) :
  loc_of_shr_record mrs = loc_Exact <-> orb (shr_r mrs) (shr_s mrs) = false.
Proof. destruct mrs as [m [] []]; cbn; split; congruence. Qed.

(** A mantissa of [53 + s] bits is shifted [s] times. *)
Lemma shr_fexp_wide (M : positive) (e : Z) :
  let s := Z.pos (digits2_pos M) - 53 in
  0 <= s -> -1074 <= e + s ->
  exists mrs : shr_record,
    shr_fexp prec emax (Z.pos M) e loc_Exact = (mrs, e + s)
    /\ shr_m mrs = Z.pos M / 2 ^ s
    /\ (loc_of_shr_record mrs = loc_Exact <-> Z.pos M mod 2 ^ s = 0).
Proof.
  intros s Hs He. unfold shr_fexp, Zdigits2, fexp, SpecFloat.emin, prec, emax.
  replace (Z.max (Z.pos (digits2_pos M) + e - 53) (3 - 1024 - 53) - e)
    with s by (unfold s; lia).
  cbn [shr_record_of_loc]. unfold shr.
  destruct s as [|p|p] eqn:Es; try lia.
  - eexists. split; [rewrite Z.add_0_r; reflexivity|].
    cbn [shr_m loc_of_shr_record]. change (2 ^ 0) with 1.
    rewrite Z.div_1_r, Z.mod_1_r. tauto.
  - eexists. split; [reflexivity|].
    rewrite iter_pos_nat, loc_Exact_iff.
    pose proof (iter_shr_1_nat (Pos.to_nat p) (Z.pos M) ltac:(lia)) as I.
    cbv zeta in I. now rewrite positive_nat_Z in I.
Qed.

Lemma shl_align_fst (m : positive) (e e' : Z) :
  e' <= e -> Z.pos (fst (shl_align m e e')) = Z.pos m * 2 ^ (e - e').
Proof.
  intros L. unfold shl_align.
  destruct (e' - e) as [|d|d] eqn:D; try lia.
  - cbn [fst]. replace (e - e') with 0 by lia. change (2 ^ 0) with 1. lia.
  - cbn [fst]. fold (shift_pos d m).
    rewrite shift_pos_correct, Z.pow_pos_fold.
    replace (e - e') with (Z.pos d) by lia. lia.
Qed.

(** The sum of two normal floats whose exact sum is at most the greatest
    float below one, is below one.  Values are in units of [2^-105]. *)
Lemma SFadd_normal_below_one (mx my : positive) (ex ey : Z) :
  2 ^ 52 <= Z.pos mx < 2 ^ 53 -> 2 ^ 52 <= Z.pos my < 2 ^ 53 ->
  -105 <= ex <= 0 -> -105 <= ey <= 0 ->
  Z.pos mx * 2 ^ (ex + 105) + Z.pos my * 2 ^ (ey + 105) <= 2 ^ 105 - 2 ^ 52 ->
  SFltb (SF64add (S754_finite false mx ex) (S754_finite false my ey)) (Prim2SF 1)
  = true.
Proof.
  intros Bx By Ex Ey V.
  unfold SF64add, SFadd, cond_Zopp.
  set (ez := Z.min ex ey).
  pose proof (shl_align_fst mx ex ez ltac:(unfold ez; lia)) as Ax.
  pose proof (shl_align_fst my ey ez ltac:(unfold ez; lia)) as Ay.
  set (A := fst (shl_align mx ex ez)) in *.
  set (B := fst (shl_align my ey ez)) in *.
  cbn [Z.add binary_normalize]. set (M := (A + B)%positive).
  assert (EM : Z.pos M = Z.pos mx * 2 ^ (ex - ez) + Z.pos my * 2 ^ (ey - ez))
    by (unfold M; rewrite Pos2Z.inj_add; lia).
  (* the exact sum, in units of 2^-105 *)
  assert (Pz : 0 < 2 ^ (ez + 105)) by (apply Z.pow_pos_nonneg; unfold ez; lia).
  assert (SM : Z.pos M * 2 ^ (ez + 105)
               = Z.pos mx * 2 ^ (ex + 105) + Z.pos my * 2 ^ (ey + 105)).
  { rewrite EM, Z.mul_add_distr_r, <- !Z.mul_assoc, <- !Z.pow_add_r
      by (unfold ez; lia).
    replace (ex - ez + (ez + 105)) with (ex + 105) by lia.
    replace (ey - ez + (ez + 105)) with (ey + 105) by lia.
    reflexivity. }
  assert (M52 : 2 ^ 52 <= Z.pos M).
  { rewrite EM.
    assert (1 <= 2 ^ (ex - ez))
      by (apply (Z.pow_le_mono_r 2 0); unfold ez; lia).
    assert (0 <= 2 ^ (ey - ez)) by (apply Z.pow_nonneg; lia).
    nia. }
  pose proof (Zdigits2_bounds M) as DM.
  set (d := Z.pos (digits2_pos M)) in *.
  assert (Hd : 53 <= d).
  { destruct (Z_lt_le_dec d 53) as [L|L]; [exfalso|exact L].
    assert (2 ^ d <= 2 ^ 52) by (apply Z.pow_le_mono_r; lia). lia. }
  remember (d - 53) as s eqn:Es. assert (Hs : 0 <= s) by lia.
  (* the sum is below one, so its exponent is below -52 *)
  assert (P2s : 2 ^ (d - 1) = 2 ^ 52 * 2 ^ s)
    by (rewrite <- Z.pow_add_r by lia; f_equal; lia).
  assert (P2d : 2 ^ d = 2 ^ 53 * 2 ^ s)
    by (rewrite <- Z.pow_add_r by lia; f_equal; lia).
  assert (Ps : 0 < 2 ^ s) by (apply Z.pow_pos_nonneg; lia).
  assert (Hes : ez + s < -52).
  { destruct (Z_lt_le_dec (ez + s) (-52)) as [L|L]; [exact L|exfalso].
    assert (2 ^ 105 <= 2 ^ (52 + s + (ez + 105)))
      by (apply Z.pow_le_mono_r; lia).
    rewrite !Z.pow_add_r in H by (unfold ez; lia).
    assert (2 ^ 52 * 2 ^ s * 2 ^ (ez + 105) <= Z.pos M * 2 ^ (ez + 105))
      by (apply Z.mul_le_mono_nonneg_r; lia).
    assert (0 < 2 ^ 52) by reflexivity. lia. }
  assert (SA : shl_align M ez (fexp prec emax (Z.pos (digits2_pos M) + ez))
               = (M, ez)).
  { unfold shl_align, fexp, SpecFloat.emin, prec, emax. fold d.
    replace (Z.max (d + ez - 53) (3 - 1024 - 53) - ez) with s
      by (unfold ez; lia).
    destruct s; try lia; reflexivity. }
  unfold binary_round. rewrite SA.
  destruct (shr_fexp_wide M ez) as (mrs & S & Sm & Sl);
    [fold d; lia | fold d; unfold ez; lia |].
  fold d in S, Sm, Sl. rewrite <- Es in S, Sm, Sl.
  assert (B1 : 2 ^ 52 <= shr_m mrs < 2 ^ 53).
  { rewrite Sm. split.
    - apply Z.div_le_lower_bound; [exact Ps|]. lia.
    - apply Z.div_lt_upper_bound; [exact Ps|]. lia. }
  pose proof (binary_round_aux_normal false (Z.pos M) ez loc_Exact mrs (ez + s)
                S B1 ltac:(unfold ez; lia)) as R.
  cbv zeta in R. rewrite R.
  pose proof (round_nearest_even_bounds (shr_m mrs) (loc_of_shr_record mrs)) as RB.
  destruct (Z.ltb_spec (round_nearest_even (shr_m mrs) (loc_of_shr_record mrs))
              (2 ^ 53)) as [L|L].
  - now apply SFltb_finite_one.
  - apply SFltb_finite_one.
    destruct (Z_lt_le_dec (ez + s + 1) (-52)) as [G|G]; [exact G|exfalso].
    assert (NX : loc_of_shr_record mrs <> loc_Exact).
    { intros X. rewrite X in L. cbn [round_nearest_even] in L. lia. }
    assert (NZ : Z.pos M mod 2 ^ s <> 0) by (now rewrite <- Sl).
    pose proof (Z.div_mod (Z.pos M) (2 ^ s) ltac:(lia)) as DMod.
    pose proof (Z.mod_pos_bound (Z.pos M) (2 ^ s) Ps) as BMod.
    rewrite <- Sm in DMod.
    assert (E1 : shr_m mrs = 2 ^ 53 - 1) by lia.
    assert (UT : 2 ^ s * 2 ^ (ez + 105) = 2 ^ 52).
    { rewrite <- Z.pow_add_r by (unfold ez; lia). f_equal. lia. }
    rewrite E1 in DMod.
    assert (Z.pos M * 2 ^ (ez + 105)
            = 2 ^ s * 2 ^ (ez + 105) * (2 ^ 53 - 1)
              + Z.pos M mod 2 ^ s * 2 ^ (ez + 105)) by (rewrite DMod at 1; ring).
    rewrite UT in H.
    assert (1 * 2 ^ (ez + 105) <= Z.pos M mod 2 ^ s * 2 ^ (ez + 105))
      by (apply Z.mul_le_mono_nonneg_r; lia).
    change (2 ^ 105) with (2 ^ 52 * 2 ^ 53) in V. lia.
Qed.

Lemma normal_value_below_one (m : positive) (e : Z) :
  2 ^ 52 <= Z.pos m -> -105 <= e ->
  Z.pos m * 2 ^ (e + 105) <= 2 ^ 105 - 2 ^ 52 ->
  e < -52.
Proof.
  intros Bm He V.
  destruct (Z_lt_le_dec e (-52)) as [L|L]; [exact L|exfalso].
  assert (2 ^ 53 <= 2 ^ (e + 105)) by (apply Z.pow_le_mono_r; lia).
  assert (2 ^ 52 * 2 ^ 53 <= Z.pos m * 2 ^ (e + 105)).
  { apply Z.mul_le_mono_nonneg; lia. }
  change (2 ^ 105) with (2 ^ 52 * 2 ^ 53) in V.
  assert (0 < 2 ^ 52) by reflexivity. lia.
Qed.

(** Two counts that add up to less than [n] cases: their rates, added in
    binary64, stay below one. *)
Lemma binary64_rates_sum_below_one (a b n : Z) :
  0 <= a -> 0 <= b -> a + b < n -> n <= 2 ^ 50 ->
  (of_uint63 (of_Z a) / of_uint63 (of_Z n)
   + of_uint63 (of_Z b) / of_uint63 (of_Z n) <? 1)%float = true.
Proof.
  intros Ha Hb S N.
  assert (N53 : n < 2 ^ 53) by (apply Z.le_lt_trans with (2 ^ 50); [exact N|reflexivity]).
  rewrite ltb_spec, add_spec.
  assert (Z0 : forall k, k = 0 ->
            Prim2SF (of_uint63 (of_Z k) / of_uint63 (of_Z n)) = S754_zero false).
  { intros k ->. rewrite div_spec.
    destruct (of_int_normal n ltac:(lia)) as (mn & en & -> & _). reflexivity. }
  (* each rate is small enough *)
  assert (Small : forall k m e, 0 < k -> k <= n - 1 ->
            Z.pos m * 2 ^ (e + 105) * n <= k * (2 ^ 105 + 2 ^ 54) ->
            Z.pos m * 2 ^ (e + 105) <= 2 ^ 105 - 2 ^ 52).
  { intros k m e K0 K V.
    destruct (Z_le_gt_dec (Z.pos m * 2 ^ (e + 105)) (2 ^ 105 - 2 ^ 52)) as [L|L];
      [exact L|exfalso].
    assert ((2 ^ 105 - 2 ^ 52 + 1) * n <= Z.pos m * 2 ^ (e + 105) * n)
      by (apply Z.mul_le_mono_nonneg_r; lia).
    assert (k * (2 ^ 105 + 2 ^ 54) <= (n - 1) * (2 ^ 105 + 2 ^ 54))
      by (apply Z.mul_le_mono_nonneg_r; [vm_compute; discriminate|lia]).
    revert N H H0 V. generalize (Z.pos m * 2 ^ (e + 105) * n).
    intros. lia. }
  destruct (Z.eq_dec a 0) as [A0|A0]; destruct (Z.eq_dec b 0) as [B0|B0].
  - rewrite (Z0 a A0), (Z0 b B0). vm_compute. reflexivity.
  - rewrite (Z0 a A0).
    destruct (binary64_rate b n ltac:(lia) N53) as (m & e & -> & Bm & He & _ & V).
    change (SF64add (S754_zero false) (S754_finite false m e))
      with (S754_finite false m e).
    apply SFltb_finite_one.
    apply (normal_value_below_one m e); try lia.
    apply (Small b); lia.
  - rewrite (Z0 b B0).
    destruct (binary64_rate a n ltac:(lia) N53) as (m & e & -> & Bm & He & _ & V).
    change (SF64add (S754_finite false m e) (S754_zero false))
      with (S754_finite false m e).
    apply SFltb_finite_one.
    apply (normal_value_below_one m e); try lia.
    apply (Small a); lia.
  - destruct (binary64_rate a n ltac:(lia) N53) as (mx & ex & -> & Bx & Hx & Lx & Vx).
    destruct (binary64_rate b n ltac:(lia) N53) as (my & ey & -> & By & Hy & Ly & Vy).
    apply SFadd_normal_below_one; try assumption; try lia.
    destruct (Z_le_gt_dec (Z.pos mx * 2 ^ (ex + 105) + Z.pos my * 2 ^ (ey + 105))
                (2 ^ 105 - 2 ^ 52)) as [L|L]; [exact L|exfalso].
    assert ((2 ^ 105 - 2 ^ 52 + 1) * n
            <= (Z.pos mx * 2 ^ (ex + 105) + Z.pos my * 2 ^ (ey + 105)) * n)
      by (apply Z.mul_le_mono_nonneg_r; lia).
    rewrite (Z.mul_add_distr_r (Z.pos mx * 2 ^ (ex + 105))) in H.
    assert ((a + b) * (2 ^ 105 + 2 ^ 54) <= (n - 1) * (2 ^ 105 + 2 ^ 54))
      by (apply Z.mul_le_mono_nonneg_r; [vm_compute; discriminate|lia]).
    rewrite (Z.mul_add_distr_r a b) in H0.
    revert N H H0 Vx Vy.
    generalize (Z.pos mx * 2 ^ (ex + 105) * n) (Z.pos my * 2 ^ (ey + 105) * n)
               (a * (2 ^ 105 + 2 ^ 54)) (b * (2 ^ 105 + 2 ^ 54)).
    intros. lia.
Qed.

(** * The statements of the specification *)

(** ** Accuracy *)

Lemma matches_are_true_positives_and_negatives (observed predicted : list Z) :
  forallb Spec.label observed = true -> forallb Spec.label predicted = true ->
  Spec.count (fun o p => p =? o) observed predicted
  = Spec.TP observed predicted + Spec.TN observed predicted.
Proof.
  unfold Spec.TP, Spec.TN.
  revert predicted; induction observed as [|o observed IH]; intros [|p predicted] Lo Lp;
    cbn [Spec.count forallb] in *; try reflexivity.
  apply andb_true_iff in Lo as [Lo1 Lo]. apply andb_true_iff in Lp as [Lp1 Lp].
  rewrite (IH predicted Lo Lp).
  destruct (label_inv _ Lo1); destruct (label_inv _ Lp1); subst o p;
    cbn [Z.eqb Pos.eqb Z.b2z andb]; lia.
Qed.

(** C1. On every valid input the 'accuracy' the function returns is the
    quotient of TP+TN by the number of cases N, as binary64 divides the two
    integers, and lies between 0 and 1 (for fewer than 2^53 cases, the
    sizes at which the binary64 sum of ones that [np.mean] takes is the
    count); in exact arithmetic it is the rational (TP+TN)/N. *)
Theorem accuracy_is_fraction_of_matches (observed predicted : list Z) :
  Spec.valid observed predicted = true ->
  (exists (d : dict float) (a : float),
     calculate_accuracy observed predicted = Returned d
     /\ dict_get "accuracy" d = Some a
     /\ a = Np.true_divide (Spec.TP observed predicted + Spec.TN observed predicted)
                           (Spec.N observed)
     /\ (Spec.N observed < 2 ^ 53 ->
         (0 <=? a)%float = true /\ (a <=? 1)%float = true))
  /\ (exists (d : dict xnum) (q : Q),
        calculate_accuracy observed predicted = Returned d
        /\ dict_get "accuracy" d = Some (XFin q)
        /\ (q == inject_Z (Spec.TP observed predicted + Spec.TN observed predicted)
                 / inject_Z (Spec.N observed))%Q
        /\ (0 <= q <= 1)%Q).
Proof.
  intros V. apply valid_inv in V as (E & NE & Lo & Lp).
  pose proof (matches_are_true_positives_and_negatives _ _ Lo Lp) as M.
  pose proof (count_bounds (fun o p => p =? o) observed predicted) as C.
  rewrite M in C.
  assert (Hn : 0 < Spec.N observed) by (unfold Spec.N; lia).
  split.
  - rewrite (calculate_accuracy_report _ _ E).
    do 2 eexists. split; [reflexivity|].
    report_fields. rewrite M. fold (Spec.N observed).
    split; [reflexivity|]. split; [reflexivity|].
    intros B. apply binary64_rate_in_unit_interval; unfold Spec.N in *; lia.
  - rewrite (calculate_accuracy_report _ _ E).
    do 2 eexists. split; [reflexivity|].
    report_fields. rewrite M. fold (Spec.N observed).
    rewrite exact_rate by exact Hn.
    split; [reflexivity|]. rewrite Qred_correct. split; [reflexivity|].
    assert (Hq : (0 < inject_Z (Spec.N observed))%Q)
      by (rewrite <- (Zlt_Qlt 0); exact Hn).
    split.
    + apply Qle_shift_div_l; [exact Hq|]. rewrite Qmult_0_l.
      rewrite <- (Zle_Qle 0). lia.
    + apply Qle_shift_div_r; [exact Hq|]. rewrite Qmult_1_l.
      rewrite <- Zle_Qle. unfold Spec.N. lia.
Qed.

Lemma accuracy_is_fraction_of_matches_demo :
  exists (d : dict float) (a : float),
    calculate_accuracy demo_observed demo_predicted = Returned d
    /\ dict_get "accuracy" d = Some a
    /\ a = Np.true_divide (Spec.TP demo_observed demo_predicted
                           + Spec.TN demo_observed demo_predicted)
                          (Spec.N demo_observed)
    /\ (0 <=? a)%float = true
    /\ (a <=? 1)%float = true.
Proof.
  destruct (accuracy_is_fraction_of_matches demo_observed demo_predicted eq_refl)
    as [(d & a & D & G & E & B) _].
  exists d, a. repeat split; try assumption; apply B; reflexivity.
Defined.

(** ** The demonstration of the notebook *)

(** C2, as stated, fails in one place: the 'positive_likelihood' the
    function returns on the notebook's input is not the float 4.5. *)
Lemma demo_positive_likelihood_is_not_4_5 :
  ~ (exists d : dict float,
       calculate_accuracy demo_observed demo_predicted = Returned d
       /\ dict_get "positive_likelihood" d = Some 4.5%float).
Proof.
  intros (d & D & G).
  apply (f_equal (fun o => match o with
                           | Returned d' => dict_get "positive_likelihood" d'
                           | Raised _ => None
                           end)) in D.
  cbv beta iota in D. rewrite G in D.
  apply (f_equal (fun v => match v with
                           | Some x => PrimFloat.eqb x 4.5
                           | None => false
                           end)) in D.
  vm_compute in D. discriminate.
Qed.

(** C2, amended. On observed = [0,0,1,0,1,0,1,0,1,0] and
    predicted = [0,0,1,0,1,0,1,0,0,1] the function returns, in binary64,
    accuracy 0.8, precision, recall and f1 0.75, specificity 5/6
    (0.8333333333333334), positive_likelihood 4.500000000000001, which is
    one unit in the last place above 4.5, negative_likelihood 0.3,
    false_positive_rate 0.16666666666666663 and false_negative_rate 0.25;
    these are the numbers the notebook prints to three significant digits.
    The same formulas in exact arithmetic give 4/5, 3/4, 3/4, 3/4, 5/6,
    9/2, 3/10, 1/6 and 1/4. *)
Theorem demo_report :
  (exists d : dict float,
     calculate_accuracy demo_observed demo_predicted = Returned d
     /\ dict_keys d = report_keys
     /\ dict_get "accuracy" d = Some 0x1.999999999999ap-1%float
     /\ dict_get "accuracy" d = Some (8 / 10)%float
     /\ dict_get "precision" d = Some 0.75%float
     /\ dict_get "recall" d = Some 0.75%float
     /\ dict_get "f1" d = Some 0.75%float
     /\ dict_get "specificity" d = Some 0x1.aaaaaaaaaaaabp-1%float
     /\ dict_get "specificity" d = Some (5 / 6)%float
     /\ dict_get "positive_likelihood" d = Some 0x1.2000000000001p+2%float
     /\ dict_get "positive_likelihood" d = Some (PrimFloat.next_up 4.5)
     /\ dict_get "negative_likelihood" d = Some 0x1.3333333333333p-2%float
     /\ dict_get "negative_likelihood" d = Some (3 / 10)%float
     /\ dict_get "false_positive_rate" d = Some 0x1.5555555555554p-3%float
     /\ dict_get "false_negative_rate" d = Some 0.25%float)
  /\ (exists d : dict xnum,
        calculate_accuracy demo_observed demo_predicted = Returned d
        /\ dict_get "accuracy" d = Some (XFin (4 # 5))
        /\ dict_get "precision" d = Some (XFin (3 # 4))
        /\ dict_get "recall" d = Some (XFin (3 # 4))
        /\ dict_get "f1" d = Some (XFin (3 # 4))
        /\ dict_get "specificity" d = Some (XFin (5 # 6))
        /\ dict_get "positive_likelihood" d = Some (XFin (9 # 2))
        /\ dict_get "negative_likelihood" d = Some (XFin (3 # 10))
        /\ dict_get "false_positive_rate" d = Some (XFin (1 # 6))
        /\ dict_get "false_negative_rate" d = Some (XFin (1 # 4))).
Proof.
  split; eexists; (split; [vm_compute; reflexivity|]);
    repeat split; vm_compute; reflexivity.
Qed.

(** ** Zero denominators *)

(** C3, as stated, fails: on the second scenario of the specification, and
    on an [observed] of zeros, the function raises nothing and returns
    not-a-number. *)
Lemma zero_denominator_returns_nan :
  (forall e, calculate_accuracy (F:=float) [1; 1; 1] [0; 0; 0] <> Raised e)
  /\ (exists d, calculate_accuracy (F:=float) [1; 1; 1] [0; 0; 0] = Returned d
                /\ dict_get "precision" d = Some nan
                /\ dict_get "recall" d = Some 0%float)
  /\ (forall e, calculate_accuracy (F:=float) [0; 0; 0] [0; 1; 0] <> Raised e)
  /\ (exists d, calculate_accuracy (F:=float) [0; 0; 0] [0; 1; 0] = Returned d
                /\ dict_get "recall" d = Some nan
                /\ dict_get "precision" d = Some 0%float).
Proof.
  split; [|split; [|split]].
  - intros e. vm_compute. discriminate.
  - eexists. split; [vm_compute; reflexivity|]. split; vm_compute; reflexivity.
  - intros e. vm_compute. discriminate.
  - eexists. split; [vm_compute; reflexivity|]. split; vm_compute; reflexivity.
Qed.

(** C3, amended. The function has no error for a zero denominator.  On
    equal-length inputs it returns the full report, where, in binary64, the
    affected values are not-a-number: 'recall', 'sensitivity',
    'true_positive_rate', 'positive_predictive_value', 'f1', both
    likelihoods and 'false_negative_rate' when no element of [observed] is
    1; 'precision' and 'f1' when the denominator TP+FP of the precision is
    zero. *)
Theorem zero_denominators_give_nan (observed predicted : list Z) :
  length observed = length predicted ->
  exists (d : dict float) (tp fp : list bool),
    calculate_accuracy observed predicted = Returned d
    /\ dict_keys d = report_keys
    /\ true_positives observed predicted = Returned tp
    /\ false_positives observed predicted = Returned fp
    /\ (Np.sum (observed_positives observed) = 0 ->
        dict_get "recall" d = Some nan
        /\ dict_get "sensitivity" d = Some nan
        /\ dict_get "true_positive_rate" d = Some nan
        /\ dict_get "positive_predictive_value" d = Some nan
        /\ dict_get "f1" d = Some nan
        /\ dict_get "positive_likelihood" d = Some nan
        /\ dict_get "negative_likelihood" d = Some nan
        /\ dict_get "false_negative_rate" d = Some nan)
    /\ (Np.sum tp + Np.sum fp = 0 ->
        dict_get "precision" d = Some nan
        /\ dict_get "f1" d = Some nan).
Proof.
  intros E.
  destruct (masks_same_length _ _ E) as (T1 & T2 & _).
  rewrite (calculate_accuracy_report _ _ E), T1, T2.
  do 3 eexists. do 4 (split; [reflexivity|]).
  rewrite !sum_zip_with.
  pose proof (true_positives_le_observed observed predicted) as LE.
  pose proof (count_bounds (fun o p => (p =? 1) && (o =? 1)) observed predicted) as B1.
  pose proof (count_bounds (fun o p => (p =? 1) && negb (o =? 1)) observed predicted) as B2.
  report_fields.
  split.
  - intros P0. rewrite P0 in *.
    replace (Spec.count (fun o p => (p =? 1) && (o =? 1)) observed predicted)
      with 0 by lia.
    rewrite zero_over_zero. cbn [add sub mul div binary64].
    rewrite ?nan_mul_r, ?nan_add_r, ?nan_div_l, ?nan_mul_r, ?nan_sub_r, ?nan_div_l.
    repeat split; reflexivity.
  - intros D0.
    replace (Spec.count (fun o p => (p =? 1) && (o =? 1)) observed predicted)
      with 0 by lia.
    replace (Spec.count (fun o p => (p =? 1) && negb (o =? 1)) observed predicted)
      with 0 by lia.
    change (0 + 0) with 0. rewrite zero_over_zero. cbn [add sub mul div binary64].
    rewrite ?nan_mul_l, ?nan_add_l, ?nan_div_l, ?nan_mul_r.
    repeat split; reflexivity.
Qed.

Lemma zero_denominators_give_nan_demo :
  exists d : dict float,
    calculate_accuracy [0; 0; 0] [0; 0; 0] = Returned d
    /\ dict_get "precision" d = Some nan
    /\ dict_get "recall" d = Some nan
    /\ dict_get "f1" d = Some nan
    /\ dict_get "positive_likelihood" d = Some nan
    /\ dict_get "negative_likelihood" d = Some nan
    /\ dict_get "false_negative_rate" d = Some nan.
Proof.
  destruct (zero_denominators_give_nan [0; 0; 0] [0; 0; 0] eq_refl)
    as (d & tp & fp & D & _ & T & U & P0 & D0).
  injection T as <-. injection U as <-.
  destruct (P0 eq_refl) as (R & _ & _ & _ & F1 & PL & NL & FN).
  destruct (D0 eq_refl) as (PR & _).
  exists d. repeat split; assumption.
Defined.

(** ** Lengths that differ, elements that are no labels *)

(** C4, as the specification states it, fails: sequences of lengths 1 and 2
    differ in length, and the function returns. *)
Lemma length_one_is_broadcast_not_refused :
  length [1] <> length [1; 0]
  /\ (forall e, calculate_accuracy (F:=float) [1] [1; 0] <> Raised e)
  /\ exists d, calculate_accuracy (F:=float) [1] [1; 0] = Returned d
               /\ dict_get "accuracy" d = Some 0.5%float.
Proof.
  split; [discriminate|]. split.
  - intros e. vm_compute. discriminate.
  - eexists. split; vm_compute; reflexivity.
Qed.

(** C4, amended. Lengths that differ and are both other than 1 make the
    function raise NumPy's broadcasting error, at the first conjunction of
    masks and before any number is computed; when the lengths differ and
    one of them is 1, that sequence is stretched over the other and the
    full report is returned. *)
Theorem length_mismatch_raises_unless_broadcast {F : Type} `{Arith F}
    (observed predicted : list Z) :
  length observed <> length predicted ->
  (length observed <> 1%nat -> length predicted <> 1%nat ->
     true_positives observed predicted
     = Raised (ValueError_broadcast (length predicted) (length observed))
     /\ calculate_accuracy (F:=F) observed predicted
        = Raised (ValueError_broadcast (length predicted) (length observed)))
  /\ (length observed = 1%nat \/ length predicted = 1%nat ->
      exists d : dict F,
        calculate_accuracy observed predicted = Returned d
        /\ dict_keys d = report_keys).
Proof.
  intros E. split.
  - intros Ho Hp. now apply calculate_accuracy_raises.
  - intros E1. apply calculate_accuracy_returns. tauto.
Qed.

Lemma length_mismatch_raises_unless_broadcast_demo :
  (true_positives [1; 1] [0; 1; 0] = Raised (ValueError_broadcast 3 2)
   /\ calculate_accuracy (F:=float) [1; 1] [0; 1; 0]
      = Raised (ValueError_broadcast 3 2))
  /\ exists d : dict float,
       calculate_accuracy [1] [0; 1; 0] = Returned d
       /\ dict_keys d = report_keys.
Proof.
  split.
  - apply (length_mismatch_raises_unless_broadcast [1; 1] [0; 1; 0]);
      discriminate.
  - apply (length_mismatch_raises_unless_broadcast [1] [0; 1; 0]);
      [discriminate|left; reflexivity].
Defined.

(** C5, as the specification states it, fails: 2 is no label, and the
    function returns a report. *)
Lemma invalid_label_is_not_refused :
  Spec.label 2 = false
  /\ (forall e, calculate_accuracy (F:=float) [2; 1] [1; 1] <> Raised e)
  /\ exists d, calculate_accuracy (F:=float) [2; 1] [1; 1] = Returned d
               /\ dict_keys d = report_keys.
Proof.
  split; [reflexivity|]. split.
  - intros e. vm_compute. discriminate.
  - eexists. split; vm_compute; reflexivity.
Qed.

(** C5, amended. The function does not look at what the elements are: when
    some element is neither 0 nor 1, sequences of the same length still get
    the full report, and the only error the function can raise is the
    broadcasting error of two lengths that differ. *)
Theorem invalid_label_never_raises {F : Type} `{Arith F}
    (observed predicted : list Z) :
  existsb (fun x => negb (Spec.label x)) (observed ++ predicted) = true ->
  (length observed = length predicted ->
     exists d : dict F,
       calculate_accuracy observed predicted = Returned d
       /\ dict_keys d = report_keys)
  /\ (forall e, calculate_accuracy (F:=F) observed predicted = Raised e ->
        length observed <> length predicted
        /\ e = ValueError_broadcast (length predicted) (length observed)).
Proof.
  intros _. split.
  - intros E. apply calculate_accuracy_returns. tauto.
  - intros e R.
    destruct (Nat.eq_dec (length observed) (length predicted)) as [E|E].
    { destruct (calculate_accuracy_returns (F:=F) observed predicted) as (d & D & _);
        [tauto|congruence]. }
    split; [exact E|].
    destruct (Nat.eq_dec (length observed) 1) as [Ho|Ho].
    { destruct (calculate_accuracy_returns (F:=F) observed predicted) as (d & D & _);
        [tauto|congruence]. }
    destruct (Nat.eq_dec (length predicted) 1) as [Hp|Hp].
    { destruct (calculate_accuracy_returns (F:=F) observed predicted) as (d & D & _);
        [tauto|congruence]. }
    destruct (calculate_accuracy_raises (F:=F) observed predicted E Ho Hp) as [_ R'].
    congruence.
Qed.

Lemma invalid_label_never_raises_demo :
  exists d : dict float,
    calculate_accuracy [2; 1] [1; 1] = Returned d
    /\ dict_keys d = report_keys.
Proof.
  apply (invalid_label_never_raises [2; 1] [1; 1]); reflexivity.
Defined.

(** ** Names that share one value *)

(** C8. On every valid input the report holds one value under 'recall',
    'sensitivity' and 'true_positive_rate', and one value under
    'specificity' and 'true_negative_rate'; whatever the arithmetic. *)
Theorem recall_sensitivity_tpr_identical {F : Type} `{Arith F}
    (observed predicted : list Z) :
  Spec.valid observed predicted = true ->
  exists (d : dict F) (r s : F),
    calculate_accuracy observed predicted = Returned d
    /\ dict_get "recall" d = Some r
    /\ dict_get "sensitivity" d = Some r
    /\ dict_get "true_positive_rate" d = Some r
    /\ dict_get "specificity" d = Some s
    /\ dict_get "true_negative_rate" d = Some s.
Proof.
  intros V. apply valid_inv in V as (E & _).
  rewrite (calculate_accuracy_report _ _ E).
  do 3 eexists. split; [reflexivity|]. cbn. repeat split; reflexivity.
Qed.

Lemma recall_sensitivity_tpr_identical_demo :
  exists (d : dict float) (r s : float),
    calculate_accuracy demo_observed demo_predicted = Returned d
    /\ dict_get "recall" d = Some r
    /\ dict_get "sensitivity" d = Some r
    /\ dict_get "true_positive_rate" d = Some r
    /\ dict_get "specificity" d = Some s
    /\ dict_get "true_negative_rate" d = Some s.
Proof.
  apply (recall_sensitivity_tpr_identical demo_observed demo_predicted).
  reflexivity.
Defined.

(** In any arithmetic the two predictive values are stored from the same
    quotients of counts as 'recall' and 'specificity'. *)
Lemma predictive_values_reuse_recall_and_specificity {F : Type} `{Arith F}
    (observed predicted : list Z) :
  Spec.valid observed predicted = true ->
  exists d : dict F,
    calculate_accuracy observed predicted = Returned d
    /\ dict_get "positive_predictive_value" d
       = Some (Np.true_divide (Spec.TP observed predicted) (Spec.P observed))
    /\ dict_get "recall" d = dict_get "positive_predictive_value" d
    /\ dict_get "negative_predictive_value" d
       = Some (Np.true_divide (Spec.TN observed predicted) (Spec.N_ observed))
    /\ dict_get "specificity" d = dict_get "negative_predictive_value" d.
Proof.
  intros V. apply valid_inv in V as (E & _).
  rewrite (calculate_accuracy_report _ _ E).
  eexists. split; [reflexivity|]. cbn.
  unfold observed_positives, observed_negatives. rewrite !sum_eq_scalar.
  repeat split; reflexivity.
Qed.

Lemma predictive_values_reuse_recall_and_specificity_demo :
  exists d : dict float,
    calculate_accuracy demo_observed demo_predicted = Returned d
    /\ dict_get "positive_predictive_value" d
       = Some (Np.true_divide (Spec.TP demo_observed demo_predicted) (Spec.P demo_observed))
    /\ dict_get "recall" d = dict_get "positive_predictive_value" d
    /\ dict_get "negative_predictive_value" d
       = Some (Np.true_divide (Spec.TN demo_observed demo_predicted) (Spec.N_ demo_observed))
    /\ dict_get "specificity" d = dict_get "negative_predictive_value" d.
Proof.
  apply (predictive_values_reuse_recall_and_specificity demo_observed demo_predicted).
  reflexivity.
Defined.

(** The docstring of the function describes 'positive_predictive_value'
    as the chance of a true positive if the test is positive, which is the
    precision; the value stored is the recall.  Here the two differ. *)
Example positive_predictive_value_is_recall_not_precision :
  exists d : dict xnum,
    calculate_accuracy [1; 1; 0; 0] [1; 0; 1; 1] = Returned d
    /\ dict_get "precision" d = Some (XFin (1 # 3))
    /\ dict_get "recall" d = Some (XFin (1 # 2))
    /\ dict_get "positive_predictive_value" d = Some (XFin (1 # 2)).
Proof. eexists. repeat split; reflexivity. Qed.

(** ** The false-negative mask *)

Lemma zip_with_negated_negatives (observed predicted : list Z) :
  forallb Spec.label observed = true ->
  Np.zip_with andb (map (fun x => x =? 0) predicted)
                   (map negb (map (fun x => x =? 0) observed))
  = Np.zip_with (fun o p => (p =? 0) && (o =? 1)) observed predicted.
Proof.
  revert predicted; induction observed as [|o observed IH]; intros [|p predicted] L;
    simpl in *; try reflexivity.
  apply andb_true_iff in L as [Lo L].
  rewrite (IH predicted L). f_equal.
  destruct (label_inv _ Lo); subst o; reflexivity.
Qed.

(** C7. For equal-length sequences of labels, the mask the function
    computes as (predicted negatives) and not (observed negatives) is,
    element by element, the conventional one: predicted 0 and observed 1. *)
Theorem false_negatives_mask_is_conventional (observed predicted : list Z) :
  length observed = length predicted ->
  forallb Spec.label observed = true ->
  forallb Spec.label predicted = true ->
  false_negatives observed predicted
  = Returned (Spec.false_negatives observed predicted).
Proof.
  intros E Lo _.
  unfold false_negatives, Np.band, predicted_negatives, observed_negatives,
    Np.eq_scalar.
  rewrite mask_eq_1, mask_eq_0.
  rewrite broadcast2_same_length by (rewrite !length_map; congruence).
  unfold Spec.false_negatives. now rewrite zip_with_negated_negatives.
Qed.

Lemma false_negatives_mask_is_conventional_demo :
  false_negatives demo_observed demo_predicted
  = Returned (Spec.false_negatives demo_observed demo_predicted).
Proof.
  apply false_negatives_mask_is_conventional; reflexivity.
Defined.

(** ** The harmonic mean *)

(** C9, as stated, fails in binary64: on this valid input precision and
    recall are both 0.8, and the 'f1' the function returns,
    0.8000000000000002, is greater than both. *)
Lemma f1_above_precision_and_recall :
  Spec.valid [1; 1; 1; 1; 1; 0; 0] [1; 1; 1; 1; 0; 1; 0] = true
  /\ exists (d : dict float) (p r f : float),
       calculate_accuracy [1; 1; 1; 1; 1; 0; 0] [1; 1; 1; 1; 0; 1; 0] = Returned d
       /\ dict_get "precision" d = Some p
       /\ dict_get "recall" d = Some r
       /\ dict_get "f1" d = Some f
       /\ p = (4 / 5)%float /\ r = (4 / 5)%float
       /\ f = PrimFloat.next_up (4 / 5)
       /\ (0 <? p)%float = true /\ (0 <? r)%float = true
       /\ (p <? f)%float = true /\ (r <? f)%float = true.
Proof.
  split; [reflexivity|].
  do 4 eexists. split; [vm_compute; reflexivity|].
  do 3 (split; [vm_compute; reflexivity|]).
  repeat split; vm_compute; reflexivity.
Qed.

Lemma harmonic_mean_between (p r : Q) :
  (0 < p)%Q -> (0 < r)%Q ->
  (Qmin p r <= 2 * (p * r / (p + r)) <= Qmax p r)%Q.
Proof.
  intros Hp Hr.
  assert (Hs : (0 < p + r)%Q) by lra.
  assert (E : (2 * (p * r / (p + r)) == 2 * p * r / (p + r))%Q) by (field; lra).
  rewrite E. split.
  - apply Qle_shift_div_l; [exact Hs|].
    destruct (Q.min_spec p r) as [[L ->]|[L ->]]; nra.
  - apply Qle_shift_div_r; [exact Hs|].
    destruct (Q.max_spec p r) as [[L ->]|[L ->]]; nra.
Qed.

(** In exact arithmetic, on every valid input where precision and recall
    are both defined and strictly positive, 'f1' lies between the two. *)
Lemma f1_between_precision_and_recall_exact
    (observed predicted : list Z) (d : dict xnum) (p r : Q) :
  Spec.valid observed predicted = true ->
  calculate_accuracy observed predicted = Returned d ->
  dict_get "precision" d = Some (XFin p) ->
  dict_get "recall" d = Some (XFin r) ->
  (0 < p)%Q -> (0 < r)%Q ->
  exists f : Q,
    dict_get "f1" d = Some (XFin f)
    /\ (f == 2 * (p * r / (p + r)))%Q
    /\ (Qmin p r <= f <= Qmax p r)%Q.
Proof.
  intros V D Gp Gr Hp Hr. apply valid_inv in V as (E & _).
  rewrite (calculate_accuracy_report _ _ E) in D.
  apply (f_equal (fun o => match o with Returned d' => d' | Raised _ => [] end)) in D.
  cbv beta iota in D. subst d.
  cbn [report dict_get String.eqb Ascii.eqb Bool.eqb] in Gp, Gr |- *.
  apply (f_equal (fun v => match v with Some x => x | None => XNaN end)) in Gp, Gr.
  cbv beta iota in Gp, Gr. rewrite Gp, Gr.
  cbn [add sub mul div of_int exact xmul xadd xdiv].
  assert (Hs : (0 < p + r)%Q) by lra.
  assert (Z0 : Qzerob (Qred (p + r)) = false).
  { unfold Qzerob. apply Z.eqb_neq. intros N0.
    assert (Qred (p + r) == 0)%Q by (unfold Qeq; rewrite N0; reflexivity).
    rewrite Qred_correct in H. lra. }
  rewrite Z0. eexists. split; [reflexivity|].
  assert (Ef : (Qred (inject_Z 2 * Qred (Qred (p * r) / Qred (p + r)))
                == 2 * (p * r / (p + r)))%Q).
  { rewrite !Qred_correct. reflexivity. }
  split; [exact Ef|]. rewrite Ef. now apply harmonic_mean_between.
Qed.

Lemma f1_between_precision_and_recall_exact_demo :
  exists d : dict xnum,
    calculate_accuracy [1; 1; 0; 0] [1; 0; 1; 1] = Returned d
    /\ dict_get "precision" d = Some (XFin (1 # 3))
    /\ dict_get "recall" d = Some (XFin (1 # 2))
    /\ exists f : Q,
         dict_get "f1" d = Some (XFin f)
         /\ (f == 2 * ((1 # 3) * (1 # 2) / ((1 # 3) + (1 # 2))))%Q
         /\ (Qmin (1 # 3) (1 # 2) <= f <= Qmax (1 # 3) (1 # 2))%Q.
Proof.
  eexists. split; [reflexivity|]. split; [reflexivity|]. split; [reflexivity|].
  apply (f1_between_precision_and_recall_exact [1; 1; 0; 0] [1; 0; 1; 1]);
    reflexivity.
Defined.

(** ** Labels outside 0 and 1 *)

(** C10, as stated, fails on its last part: with the 2 in [observed] and
    labels in [predicted], each case of this input lies in exactly one of
    the four masks, and the four counts add up to the number of cases. *)
Lemma invalid_observed_still_partitioned :
  length [2; 1; 0] = length [1; 1; 0]
  /\ Spec.label 2 = false
  /\ true_positives [2; 1; 0] [1; 1; 0] = Returned [false; true; false]
  /\ false_positives [2; 1; 0] [1; 1; 0] = Returned [true; false; false]
  /\ true_negatives [2; 1; 0] [1; 1; 0] = Returned [false; false; true]
  /\ false_negatives [2; 1; 0] [1; 1; 0] = Returned [false; false; false]
  /\ Np.sum [false; true; false] + Np.sum [true; false; false]
     + Np.sum [false; false; true] + Np.sum [false; false; false]
     = Spec.N [2; 1; 0].
Proof. repeat split; reflexivity. Qed.

(** C10, amended. Equal-length sequences with an element outside 0 and 1
    get the full report, no error.  Such an element is in neither the
    positive nor the negative mask of its sequence: when it occurs in
    [observed], the observed positives and the observed negatives number
    fewer than the cases, and the returned 'observed_positive_rate' plus
    'observed_negative_rate' is less than 1, both as binary64 adds the two
    returned values (for at most 2^50 cases) and in exact arithmetic.  The
    four masks TP, FP, TN and FN cover the cases whose predicted value is
    0 or 1: their counts add up to the number of cases if and only if no
    element of [predicted] is outside 0 and 1; an element of [observed]
    outside 0 and 1 is counted as a false positive or a false negative. *)
Theorem invalid_labels_miss_both_label_masks (observed predicted : list Z) :
  length observed = length predicted ->
  existsb (fun x => negb (Spec.label x)) (observed ++ predicted) = true ->
  (forall (a : list Z) (i : nat) (x : Z),
     nth_error a i = Some x -> Spec.label x = false ->
     nth_error (Np.eq_scalar a 1) i = Some false
     /\ nth_error (Np.eq_scalar a 0) i = Some false)
  /\ (forall (F : Type) (A : Arith F),
     exists d : dict F,
       calculate_accuracy observed predicted = Returned d
       /\ dict_keys d = report_keys
       /\ dict_get "observed_positive_rate" d
          = Some (div (of_int (Spec.P observed)) (of_int (Spec.N observed)))
       /\ dict_get "observed_negative_rate" d
          = Some (div (of_int (Spec.N_ observed)) (of_int (Spec.N observed))))
  /\ (existsb (fun x => negb (Spec.label x)) observed = true ->
      Spec.P observed + Spec.N_ observed < Spec.N observed
      /\ (Spec.N observed <= 2 ^ 50 ->
          exists (d : dict float) (x y : float),
            calculate_accuracy observed predicted = Returned d
            /\ dict_get "observed_positive_rate" d = Some x
            /\ dict_get "observed_negative_rate" d = Some y
            /\ (x + y <? 1)%float = true)
      /\ exists (d : dict xnum) (a b : Q),
           calculate_accuracy observed predicted = Returned d
           /\ dict_get "observed_positive_rate" d = Some (XFin a)
           /\ dict_get "observed_negative_rate" d = Some (XFin b)
           /\ (a + b < 1)%Q)
  /\ exists tp fp tn fn : list bool,
       true_positives observed predicted = Returned tp
       /\ false_positives observed predicted = Returned fp
       /\ true_negatives observed predicted = Returned tn
       /\ false_negatives observed predicted = Returned fn
       /\ fp = Np.zip_with (fun o p => (p =? 1) && negb (o =? 1)) observed predicted
       /\ fn = Np.zip_with (fun o p => (p =? 0) && negb (o =? 0)) observed predicted
       /\ Np.sum tp + Np.sum fp + Np.sum tn + Np.sum fn
          = Spec.count (fun _ p => Spec.label p) observed predicted
       /\ (Np.sum tp + Np.sum fp + Np.sum tn + Np.sum fn = Spec.N observed
           <-> forallb Spec.label predicted = true).
Proof.
  intros E _. split; [|split; [|split]].
  - intros a i x Hx L. unfold Np.eq_scalar.
    rewrite !(map_nth_error _ _ _ Hx).
    unfold Spec.label in L. apply orb_false_iff in L as [-> ->]. now split.
  - intros F A. rewrite (calculate_accuracy_report _ _ E).
    eexists. split; [reflexivity|]. split; [reflexivity|]. cbn.
    unfold observed_positives, observed_negatives. rewrite !sum_eq_scalar.
    split; reflexivity.
  - intros X. pose proof (observed_counts_miss_invalid _ X) as L.
    split; [exact L|].
    pose proof (count_bounds (fun o _ => o =? 1) observed observed) as BP.
    pose proof (count_bounds (fun o _ => o =? 0) observed observed) as BN.
    fold (Spec.P observed) in BP. fold (Spec.N_ observed) in BN.
    assert (Hn : 0 < Spec.N observed) by lia.
    split.
    { intros B. rewrite (calculate_accuracy_report _ _ E).
      do 3 eexists. split; [reflexivity|].
      report_fields.
      unfold observed_positives, observed_negatives. rewrite !sum_eq_scalar.
      fold (Spec.P observed) (Spec.N_ observed) (Spec.N observed).
      split; [reflexivity|]. split; [reflexivity|].
      apply binary64_rates_sum_below_one; lia. }
    rewrite (calculate_accuracy_report _ _ E).
    do 3 eexists. split; [reflexivity|].
    report_fields.
    unfold observed_positives, observed_negatives. rewrite !sum_eq_scalar.
    fold (Spec.P observed) (Spec.N_ observed) (Spec.N observed).
    rewrite !exact_rate by exact Hn.
    split; [reflexivity|]. split; [reflexivity|].
    rewrite !Qred_correct.
    assert (Hq : (0 < inject_Z (Spec.N observed))%Q)
      by (rewrite <- (Zlt_Qlt 0); exact Hn).
    assert (Hs : (inject_Z (Spec.P observed) + inject_Z (Spec.N_ observed)
                  < inject_Z (Spec.N observed))%Q)
      by (rewrite <- inject_Z_plus, <- Zlt_Qlt; exact L).
    setoid_replace (inject_Z (Spec.P observed) / inject_Z (Spec.N observed)
                    + inject_Z (Spec.N_ observed) / inject_Z (Spec.N observed))%Q
      with ((inject_Z (Spec.P observed) + inject_Z (Spec.N_ observed))
            / inject_Z (Spec.N observed))%Q
      by (field; intros Z0; rewrite Z0 in Hq; discriminate).
    apply Qlt_shift_div_r; [exact Hq|]. now rewrite Qmult_1_l.
  - destruct (masks_same_length _ _ E) as (T1 & T2 & T3 & T4).
    do 4 eexists. repeat (split; [eassumption|]).
    split; [reflexivity|]. split; [reflexivity|].
    rewrite !sum_zip_with, (four_counts_cover_predicted_labels _ _ E).
    split; [reflexivity|]. now apply count_full_iff.
Qed.

Lemma invalid_labels_miss_both_label_masks_demo :
  Spec.P [2; 1; 0] + Spec.N_ [2; 1; 0] < Spec.N [2; 1; 0]
  /\ (exists (d : dict float) (x y : float),
        calculate_accuracy [2; 1; 0] [2; 1; 0] = Returned d
        /\ dict_get "observed_positive_rate" d = Some x
        /\ dict_get "observed_negative_rate" d = Some y
        /\ (x + y <? 1)%float = true)
  /\ exists tp fp tn fn : list bool,
       true_positives [2; 1; 0] [2; 1; 0] = Returned tp
       /\ false_positives [2; 1; 0] [2; 1; 0] = Returned fp
       /\ true_negatives [2; 1; 0] [2; 1; 0] = Returned tn
       /\ false_negatives [2; 1; 0] [2; 1; 0] = Returned fn
       /\ Np.sum tp + Np.sum fp + Np.sum tn + Np.sum fn = 2.
Proof.
  destruct (invalid_labels_miss_both_label_masks [2; 1; 0] [2; 1; 0] eq_refl eq_refl)
    as (_ & _ & O & tp & fp & tn & fn & T1 & T2 & T3 & T4 & _ & _ & S & _).
  destruct (O eq_refl) as (L & B & _).
  split; [exact L|]. split.
  - apply B. discriminate.
  - exists tp, fp, tn, fn. repeat (split; [assumption|]). exact S.
Defined.

(** * More of the function

    Properties of [calculate_accuracy] read off its code: the keys of the
    report, the margins of the confusion table its masks count, what the
    function does not distinguish, and the values at the edges. *)

(** ** The keys of the report *)

Lemma dict_get_None_iff {V : Type} (k : string) (d : dict V) :
  dict_get k d = None <-> ~ In k (dict_keys d).
Proof.
  induction d as [|[k' v] d IH]; cbn [dict_get dict_keys map fst In].
  - tauto.
  - destruct (String.eqb_spec k k') as [->|NE].
    + split; [discriminate|]. intros N. exfalso. apply N. now left.
    + rewrite IH. unfold dict_keys. split.
      * intros N [E|I]; [congruence|tauto].
      * intros N I. apply N. now right.
Qed.

Lemma report_keys_NoDup : NoDup report_keys.
Proof.
  unfold report_keys.
  repeat (apply NoDup_cons; [cbn [In]; intuition discriminate|]).
  apply NoDup_nil.
Qed.

(** X1. Whenever the two lengths broadcast the function returns a
    dictionary of exactly eighteen distinct keys, stored in the order of
    [report_keys]; a look-up fails (Python's [KeyError]) exactly for the
    strings that are not among them. *)
Theorem report_has_exactly_the_eighteen_keys {F : Type} `{Arith F}
    (observed predicted : list Z) :
  length observed = length predicted
  \/ length observed = 1%nat \/ length predicted = 1%nat ->
  exists d : dict F,
    calculate_accuracy observed predicted = Returned d
    /\ dict_keys d = report_keys
    /\ length d = 18%nat
    /\ NoDup (dict_keys d)
    /\ forall k : string, dict_get k d = None <-> ~ In k report_keys.
Proof.
  intros E. destruct (calculate_accuracy_returns observed predicted E) as (d & D & K).
  exists d. split; [exact D|]. split; [exact K|]. split; [|split].
  - unfold dict_keys in K. rewrite <- (length_map fst), K. reflexivity.
  - rewrite K. apply report_keys_NoDup.
  - intros k. rewrite <- K. apply dict_get_None_iff.
Qed.

Lemma report_has_exactly_the_eighteen_keys_demo :
  exists d : dict float,
    calculate_accuracy [1; 0; 2] [1] = Returned d
    /\ dict_keys d = report_keys
    /\ length d = 18%nat
    /\ NoDup (dict_keys d)
    /\ forall k : string, dict_get k d = None <-> ~ In k report_keys.
Proof.
  apply (report_has_exactly_the_eighteen_keys [1; 0; 2] [1]).
  right; right; reflexivity.
Defined.

(** ** The margins of the confusion table *)

Lemma count_pointwise (c c' : Z -> Z -> bool) (observed predicted : list Z) :
  (forall o p, c o p = c' o p) ->
  Spec.count c observed predicted = Spec.count c' observed predicted.
Proof.
  intros E. revert predicted; induction observed as [|o observed IH];
    intros [|p predicted]; cbn [Spec.count]; try reflexivity.
  now rewrite E, IH.
Qed.

Lemma count_split (c d : Z -> Z -> bool) (observed predicted : list Z) :
  Spec.count (fun o p => c o p && d o p) observed predicted
  + Spec.count (fun o p => c o p && negb (d o p)) observed predicted
  = Spec.count c observed predicted.
Proof.
  revert predicted; induction observed as [|o observed IH];
    intros [|p predicted]; cbn [Spec.count]; try reflexivity.
  specialize (IH predicted).
  destruct (c o p); destruct (d o p); cbn [Z.b2z andb negb]; lia.
Qed.

Lemma count_swap (c : Z -> Z -> bool) (observed predicted : list Z) :
  Spec.count c observed predicted
  = Spec.count (fun o p => c p o) predicted observed.
Proof.
  revert predicted; induction observed as [|o observed IH];
    intros [|p predicted]; cbn [Spec.count]; try reflexivity.
  now rewrite IH.
Qed.

Lemma count_map (c : Z -> Z -> bool) (f g : Z -> Z) (observed predicted : list Z) :
  Spec.count c (map f observed) (map g predicted)
  = Spec.count (fun o p => c (f o) (g p)) observed predicted.
Proof.
  revert predicted; induction observed as [|o observed IH];
    intros [|p predicted]; cbn [Spec.count map]; try reflexivity.
  now rewrite IH.
Qed.

Lemma count_predicted_only (c : Z -> bool) (observed predicted : list Z) :
  length observed = length predicted ->
  Spec.count (fun _ p => c p) observed predicted = Np.sum (map c predicted).
Proof.
  revert predicted; induction observed as [|o observed IH];
    intros [|p predicted] E; cbn [Spec.count map Np.sum length] in *;
    try discriminate; try reflexivity.
  now rewrite IH by congruence.
Qed.

Lemma count_observed_only (c : Z -> bool) (observed predicted : list Z) :
  length observed = length predicted ->
  Spec.count (fun o _ => c o) observed predicted = Np.sum (map c observed).
Proof.
  intros E. rewrite count_swap. now apply count_predicted_only.
Qed.

(** The predicted margins hold for every pair of equal lengths: TP+FP is
    the number of predicted positives, TN+FN of predicted negatives. *)
Lemma predicted_margins (observed predicted : list Z) :
  length observed = length predicted ->
  Spec.count (fun o p => (p =? 1) && (o =? 1)) observed predicted
  + Spec.count (fun o p => (p =? 1) && negb (o =? 1)) observed predicted
  = Np.sum (predicted_positives predicted)
  /\ Spec.count (fun o p => (p =? 0) && (o =? 0)) observed predicted
     + Spec.count (fun o p => (p =? 0) && negb (o =? 0)) observed predicted
     = Np.sum (predicted_negatives predicted).
Proof.
  intros E. split.
  - rewrite (count_split (fun _ p => p =? 1) (fun o _ => o =? 1)).
    now apply count_predicted_only.
  - rewrite (count_split (fun _ p => p =? 0) (fun o _ => o =? 0)).
    now apply count_predicted_only.
Qed.

(** The observed margins need labels: TP+FN is the number of observed
    positives, TN+FP of observed negatives. *)
Lemma observed_margins (observed predicted : list Z) :
  length observed = length predicted ->
  forallb Spec.label observed = true -> forallb Spec.label predicted = true ->
  Spec.count (fun o p => (p =? 1) && (o =? 1)) observed predicted
  + Spec.count (fun o p => (p =? 0) && negb (o =? 0)) observed predicted
  = Np.sum (observed_positives observed)
  /\ Spec.count (fun o p => (p =? 0) && (o =? 0)) observed predicted
     + Spec.count (fun o p => (p =? 1) && negb (o =? 1)) observed predicted
     = Np.sum (observed_negatives observed)
  /\ Np.sum (observed_positives observed) + Np.sum (observed_negatives observed)
     = Z.of_nat (length observed).
Proof.
  unfold observed_positives, observed_negatives, Np.eq_scalar.
  revert predicted; induction observed as [|o observed IH];
    intros [|p predicted] E Lo Lp; cbn [Spec.count map Np.sum length forallb] in *;
    try discriminate; try (repeat split; reflexivity).
  apply andb_true_iff in Lo as [Lo1 Lo]. apply andb_true_iff in Lp as [Lp1 Lp].
  destruct (IH predicted ltac:(congruence) Lo Lp) as (I1 & I2 & I3).
  rewrite Nat2Z.inj_succ.
  destruct (label_inv _ Lo1); destruct (label_inv _ Lp1); subst o p;
    cbn [Z.eqb Pos.eqb Z.b2z andb negb]; lia.
Qed.

(** X2. The four masks count a two-by-two table.  For every pair of equal
    lengths its predicted margins are the counts of the predicted masks:
    TP+FP is the number of predicted positives (the denominator of the
    precision) and TN+FN the number of predicted negatives.  When all
    elements are labels its observed margins are the counts of the
    observed masks, TP+FN and TN+FP, the four counts add up to the number
    of cases, and so do the observed positives and negatives. *)
Theorem confusion_table_margins (observed predicted : list Z) :
  length observed = length predicted ->
  exists tp fp tn fn : list bool,
    true_positives observed predicted = Returned tp
    /\ false_positives observed predicted = Returned fp
    /\ true_negatives observed predicted = Returned tn
    /\ false_negatives observed predicted = Returned fn
    /\ Np.sum tp + Np.sum fp = Np.sum (predicted_positives predicted)
    /\ Np.sum tn + Np.sum fn = Np.sum (predicted_negatives predicted)
    /\ (forallb Spec.label observed = true ->
        forallb Spec.label predicted = true ->
        Np.sum tp + Np.sum fn = Np.sum (observed_positives observed)
        /\ Np.sum tn + Np.sum fp = Np.sum (observed_negatives observed)
        /\ Np.sum tp + Np.sum fp + Np.sum tn + Np.sum fn
           = Z.of_nat (length observed)
        /\ Np.sum (observed_positives observed)
           + Np.sum (observed_negatives observed)
           = Z.of_nat (length observed)).
Proof.
  intros E. destruct (masks_same_length _ _ E) as (T1 & T2 & T3 & T4).
  do 4 eexists. repeat (split; [eassumption|]).
  rewrite !sum_zip_with.
  destruct (predicted_margins _ _ E) as (P1 & P2).
  split; [exact P1|]. split; [exact P2|].
  intros Lo Lp. destruct (observed_margins _ _ E Lo Lp) as (O1 & O2 & O3).
  repeat split; lia.
Qed.

Lemma confusion_table_margins_demo :
  exists tp fp tn fn : list bool,
    true_positives demo_observed demo_predicted = Returned tp
    /\ false_positives demo_observed demo_predicted = Returned fp
    /\ true_negatives demo_observed demo_predicted = Returned tn
    /\ false_negatives demo_observed demo_predicted = Returned fn
    /\ Np.sum tp + Np.sum fp = 4
    /\ Np.sum tn + Np.sum fn = 6
    /\ Np.sum tp + Np.sum fn = 4
    /\ Np.sum tn + Np.sum fp = 6
    /\ Np.sum tp + Np.sum fp + Np.sum tn + Np.sum fn = 10.
Proof.
  destruct (confusion_table_margins demo_observed demo_predicted eq_refl)
    as (tp & fp & tn & fn & T1 & T2 & T3 & T4 & P1 & P2 & O).
  destruct (O eq_refl eq_refl) as (O1 & O2 & O3 & _).
  exists tp, fp, tn, fn. repeat (split; [assumption|]).
  repeat split; assumption.
Defined.

(** ** What the function does not distinguish *)

Lemma sum_map_Permutation {A : Type} (g : A -> bool) (l l' : list A) :
  Permutation l l' -> Np.sum (map g l) = Np.sum (map g l').
Proof.
  induction 1; cbn [map Np.sum]; lia.
Qed.

Lemma count_Permutation (c : Z -> Z -> bool) (cases cases' : list (Z * Z)) :
  Permutation cases cases' ->
  Spec.count c (map fst cases) (map snd cases)
  = Spec.count c (map fst cases') (map snd cases').
Proof.
  induction 1; cbn [map Spec.count]; lia.
Qed.

(** X3. The report depends on the cases, not on their order: listing the
    same pairs (observed, predicted) in another order gives the same
    outcome, value for value, in any arithmetic. *)
Theorem report_ignores_the_order_of_cases {F : Type} `{Arith F}
    (cases cases' : list (Z * Z)) :
  Permutation cases cases' ->
  calculate_accuracy (F:=F) (map fst cases) (map snd cases)
  = calculate_accuracy (map fst cases') (map snd cases').
Proof.
  intros P.
  rewrite !calculate_accuracy_report by now rewrite !length_map.
  unfold counts_of, observed_positives, observed_negatives,
    predicted_positives, predicted_negatives, Np.eq_scalar.
  rewrite !length_map, !map_map.
  rewrite (Permutation_length P).
  rewrite !(count_Permutation _ _ _ P).
  rewrite !(sum_map_Permutation _ _ _ P).
  reflexivity.
Qed.

Lemma report_ignores_the_order_of_cases_demo :
  calculate_accuracy (F:=float) [1; 0; 0] [1; 1; 0]
  = calculate_accuracy [0; 1; 0] [1; 1; 0].
Proof.
  apply (report_ignores_the_order_of_cases [(1, 1); (0, 1); (0, 0)]
                                           [(0, 1); (1, 1); (0, 0)]).
  apply perm_swap.
Defined.

(** X4. Exchanging the two arguments exchanges 'precision' with 'recall'
    and the observed rates with the predicted rates, and keeps 'accuracy':
    for every pair of equal lengths, in any arithmetic. *)
Theorem swapping_arguments_swaps_precision_and_recall {F : Type} `{Arith F}
    (observed predicted : list Z) :
  length observed = length predicted ->
  exists d d' : dict F,
    calculate_accuracy observed predicted = Returned d
    /\ calculate_accuracy predicted observed = Returned d'
    /\ dict_get "precision" d' = dict_get "recall" d
    /\ dict_get "recall" d' = dict_get "precision" d
    /\ dict_get "accuracy" d' = dict_get "accuracy" d
    /\ dict_get "observed_positive_rate" d' = dict_get "predicted_positive_rate" d
    /\ dict_get "observed_negative_rate" d' = dict_get "predicted_negative_rate" d
    /\ dict_get "predicted_positive_rate" d' = dict_get "observed_positive_rate" d
    /\ dict_get "predicted_negative_rate" d' = dict_get "observed_negative_rate" d.
Proof.
  intros E.
  rewrite (calculate_accuracy_report _ _ E).
  rewrite (calculate_accuracy_report predicted observed) by congruence.
  do 2 eexists. split; [reflexivity|]. split; [reflexivity|].
  report_fields.
  destruct (predicted_margins observed predicted E) as (P1 & _).
  destruct (predicted_margins predicted observed ltac:(congruence)) as (P1' & _).
  assert (T : Spec.count (fun o p => (p =? 1) && (o =? 1)) predicted observed
              = Spec.count (fun o p => (p =? 1) && (o =? 1)) observed predicted).
  { rewrite count_swap. apply count_pointwise. intros; apply andb_comm. }
  assert (M : Spec.count (fun o p => p =? o) predicted observed
              = Spec.count (fun o p => p =? o) observed predicted).
  { rewrite count_swap. apply count_pointwise. intros; apply Z.eqb_sym. }
  rewrite P1, P1', T, M, E.
  repeat split; reflexivity.
Qed.

Lemma swapping_arguments_swaps_precision_and_recall_demo :
  exists d d' : dict float,
    calculate_accuracy [1; 1; 0; 0] [1; 0; 1; 1] = Returned d
    /\ calculate_accuracy [1; 0; 1; 1] [1; 1; 0; 0] = Returned d'
    /\ dict_get "precision" d' = dict_get "recall" d
    /\ dict_get "recall" d' = dict_get "precision" d
    /\ dict_get "accuracy" d' = dict_get "accuracy" d
    /\ dict_get "observed_positive_rate" d' = dict_get "predicted_positive_rate" d
    /\ dict_get "observed_negative_rate" d' = dict_get "predicted_negative_rate" d
    /\ dict_get "predicted_positive_rate" d' = dict_get "observed_positive_rate" d
    /\ dict_get "predicted_negative_rate" d' = dict_get "observed_negative_rate" d.
Proof.
  apply (swapping_arguments_swaps_precision_and_recall [1; 1; 0; 0] [1; 0; 1; 1]).
  reflexivity.
Defined.

(** X5. Renaming the classes, every element [x] of both sequences replaced
    by [1 - x], exchanges 'recall' with 'specificity' and, pair by pair, the
    names that share their values ('sensitivity', the two true rates, the
    two predictive values), the two error rates, and each positive rate
    with the negative rate of the same sequence; it keeps 'accuracy'.  For
    every pair of equal lengths whose elements, renamed or not, are 64-bit
    integers, in any arithmetic. *)
Theorem renaming_classes_swaps_recall_and_specificity {F : Type} `{Arith F}
    (observed predicted : list Z) :
  length observed = length predicted ->
  Forall (fun x => - 2 ^ 63 <= x < 2 ^ 63 /\ - 2 ^ 63 <= 1 - x < 2 ^ 63)
         (observed ++ predicted) ->
  exists d d' : dict F,
    calculate_accuracy observed predicted = Returned d
    /\ calculate_accuracy (map (fun x => 1 - x) observed)
                          (map (fun x => 1 - x) predicted) = Returned d'
    /\ dict_get "recall" d' = dict_get "specificity" d
    /\ dict_get "specificity" d' = dict_get "recall" d
    /\ dict_get "sensitivity" d' = dict_get "specificity" d
    /\ dict_get "true_positive_rate" d' = dict_get "true_negative_rate" d
    /\ dict_get "true_negative_rate" d' = dict_get "true_positive_rate" d
    /\ dict_get "positive_predictive_value" d'
       = dict_get "negative_predictive_value" d
    /\ dict_get "negative_predictive_value" d'
       = dict_get "positive_predictive_value" d
    /\ dict_get "false_negative_rate" d' = dict_get "false_positive_rate" d
    /\ dict_get "false_positive_rate" d' = dict_get "false_negative_rate" d
    /\ dict_get "accuracy" d' = dict_get "accuracy" d
    /\ dict_get "observed_positive_rate" d' = dict_get "observed_negative_rate" d
    /\ dict_get "observed_negative_rate" d' = dict_get "observed_positive_rate" d
    /\ dict_get "predicted_positive_rate" d' = dict_get "predicted_negative_rate" d
    /\ dict_get "predicted_negative_rate" d' = dict_get "predicted_positive_rate" d.
Proof.
  intros E _.
  rewrite (calculate_accuracy_report _ _ E).
  rewrite calculate_accuracy_report by (rewrite !length_map; exact E).
  do 2 eexists. split; [reflexivity|]. split; [reflexivity|].
  report_fields.
  unfold observed_positives, observed_negatives, predicted_positives,
    predicted_negatives, Np.eq_scalar.
  rewrite !length_map, !map_map, !count_map.
  assert (F1 : forall x, (1 - x =? 1) = (x =? 0))
    by (intros x; destruct (Z.eqb_spec (1 - x) 1), (Z.eqb_spec x 0); lia).
  assert (F0 : forall x, (1 - x =? 0) = (x =? 1))
    by (intros x; destruct (Z.eqb_spec (1 - x) 0), (Z.eqb_spec x 1); lia).
  assert (FE : forall x y, (1 - x =? 1 - y) = (x =? y))
    by (intros x y; destruct (Z.eqb_spec (1 - x) (1 - y)), (Z.eqb_spec x y); lia).
  rewrite (count_pointwise (fun o p => (1 - p =? 1) && (1 - o =? 1))
                           (fun o p => (p =? 0) && (o =? 0)))
    by (intros; now rewrite !F1).
  rewrite (count_pointwise (fun o p => (1 - p =? 0) && (1 - o =? 0))
                           (fun o p => (p =? 1) && (o =? 1)))
    by (intros; now rewrite !F0).
  rewrite (count_pointwise (fun o p => 1 - p =? 1 - o) (fun o p => p =? o))
    by (intros; apply FE).
  rewrite !(map_ext (fun x => 1 - x =? 1) (fun x => x =? 0) F1).
  rewrite !(map_ext (fun x => 1 - x =? 0) (fun x => x =? 1) F0).
  repeat split; reflexivity.
Qed.

Lemma renaming_classes_swaps_recall_and_specificity_demo :
  exists d d' : dict float,
    calculate_accuracy demo_observed demo_predicted = Returned d
    /\ calculate_accuracy [1; 1; 0; 1; 0; 1; 0; 1; 0; 1]
                          [1; 1; 0; 1; 0; 1; 0; 1; 1; 0] = Returned d'
    /\ dict_get "recall" d' = dict_get "specificity" d
    /\ dict_get "specificity" d' = dict_get "recall" d
    /\ dict_get "positive_predictive_value" d'
       = dict_get "negative_predictive_value" d
    /\ dict_get "negative_predictive_value" d'
       = dict_get "positive_predictive_value" d
    /\ dict_get "accuracy" d' = dict_get "accuracy" d.
Proof.
  destruct (renaming_classes_swaps_recall_and_specificity (F:=float)
              demo_observed demo_predicted eq_refl
              ltac:(repeat (constructor; [lia|]); constructor))
    as (d & d' & D & D' & R & S & _ & _ & _ & P & N & _ & _ & A & _).
  exists d, d'. repeat split; assumption.
Defined.

(** ** The values of the report in binary64 *)

Lemma count_le (c c' : Z -> Z -> bool) (observed predicted : list Z) :
  (forall o p, c o p = true -> c' o p = true) ->
  Spec.count c observed predicted <= Spec.count c' observed predicted.
Proof.
  intros I. revert predicted; induction observed as [|o observed IH];
    intros [|p predicted]; cbn [Spec.count]; try lia.
  specialize (IH predicted). specialize (I o p).
  destruct (c o p); [rewrite I by reflexivity|destruct (c' o p)];
    cbn [Z.b2z]; lia.
Qed.

Lemma true_negatives_le_observed (observed predicted : list Z) :
  length observed = length predicted ->
  Spec.count (fun o p => (p =? 0) && (o =? 0)) observed predicted
  <= Np.sum (observed_negatives observed).
Proof.
  intros E. unfold observed_negatives, Np.eq_scalar.
  rewrite <- (count_observed_only (fun o => o =? 0) observed predicted E).
  apply count_le. intros o p C. now apply andb_prop in C.
Qed.

Lemma sum_mask_bounds (a : list Z) (k : Z) :
  0 <= Np.sum (Np.eq_scalar a k) <= Z.of_nat (length a).
Proof.
  rewrite sum_eq_scalar. apply count_bounds.
Qed.

(** A count out of as many: NaN when both are zero, in [0, 1] otherwise. *)
Lemma binary64_ratio (k n : Z) :
  0 <= k <= n -> n < 2 ^ 53 ->
  if n =? 0 then Np.true_divide (F:=float) k n = nan
  else (0 <=? Np.true_divide k n)%float = true
       /\ (Np.true_divide k n <=? 1)%float = true.
Proof.
  intros K N. destruct (Z.eqb_spec n 0) as [->|N0].
  - replace k with 0 by lia. apply zero_over_zero.
  - apply binary64_rate_in_unit_interval; lia.
Qed.

Lemma binary64_zero_rate (n : Z) :
  0 < n < 2 ^ 53 -> Np.true_divide (F:=float) 0 n = 0%float.
Proof.
  intros N. apply Prim2SF_inj. unfold Np.true_divide. cbn [div of_int binary64].
  rewrite div_spec.
  destruct (of_int_normal n N) as (mn & en & -> & _). reflexivity.
Qed.

Lemma binary64_full_rate (k : Z) :
  0 < k < 2 ^ 53 -> Np.true_divide (F:=float) k k = 1%float.
Proof.
  intros K. apply Prim2SF_inj. unfold Np.true_divide. cbn [div of_int binary64].
  rewrite div_spec.
  destruct (of_int_normal k K) as (m & e & -> & B & E & _).
  destruct (SFdiv_normal m m e e B B E E) as (m' & e' & q & -> & Bm & QR & C).
  assert (Q : q = 2 ^ 53) by nia.
  destruct C as [(_ & M & E')|[C|[C|[C|C]]]]; try lia.
  replace e' with (-52) by lia.
  replace m' with 4503599627370496%positive by lia. reflexivity.
Qed.

(** A positive finite number over zero is the positive infinity. *)
Lemma binary64_over_zero (x : float) (m : positive) (e : Z) :
  Prim2SF x = S754_finite false m e -> (x / 0)%float = infinity.
Proof.
  intros X. apply Prim2SF_inj. rewrite div_spec, X. reflexivity.
Qed.

(** *** One minus a rate *)

Lemma shl_align_snd (m : positive) (e e' : Z) :
  e' <= e -> snd (shl_align m e e') = e'.
Proof.
  intros L. unfold shl_align.
  destruct (e' - e) as [|d|d] eqn:D; try lia; cbn [snd]; lia.
Qed.

(** A positive integer [M] at an exponent [e] with [M * 2^e < 1] rounds
    to a normal float at most one. *)
Lemma binary_round_below_one (M : positive) (e : Z) :
  -105 <= e -> Z.pos M < 2 ^ (- e) ->
  exists (m' : positive) (e' : Z),
    binary_round prec emax false M e = S754_finite false m' e'
    /\ (e' < -52 \/ (e' = -52 /\ Z.pos m' = 2 ^ 52)).
Proof.
  intros He V.
  pose proof (Zdigits2_bounds M) as DM.
  set (d := Z.pos (digits2_pos M)) in *.
  assert (Hd : 0 < d) by (unfold d; lia).
  assert (De : d <= - e).
  { destruct (Z_lt_le_dec (- e) d) as [L|L]; [exfalso|exact L].
    assert (2 ^ (- e) <= 2 ^ (d - 1)) by (apply Z.pow_le_mono_r; lia). lia. }
  unfold binary_round, fexp, SpecFloat.emin, prec, emax. fold d.
  replace (Z.max (d + e - 53) (3 - 1024 - 53)) with (d + e - 53) by lia.
  destruct (Z_le_gt_dec d 53) as [L|G].
  - pose proof (shl_align_fst M e (d + e - 53) ltac:(lia)) as A.
    pose proof (shl_align_snd M e (d + e - 53) ltac:(lia)) as B.
    destruct (shl_align M e (d + e - 53)) as [mz ez]. cbn [fst snd] in A, B. subst ez.
    replace (e - (d + e - 53)) with (53 - d) in A by lia.
    assert (P : 2 ^ (d - 1) * 2 ^ (53 - d) = 2 ^ 52)
      by (rewrite <- Z.pow_add_r by lia; f_equal; lia).
    assert (Q : 2 ^ d * 2 ^ (53 - d) = 2 ^ 53)
      by (rewrite <- Z.pow_add_r by lia; f_equal; lia).
    assert (Ps : 0 < 2 ^ (53 - d)) by (apply Z.pow_pos_nonneg; lia).
    assert (Bz : 2 ^ 52 <= Z.pos mz < 2 ^ 53) by (rewrite A; nia).
    pose proof (binary_round_aux_normal false (Z.pos mz) (d + e - 53) loc_Exact
                  _ _ (shr_fexp_53 mz (d + e - 53) loc_Exact Bz ltac:(lia))) as R.
    cbn [shr_record_of_loc shr_m loc_of_shr_record round_nearest_even] in R.
    unfold prec, emax in R. rewrite R by lia.
    destruct (Z.ltb_spec (Z.pos mz) (2 ^ 53)); [|lia].
    do 2 eexists. split; [reflexivity|]. left. lia.
  - assert (SA : shl_align M e (d + e - 53) = (M, e)).
    { unfold shl_align. destruct (d + e - 53 - e) eqn:X; try lia; reflexivity. }
    rewrite SA.
    destruct (shr_fexp_wide M e) as (mrs & S & Sm & Sl);
      [fold d; lia | fold d; lia |].
    fold d in S, Sm, Sl.
    assert (P2s : 2 ^ (d - 1) = 2 ^ 52 * 2 ^ (d - 53))
      by (rewrite <- Z.pow_add_r by lia; f_equal; lia).
    assert (P2d : 2 ^ d = 2 ^ 53 * 2 ^ (d - 53))
      by (rewrite <- Z.pow_add_r by lia; f_equal; lia).
    assert (Ps : 0 < 2 ^ (d - 53)) by (apply Z.pow_pos_nonneg; lia).
    assert (B1 : 2 ^ 52 <= shr_m mrs < 2 ^ 53).
    { rewrite Sm. split.
      - apply Z.div_le_lower_bound; [exact Ps|]. lia.
      - apply Z.div_lt_upper_bound; [exact Ps|]. lia. }
    pose proof (binary_round_aux_normal false (Z.pos M) e loc_Exact mrs
                  (e + (d - 53)) S B1 ltac:(lia)) as R.
    cbv zeta in R. unfold prec, emax in R. rewrite R.
    destruct (Z.ltb_spec (round_nearest_even (shr_m mrs) (loc_of_shr_record mrs))
                (2 ^ 53)) as [L|L].
    + do 2 eexists. split; [reflexivity|]. left. lia.
    + do 2 eexists. split; [reflexivity|].
      destruct (Z_lt_le_dec (e + (d - 53) + 1) (-52)) as [X|X]; [left; exact X|].
      right. split; [lia|reflexivity].
Qed.

(** One minus a normal float of the unit interval stays in it. *)
Lemma SFsub_one_normal (m : positive) (e : Z) :
  2 ^ 52 <= Z.pos m < 2 ^ 53 -> -105 <= e ->
  e < -52 \/ (e = -52 /\ Z.pos m = 2 ^ 52) ->
  SFleb (S754_zero false) (SF64sub (Prim2SF 1) (S754_finite false m e)) = true
  /\ SFleb (SF64sub (Prim2SF 1) (S754_finite false m e)) (Prim2SF 1) = true.
Proof.
  intros Bm He [L|[-> Em]].
  - change (Prim2SF 1) with (S754_finite false (2 ^ 52)%positive (-52)).
    unfold SF64sub, SFsub, cond_Zopp. cbn [negb].
    rewrite Z.min_r by lia.
    pose proof (shl_align_fst (2 ^ 52)%positive (-52) e ltac:(lia)) as A.
    pose proof (shl_align_fst m e e ltac:(lia)) as B.
    set (a := fst (shl_align (2 ^ 52)%positive (-52) e)) in *.
    set (b := fst (shl_align m e e)) in *.
    replace (e - e) with 0 in B by lia. change (2 ^ 0) with 1 in B.
    assert (Pa : Z.pos a = 2 ^ (- e)).
    { rewrite A. change (Z.pos (2 ^ 52)) with (2 ^ 52).
      rewrite <- Z.pow_add_r by lia. f_equal. lia. }
    assert (G : 2 ^ 53 <= 2 ^ (- e)) by (apply Z.pow_le_mono_r; lia).
    destruct (Z.pos a - Z.pos b) as [|M|M] eqn:S; try lia.
    cbn [binary_normalize].
    destruct (binary_round_below_one M e He ltac:(lia)) as (m' & e' & -> & C).
    split; [reflexivity|]. now apply SFleb_finite_one.
  - assert (m = (2 ^ 52)%positive) as -> by (apply Pos2Z.inj; exact Em).
    split; reflexivity.
Qed.

Lemma binary64_one_minus_rate (k n : Z) :
  0 <= k <= n -> 0 < n < 2 ^ 53 ->
  (0 <=? of_int 1 - Np.true_divide k n)%float = true
  /\ (of_int 1 - Np.true_divide k n <=? 1)%float = true.
Proof.
  intros K N. rewrite !leb_spec, sub_spec.
  unfold Np.true_divide. cbn [div of_int binary64].
  destruct (Z.eq_dec k 0) as [->|K0].
  - rewrite div_spec.
    destruct (of_int_normal n N) as (mn & en & -> & _). split; reflexivity.
  - destruct (binary64_rate k n ltac:(lia) ltac:(lia))
      as (m & e & -> & Bm & He & LE & _).
    now apply SFsub_one_normal.
Qed.

(** X6. In binary64, for equal lengths below 2^53, every value of the
    report that is a count over a count is not-a-number exactly when its
    denominator is zero and lies in [0, 1] otherwise: the four rates and
    'accuracy' over the number of cases, 'precision' over the number of
    predicted positives, 'recall' and the three names that share its value
    over the number of observed positives, 'specificity' and the two names
    that share its value over the number of observed negatives.  The same
    holds of the two error rates, 1 minus 'recall' and 1 minus
    'specificity'. *)
Theorem ratios_are_nan_or_in_unit_interval (observed predicted : list Z) :
  length observed = length predicted ->
  Z.of_nat (length observed) < 2 ^ 53 ->
  exists d : dict float,
    calculate_accuracy observed predicted = Returned d
    /\ (forall k : string,
          In k ["observed_positive_rate"; "observed_negative_rate";
                "predicted_positive_rate"; "predicted_negative_rate";
                "accuracy"] ->
          exists x : float,
            dict_get k d = Some x
            /\ if Z.of_nat (length observed) =? 0 then x = nan
               else (0 <=? x)%float = true /\ (x <=? 1)%float = true)
    /\ (exists x : float,
          dict_get "precision" d = Some x
          /\ if Np.sum (predicted_positives predicted) =? 0 then x = nan
             else (0 <=? x)%float = true /\ (x <=? 1)%float = true)
    /\ (forall k : string,
          In k ["recall"; "sensitivity"; "true_positive_rate";
                "positive_predictive_value"] ->
          exists x : float,
            dict_get k d = Some x
            /\ if Np.sum (observed_positives observed) =? 0 then x = nan
               else (0 <=? x)%float = true /\ (x <=? 1)%float = true)
    /\ (forall k : string,
          In k ["specificity"; "true_negative_rate";
                "negative_predictive_value"] ->
          exists x : float,
            dict_get k d = Some x
            /\ if Np.sum (observed_negatives observed) =? 0 then x = nan
               else (0 <=? x)%float = true /\ (x <=? 1)%float = true)
    /\ (exists x : float,
          dict_get "false_negative_rate" d = Some x
          /\ if Np.sum (observed_positives observed) =? 0 then x = nan
             else (0 <=? x)%float = true /\ (x <=? 1)%float = true)
    /\ (exists x : float,
          dict_get "false_positive_rate" d = Some x
          /\ if Np.sum (observed_negatives observed) =? 0 then x = nan
             else (0 <=? x)%float = true /\ (x <=? 1)%float = true).
Proof.
  intros E N.
  rewrite (calculate_accuracy_report _ _ E).
  eexists. split; [reflexivity|].
  pose proof (sum_mask_bounds observed 1) as B1.
  pose proof (sum_mask_bounds observed 0) as B0.
  pose proof (sum_mask_bounds predicted 1) as C1.
  pose proof (sum_mask_bounds predicted 0) as C0.
  rewrite <- E in C1, C0.
  pose proof (count_bounds (fun o p => p =? o) observed predicted) as BM.
  pose proof (count_bounds (fun o p => (p =? 1) && (o =? 1)) observed predicted) as BT.
  pose proof (count_bounds (fun o p => (p =? 0) && (o =? 0)) observed predicted) as BN.
  pose proof (count_bounds (fun o p => (p =? 1) && negb (o =? 1)) observed predicted) as BF.
  pose proof (true_positives_le_observed observed predicted) as LT.
  pose proof (true_negatives_le_observed observed predicted E) as LN.
  destruct (predicted_margins observed predicted E) as (PM & _).
  fold (observed_positives observed) in B1.
  fold (observed_negatives observed) in B0.
  fold (predicted_positives predicted) in C1.
  fold (predicted_negatives predicted) in C0.
  split; [|split; [|split; [|split; [|split]]]].
  - intros k [<-|[<-|[<-|[<-|[<-|[]]]]]]; report_fields;
      (eexists; split; [reflexivity|]); apply binary64_ratio; lia.
  - report_fields. eexists; split; [reflexivity|].
    rewrite <- PM. apply binary64_ratio; lia.
  - intros k [<-|[<-|[<-|[<-|[]]]]]; report_fields;
      (eexists; split; [reflexivity|]); apply binary64_ratio; lia.
  - intros k [<-|[<-|[<-|[]]]]; report_fields;
      (eexists; split; [reflexivity|]); apply binary64_ratio; lia.
  - report_fields. eexists; split; [reflexivity|].
    destruct (Z.eqb_spec (Np.sum (observed_positives observed)) 0) as [Z0|NZ].
    + rewrite Z0 in *.
      replace (Spec.count (fun o p => (p =? 1) && (o =? 1)) observed predicted)
        with 0 by lia.
      rewrite zero_over_zero. apply nan_sub_r.
    + apply binary64_one_minus_rate; lia.
  - report_fields. eexists; split; [reflexivity|].
    destruct (Z.eqb_spec (Np.sum (observed_negatives observed)) 0) as [Z0|NZ].
    + rewrite Z0 in *.
      replace (Spec.count (fun o p => (p =? 0) && (o =? 0)) observed predicted)
        with 0 by lia.
      rewrite zero_over_zero. apply nan_sub_r.
    + apply binary64_one_minus_rate; lia.
Qed.

Lemma ratios_are_nan_or_in_unit_interval_demo :
  exists d : dict float,
    calculate_accuracy [1; 1; 1] [0; 1; 0] = Returned d
    /\ (exists x : float,
          dict_get "accuracy" d = Some x
          /\ (0 <=? x)%float = true /\ (x <=? 1)%float = true)
    /\ (exists x : float,
          dict_get "recall" d = Some x
          /\ (0 <=? x)%float = true /\ (x <=? 1)%float = true)
    /\ dict_get "specificity" d = Some nan.
Proof.
  destruct (ratios_are_nan_or_in_unit_interval [1; 1; 1] [0; 1; 0] eq_refl eq_refl)
    as (d & D & R & _ & S & T & _).
  exists d. split; [exact D|].
  split; [exact (R "accuracy" ltac:(cbn; tauto))|].
  split; [exact (S "recall" ltac:(cbn; tauto))|].
  destruct (T "specificity" ltac:(cbn; tauto)) as (x & G & X).
  cbn in X. now rewrite G, X.
Defined.

(** X7. Without an observed negative the function has no error either: in
    binary64, on equal lengths, 'specificity' and the two names that share
    its value, 'false_positive_rate' and both likelihoods are
    not-a-number. *)
Theorem no_observed_negative_gives_nan (observed predicted : list Z) :
  length observed = length predicted ->
  Np.sum (observed_negatives observed) = 0 ->
  exists d : dict float,
    calculate_accuracy observed predicted = Returned d
    /\ dict_get "specificity" d = Some nan
    /\ dict_get "true_negative_rate" d = Some nan
    /\ dict_get "negative_predictive_value" d = Some nan
    /\ dict_get "false_positive_rate" d = Some nan
    /\ dict_get "positive_likelihood" d = Some nan
    /\ dict_get "negative_likelihood" d = Some nan.
Proof.
  intros E N0.
  rewrite (calculate_accuracy_report _ _ E).
  eexists. split; [reflexivity|].
  pose proof (true_negatives_le_observed observed predicted E) as LE.
  pose proof (count_bounds (fun o p => (p =? 0) && (o =? 0)) observed predicted) as B.
  report_fields. rewrite N0.
  replace (Spec.count (fun o p => (p =? 0) && (o =? 0)) observed predicted)
    with 0 by lia.
  rewrite zero_over_zero. cbn [add sub mul div binary64].
  rewrite ?nan_sub_r, ?nan_div_r.
  repeat split; reflexivity.
Qed.

Lemma no_observed_negative_gives_nan_demo :
  exists d : dict float,
    calculate_accuracy [1; 1; 1] [1; 0; 1] = Returned d
    /\ dict_get "specificity" d = Some nan
    /\ dict_get "true_negative_rate" d = Some nan
    /\ dict_get "negative_predictive_value" d = Some nan
    /\ dict_get "false_positive_rate" d = Some nan
    /\ dict_get "positive_likelihood" d = Some nan
    /\ dict_get "negative_likelihood" d = Some nan.
Proof.
  apply (no_observed_negative_gives_nan [1; 1; 1] [1; 0; 1]); reflexivity.
Defined.

(** X8. Without a true positive 'f1' is not-a-number in binary64, also
    when 'precision' and 'recall' are both defined: they are then zero,
    and zero over zero is not-a-number (equal lengths below 2^53). *)
Theorem f1_is_nan_without_true_positive
    (observed predicted : list Z) (tp : list bool) :
  length observed = length predicted ->
  Z.of_nat (length observed) < 2 ^ 53 ->
  true_positives observed predicted = Returned tp ->
  Np.sum tp = 0 ->
  exists d : dict float,
    calculate_accuracy observed predicted = Returned d
    /\ dict_get "f1" d = Some nan
    /\ (Np.sum (predicted_positives predicted) <> 0 ->
        dict_get "precision" d = Some 0%float)
    /\ (Np.sum (observed_positives observed) <> 0 ->
        dict_get "recall" d = Some 0%float).
Proof.
  intros E N T T0.
  destruct (masks_same_length _ _ E) as (T1 & _).
  rewrite T1 in T. injection T as <-. rewrite sum_zip_with in T0.
  rewrite (calculate_accuracy_report _ _ E).
  eexists. split; [reflexivity|].
  destruct (predicted_margins observed predicted E) as (PM & _).
  pose proof (sum_mask_bounds observed 1) as B1.
  pose proof (sum_mask_bounds predicted 1) as C1. rewrite <- E in C1.
  fold (observed_positives observed) in B1.
  fold (predicted_positives predicted) in C1.
  report_fields. rewrite <- PM, T0, Z.add_0_l.
  set (fp := Spec.count (fun o p => (p =? 1) && negb (o =? 1)) observed predicted) in *.
  set (op := Np.sum (observed_positives observed)) in *.
  assert (P : Np.true_divide (F:=float) 0 fp = nan
              \/ Np.true_divide (F:=float) 0 fp = 0%float).
  { destruct (Z.eq_dec fp 0) as [->|NZ]; [left; apply zero_over_zero|].
    right. apply binary64_zero_rate. lia. }
  assert (R : Np.true_divide (F:=float) 0 op = nan
              \/ Np.true_divide (F:=float) 0 op = 0%float).
  { destruct (Z.eq_dec op 0) as [->|NZ]; [left; apply zero_over_zero|].
    right. apply binary64_zero_rate. lia. }
  split; [|split].
  - cbn [add sub mul div binary64].
    destruct P as [-> | ->], R as [-> | ->];
      rewrite ?nan_mul_l, ?nan_mul_r, ?nan_div_l; reflexivity.
  - intros NZ. rewrite binary64_zero_rate by (simpl in NZ; lia). reflexivity.
  - intros NZ. rewrite binary64_zero_rate by lia. reflexivity.
Qed.

Lemma f1_is_nan_without_true_positive_demo :
  exists d : dict float,
    calculate_accuracy [1; 0; 1; 0] [0; 1; 0; 0] = Returned d
    /\ dict_get "f1" d = Some nan
    /\ dict_get "precision" d = Some 0%float
    /\ dict_get "recall" d = Some 0%float.
Proof.
  destruct (f1_is_nan_without_true_positive [1; 0; 1; 0] [0; 1; 0; 0]
              [false; false; false; false] eq_refl eq_refl eq_refl eq_refl)
    as (d & D & F1 & P & R).
  exists d. split; [exact D|]. split; [exact F1|].
  split; [apply P|apply R]; discriminate.
Defined.

Lemma count_diagonal (c : Z -> Z -> bool) (a : list Z) :
  Spec.count c a a = Np.sum (map (fun x => c x x) a).
Proof.
  induction a as [|x a IH]; cbn [Spec.count map Np.sum]; [reflexivity|].
  now rewrite IH.
Qed.

Lemma sum_map_ext (c c' : Z -> bool) (a : list Z) :
  (forall x, c x = c' x) -> Np.sum (map c a) = Np.sum (map c' a).
Proof.
  intros X. now rewrite (map_ext c c' X).
Qed.

Lemma sum_map_false (a : list Z) : Np.sum (map (fun _ => false) a) = 0.
Proof.
  induction a as [|x a IH]; cbn [map Np.sum Z.b2z]; [reflexivity|]. now rewrite IH.
Qed.

Lemma sum_map_true (a : list Z) :
  Np.sum (map (fun _ => true) a) = Z.of_nat (length a).
Proof.
  induction a as [|x a IH]; cbn [map Np.sum Z.b2z length]; [reflexivity|].
  rewrite IH. lia.
Qed.

(** X9. A prediction that repeats the observations, with both classes
    observed, gets in binary64 the report of a perfect classifier:
    'accuracy', 'precision', 'recall', 'f1' and 'specificity' are exactly
    1, both error rates are 0, 'negative_likelihood' is 0, and
    'positive_likelihood', a division of 1 by 0, is the positive infinity
    (fewer than 2^53 cases; the labels need not be 0 or 1). *)
Theorem perfect_prediction_report (observed : list Z) :
  Z.of_nat (length observed) < 2 ^ 53 ->
  0 < Np.sum (observed_positives observed) ->
  0 < Np.sum (observed_negatives observed) ->
  exists d : dict float,
    calculate_accuracy observed observed = Returned d
    /\ dict_get "accuracy" d = Some 1%float
    /\ dict_get "precision" d = Some 1%float
    /\ dict_get "recall" d = Some 1%float
    /\ dict_get "f1" d = Some 1%float
    /\ dict_get "specificity" d = Some 1%float
    /\ dict_get "false_positive_rate" d = Some 0%float
    /\ dict_get "false_negative_rate" d = Some 0%float
    /\ dict_get "positive_likelihood" d = Some infinity
    /\ dict_get "negative_likelihood" d = Some 0%float.
Proof.
  intros N P0 N0.
  rewrite (calculate_accuracy_report _ _ eq_refl).
  eexists. split; [reflexivity|].
  pose proof (sum_mask_bounds observed 1) as B1.
  pose proof (sum_mask_bounds observed 0) as B0.
  fold (observed_positives observed) in B1.
  fold (observed_negatives observed) in B0.
  report_fields. rewrite !count_diagonal.
  rewrite (sum_map_ext (fun x => (x =? 1) && (x =? 1)) (fun x => x =? 1))
    by (intros; apply andb_diag).
  rewrite (sum_map_ext (fun x => (x =? 0) && (x =? 0)) (fun x => x =? 0))
    by (intros; apply andb_diag).
  rewrite (sum_map_ext (fun x => (x =? 1) && negb (x =? 1)) (fun _ => false))
    by (intros; apply andb_negb_r).
  rewrite (sum_map_ext (fun x => x =? x) (fun _ => true))
    by (intros; apply Z.eqb_refl).
  rewrite sum_map_false, sum_map_true, Z.add_0_r.
  fold (Np.eq_scalar observed 1) (Np.eq_scalar observed 0).
  fold (observed_positives observed) (observed_negatives observed).
  fold (Np.true_divide (F:=float) (Z.of_nat (length observed))
          (Z.of_nat (length observed))).
  rewrite !binary64_full_rate by lia.
  repeat split; reflexivity.
Qed.

Lemma perfect_prediction_report_demo :
  exists d : dict float,
    calculate_accuracy demo_observed demo_observed = Returned d
    /\ dict_get "accuracy" d = Some 1%float
    /\ dict_get "precision" d = Some 1%float
    /\ dict_get "recall" d = Some 1%float
    /\ dict_get "f1" d = Some 1%float
    /\ dict_get "specificity" d = Some 1%float
    /\ dict_get "false_positive_rate" d = Some 0%float
    /\ dict_get "false_negative_rate" d = Some 0%float
    /\ dict_get "positive_likelihood" d = Some infinity
    /\ dict_get "negative_likelihood" d = Some 0%float.
Proof.
  apply (perfect_prediction_report demo_observed); reflexivity.
Defined.

Lemma no_false_positive_true_negatives (observed predicted : list Z) :
  length observed = length predicted ->
  forallb Spec.label predicted = true ->
  Spec.count (fun o p => (p =? 1) && negb (o =? 1)) observed predicted = 0 ->
  Spec.count (fun o p => (p =? 0) && (o =? 0)) observed predicted
  = Np.sum (observed_negatives observed).
Proof.
  unfold observed_negatives, Np.eq_scalar.
  revert predicted; induction observed as [|o observed IH];
    intros [|p predicted] E L Z0; try discriminate; [reflexivity|].
  cbn [forallb] in L. apply andb_prop in L as [Lp L].
  cbn [Spec.count map Np.sum] in Z0 |- *.
  pose proof (count_bounds (fun o p => (p =? 1) && negb (o =? 1)) observed predicted) as B.
  assert (Z0' : Spec.count (fun o p => (p =? 1) && negb (o =? 1)) observed predicted = 0)
    by (destruct ((p =? 1) && negb (o =? 1)); cbn [Z.b2z] in Z0; lia).
  injection E as E.
  rewrite (IH predicted E L Z0').
  f_equal.
  destruct (label_inv p Lp) as [-> | ->]; [reflexivity|].
  change (1 =? 1) with true in Z0. change (1 =? 0) with false.
  cbn [andb] in Z0 |- *.
  destruct (Z.eqb_spec o 1) as [->|NE]; [reflexivity|].
  cbn [negb Z.b2z] in Z0. lia.
Qed.

(** X10. When no case is predicted 1 without being observed 1, at least
    one case is a true positive and a negative is observed, then in
    binary64 'precision' and 'specificity' are exactly 1,
    'false_positive_rate' is 0 and 'positive_likelihood', a division by
    that zero, is the positive infinity: the function returns it, with no
    error (equal lengths below 2^53, predicted values 0 or 1). *)
Theorem no_false_positive_gives_infinite_likelihood
    (observed predicted : list Z) (tp fp : list bool) :
  length observed = length predicted ->
  Z.of_nat (length observed) < 2 ^ 53 ->
  forallb Spec.label predicted = true ->
  true_positives observed predicted = Returned tp ->
  false_positives observed predicted = Returned fp ->
  0 < Np.sum tp ->
  Np.sum fp = 0 ->
  0 < Np.sum (observed_negatives observed) ->
  exists d : dict float,
    calculate_accuracy observed predicted = Returned d
    /\ dict_get "precision" d = Some 1%float
    /\ dict_get "specificity" d = Some 1%float
    /\ dict_get "false_positive_rate" d = Some 0%float
    /\ dict_get "positive_likelihood" d = Some infinity.
Proof.
  intros E N L T U T0 U0 N0.
  destruct (masks_same_length _ _ E) as (T1 & T2 & _).
  rewrite T1 in T. injection T as <-. rewrite T2 in U. injection U as <-.
  rewrite sum_zip_with in T0, U0.
  rewrite (calculate_accuracy_report _ _ E).
  eexists. split; [reflexivity|].
  pose proof (no_false_positive_true_negatives _ _ E L U0) as TN.
  pose proof (true_positives_le_observed observed predicted) as LT.
  pose proof (sum_mask_bounds observed 1) as B1.
  pose proof (sum_mask_bounds observed 0) as B0.
  pose proof (count_bounds (fun o p => (p =? 1) && (o =? 1)) observed predicted) as BT.
  fold (observed_positives observed) in B1.
  fold (observed_negatives observed) in B0.
  report_fields. rewrite U0, TN, Z.add_0_r.
  rewrite !binary64_full_rate by lia.
  destruct (binary64_rate
              (Spec.count (fun o p => (p =? 1) && (o =? 1)) observed predicted)
              (Np.sum (observed_positives observed)) ltac:(lia) ltac:(lia))
    as (m & e & R & _).
  change (sub (of_int 1) 1%float) with 0%float.
  unfold Np.true_divide. cbn [div of_int binary64].
  rewrite (binary64_over_zero _ m e R).
  repeat split; reflexivity.
Qed.

Lemma no_false_positive_gives_infinite_likelihood_demo :
  exists d : dict float,
    calculate_accuracy [1; 1; 0; 0] [1; 0; 0; 0] = Returned d
    /\ dict_get "precision" d = Some 1%float
    /\ dict_get "specificity" d = Some 1%float
    /\ dict_get "false_positive_rate" d = Some 0%float
    /\ dict_get "positive_likelihood" d = Some infinity.
Proof.
  apply (no_false_positive_gives_infinite_likelihood
           [1; 1; 0; 0] [1; 0; 0; 0]
           [true; false; false; false] [false; false; false; false]);
    reflexivity.
Defined.

(** ** The values of the report in exact arithmetic *)

Lemma Qred_nonzero (q : Q) : ~ (q == 0)%Q -> Qzerob (Qred q) = false.
Proof.
  intros NZ. unfold Qzerob. apply Z.eqb_neq. intros N0. apply NZ.
  rewrite <- (Qred_correct q). unfold Qeq. rewrite N0. reflexivity.
Qed.

Lemma harmonic_mean_of_ratios (a b c : Q) :
  (0 < a)%Q -> (0 <= b)%Q -> (0 <= c)%Q ->
  (2 * (a / (a + b) * (a / (a + c)) / (a / (a + b) + a / (a + c)))
   == 2 * a / (2 * a + b + c))%Q.
Proof.
  intros A B C. field. repeat split; try lra.
  assert (0 < a * (a + c))%Q by (apply Qmult_lt_0_compat; lra).
  assert (0 < a * (a + b))%Q by (apply Qmult_lt_0_compat; lra).
  lra.
Qed.

(** In exact arithmetic, on a valid input with a true positive, 'f1' is
    2 TP / (2 TP + FP + FN) of the counts of the function's own masks. *)
Lemma f1_is_two_tp_over_two_tp_fp_fn
    (observed predicted : list Z) (tp fp fn : list bool) :
  Spec.valid observed predicted = true ->
  true_positives observed predicted = Returned tp ->
  false_positives observed predicted = Returned fp ->
  false_negatives observed predicted = Returned fn ->
  0 < Np.sum tp ->
  exists (d : dict xnum) (f : Q),
    calculate_accuracy observed predicted = Returned d
    /\ dict_get "f1" d = Some (XFin f)
    /\ (f == inject_Z (2 * Np.sum tp)
             / inject_Z (2 * Np.sum tp + Np.sum fp + Np.sum fn))%Q.
Proof.
  intros V T U W T0. apply valid_inv in V as (E & _ & Lo & Lp).
  destruct (masks_same_length _ _ E) as (T1 & T2 & _ & T4).
  rewrite T1 in T. injection T as <-. rewrite T2 in U. injection U as <-.
  rewrite T4 in W. injection W as <-.
  rewrite !sum_zip_with in *.
  rewrite (calculate_accuracy_report _ _ E).
  destruct (observed_margins _ _ E Lo Lp) as (OM & _).
  pose proof (count_bounds (fun o p => (p =? 1) && negb (o =? 1)) observed predicted) as BF.
  pose proof (count_bounds (fun o p => (p =? 0) && negb (o =? 0)) observed predicted) as BN.
  set (a := Spec.count (fun o p => (p =? 1) && (o =? 1)) observed predicted) in *.
  set (b := Spec.count (fun o p => (p =? 1) && negb (o =? 1)) observed predicted) in *.
  set (c := Spec.count (fun o p => (p =? 0) && negb (o =? 0)) observed predicted) in *.
  do 2 eexists. split; [reflexivity|].
  report_fields. fold a b. rewrite <- OM. unfold Np.true_divide.
  rewrite !exact_rate by lia.
  assert (A : (0 < inject_Z a)%Q)
    by (change 0%Q with (inject_Z 0); rewrite <- Zlt_Qlt; exact T0).
  assert (B : (0 <= inject_Z b)%Q)
    by (change 0%Q with (inject_Z 0); rewrite <- Zle_Qle; lia).
  assert (C : (0 <= inject_Z c)%Q)
    by (change 0%Q with (inject_Z 0); rewrite <- Zle_Qle; lia).
  cbn [add sub mul div of_int exact xmul xadd xdiv].
  rewrite Qred_nonzero.
  - split; [reflexivity|].
    rewrite !Qred_correct, !inject_Z_plus, !inject_Z_mult.
    change (inject_Z 2) with 2%Q.
    rewrite harmonic_mean_of_ratios by assumption. reflexivity.
  - rewrite !Qred_correct, !inject_Z_plus.
    intros Z0.
    assert (0 < inject_Z a / (inject_Z a + inject_Z b))%Q
      by (apply Qlt_shift_div_l; lra).
    assert (0 < inject_Z a / (inject_Z a + inject_Z c))%Q
      by (apply Qlt_shift_div_l; lra).
    lra.
Qed.

Lemma f1_is_two_tp_over_two_tp_fp_fn_demo :
  exists (d : dict xnum) (f : Q),
    calculate_accuracy demo_observed demo_predicted = Returned d
    /\ dict_get "f1" d = Some (XFin f)
    /\ (f == inject_Z (2 * 3) / inject_Z (2 * 3 + 1 + 1))%Q.
Proof.
  apply (f1_is_two_tp_over_two_tp_fp_fn demo_observed demo_predicted
           [false; false; true; false; true; false; true; false; false; false]
           [false; false; false; false; false; false; false; false; false; true]
           [false; false; false; false; false; false; false; false; true; false]);
    reflexivity.
Defined.

(** In exact arithmetic, on a valid input where both classes are observed,
    1 minus 'specificity' is FP over the observed negatives and 1 minus
    'recall' is FN over the observed positives. *)
Lemma error_rates_are_shares_of_the_observed_classes
    (observed predicted : list Z) (fp fn : list bool) :
  Spec.valid observed predicted = true ->
  false_positives observed predicted = Returned fp ->
  false_negatives observed predicted = Returned fn ->
  0 < Np.sum (observed_positives observed) ->
  0 < Np.sum (observed_negatives observed) ->
  exists (d : dict xnum) (p n : Q),
    calculate_accuracy observed predicted = Returned d
    /\ dict_get "false_positive_rate" d = Some (XFin p)
    /\ (p == inject_Z (Np.sum fp)
             / inject_Z (Np.sum (observed_negatives observed)))%Q
    /\ dict_get "false_negative_rate" d = Some (XFin n)
    /\ (n == inject_Z (Np.sum fn)
             / inject_Z (Np.sum (observed_positives observed)))%Q.
Proof.
  intros V U W P0 N0. apply valid_inv in V as (E & _ & Lo & Lp).
  destruct (masks_same_length _ _ E) as (_ & T2 & _ & T4).
  rewrite T2 in U. injection U as <-. rewrite T4 in W. injection W as <-.
  rewrite !sum_zip_with.
  rewrite (calculate_accuracy_report _ _ E).
  destruct (observed_margins _ _ E Lo Lp) as (OM & ON & _).
  do 3 eexists. split; [reflexivity|].
  report_fields. unfold Np.true_divide.
  rewrite !exact_rate by lia.
  cbn [add sub mul div of_int exact xsub].
  assert (P : ~ (inject_Z (Np.sum (observed_positives observed)) == 0)%Q).
  { change 0%Q with (inject_Z 0). rewrite inject_Z_injective. lia. }
  assert (N : ~ (inject_Z (Np.sum (observed_negatives observed)) == 0)%Q).
  { change 0%Q with (inject_Z 0). rewrite inject_Z_injective. lia. }
  split; [reflexivity|]. split; [|split; [reflexivity|]].
  - rewrite !Qred_correct, <- ON, !inject_Z_plus.
    rewrite <- ON, inject_Z_plus in N.
    change (inject_Z 1) with 1%Q. field. exact N.
  - rewrite !Qred_correct, <- OM, !inject_Z_plus.
    rewrite <- OM, inject_Z_plus in P.
    change (inject_Z 1) with 1%Q. field. exact P.
Qed.

Lemma error_rates_are_shares_of_the_observed_classes_demo :
  exists (d : dict xnum) (p n : Q),
    calculate_accuracy demo_observed demo_predicted = Returned d
    /\ dict_get "false_positive_rate" d = Some (XFin p)
    /\ (p == inject_Z 1 / inject_Z 6)%Q
    /\ dict_get "false_negative_rate" d = Some (XFin n)
    /\ (n == inject_Z 1 / inject_Z 4)%Q.
Proof.
  apply (error_rates_are_shares_of_the_observed_classes
           demo_observed demo_predicted
           [false; false; false; false; false; false; false; false; false; true]
           [false; false; false; false; false; false; false; false; true; false]);
    reflexivity.
Defined.

(** ** A single observation against many predictions *)





(** * The values binary64 returns, up to rounding *)

(** ** One rounding *)

(** The arithmetic of one rounding: [t] is the mantissa [M] cut by [X],
    [r] is [t] or its successor; against [T <= t] the rounded value
    [r * X] is within [M / T] of [M]. *)
Lemma round_error (T X M t rem r : Z) :
  0 < T -> 0 < X -> M = X * t + rem -> 0 <= rem < X -> T <= t ->
  t <= r <= t + 1 ->
  (T - 1) * M <= T * (r * X) <= (T + 1) * M.
Proof.
  intros HT HX EM Hr Ht Br.
  assert (A : t * X <= M) by lia.
  assert (B : M < (t + 1) * X) by lia.
  assert (C : T * X <= t * X) by (apply Z.mul_le_mono_nonneg_r; lia).
  assert (D : t * X <= r * X <= (t + 1) * X)
    by (split; apply Z.mul_le_mono_nonneg_r; lia).
  assert (E1 : T * (t * X) <= T * (r * X) <= T * ((t + 1) * X))
    by (split; apply Z.mul_le_mono_nonneg_l; lia).
  assert (E2 : T * ((t + 1) * X) = T * (t * X) + T * X) by ring.
  assert (E3 : T * (t * X) <= T * M) by (apply Z.mul_le_mono_nonneg_l; lia).
  assert (E4 : T * M < T * ((t + 1) * X)) by (apply Z.mul_lt_mono_pos_l; lia).
  split; lia.
Qed.

(** A mantissa of at least 53 bits, rounded: the result is normal and
    within one part in [2^52] of the exact value. *)
Lemma binary_round_aux_wide (M : positive) (e : Z) :
  let s := Z.pos (digits2_pos M) - 53 in
  0 <= s -> -1074 <= e + s -> e + s < 900 ->
  exists (m' : positive) (e' : Z),
    binary_round_aux prec emax false (Z.pos M) e loc_Exact
    = S754_finite false m' e'
    /\ 2 ^ 52 <= Z.pos m' < 2 ^ 53
    /\ e + s <= e' <= e + s + 1
    /\ (2 ^ 52 - 1) * Z.pos M
       <= 2 ^ 52 * (Z.pos m' * 2 ^ (e' - e))
       <= (2 ^ 52 + 1) * Z.pos M.
Proof.
  intros s Hs Lo Hi.
  pose proof (Zdigits2_bounds M) as DM. fold (s + 53 - 0) in DM.
  replace (Z.pos (digits2_pos M)) with (s + 53) in DM by (unfold s; lia).
  destruct (shr_fexp_wide M e Hs Lo) as (mrs & S & Sm & _). fold s in S, Sm.
  assert (Ps : 0 < 2 ^ s) by (apply Z.pow_pos_nonneg; lia).
  assert (P1 : 2 ^ (s + 53 - 1) = 2 ^ 52 * 2 ^ s)
    by (rewrite <- Z.pow_add_r by lia; f_equal; lia).
  assert (P2 : 2 ^ (s + 53) = 2 ^ 53 * 2 ^ s)
    by (rewrite <- Z.pow_add_r by lia; f_equal; lia).
  assert (B1 : 2 ^ 52 <= shr_m mrs < 2 ^ 53).
  { rewrite Sm. split.
    - apply Z.div_le_lower_bound; [exact Ps|]. lia.
    - apply Z.div_lt_upper_bound; [exact Ps|]. lia. }
  pose proof (binary_round_aux_normal false (Z.pos M) e loc_Exact mrs (e + s)
                S B1 ltac:(lia)) as R.
  cbv zeta in R. rewrite R.
  pose proof (round_nearest_even_bounds (shr_m mrs) (loc_of_shr_record mrs)) as RB.
  pose proof (Z.div_mod (Z.pos M) (2 ^ s) ltac:(lia)) as DMod.
  pose proof (Z.mod_pos_bound (Z.pos M) (2 ^ s) Ps) as BMod.
  rewrite <- Sm in DMod.
  set (r := round_nearest_even (shr_m mrs) (loc_of_shr_record mrs)) in *.
  pose proof (round_error (2 ^ 52) (2 ^ s) (Z.pos M) (shr_m mrs)
                (Z.pos M mod 2 ^ s) r ltac:(lia) Ps DMod BMod ltac:(lia) RB) as RE.
  destruct (Z.ltb_spec r (2 ^ 53)) as [L|L].
  - exists (Z.to_pos r), (e + s). rewrite Z2Pos.id by lia.
    split; [reflexivity|]. split; [lia|]. split; [lia|].
    replace (e + s - e) with s by lia. exact RE.
  - exists (2 ^ 52)%positive, (e + s + 1).
    split; [reflexivity|].
    split; [split; vm_compute; (reflexivity || discriminate)|]. split; [lia|].
    replace (e + s + 1 - e) with (s + 1) by lia.
    rewrite Z.pow_add_r by lia. change (2 ^ 1) with 2.
    assert (Er : r = 2 ^ 53) by lia. rewrite Er in RE.
    change (Z.pos (2 ^ 52)) with (2 ^ 52).
    replace (2 ^ 52 * (2 ^ s * 2)) with (2 ^ 53 * 2 ^ s)
      by (change (2 ^ 53) with (2 ^ 52 * 2); ring).
    exact RE.
Qed.


Lemma Qpower2_pos (e : Z) : (0 < 2 ^ e)%Q.
Proof. apply Qpower_0_lt. reflexivity. Qed.

Lemma Qpower2_shift (e e' : Z) :
  e <= e' -> (2 ^ e' == inject_Z (2 ^ (e' - e)) * 2 ^ e)%Q.
Proof.
  intros L. rewrite Zpower_Qpower by lia. change (inject_Z 2) with 2%Q.
  rewrite <- Qpower_plus by discriminate.
  replace (e' - e + e) with e' by lia. reflexivity.
Qed.

(** From integers to rationals: a rounding bound on mantissas, at the
    exponent [e], is a bound [within eps] on values. *)
Lemma within_of_mantissas (A : Z) (m' : positive) (e e' : Z) :
  e <= e' ->
  (2 ^ 52 - 1) * A <= 2 ^ 52 * (Z.pos m' * 2 ^ (e' - e)) <= (2 ^ 52 + 1) * A ->
  within eps (inject_Z (Z.pos m') * 2 ^ e') (inject_Z A * 2 ^ e).
Proof.
  intros L [Lo Hi]. unfold within, eps.
  rewrite (Qpower2_shift e e' L).
  pose proof (Qpower2_pos e) as W.
  rewrite Zle_Qle in Lo, Hi. rewrite !inject_Z_mult in Lo, Hi.
  set (a := inject_Z A) in *. set (p := inject_Z (Z.pos m')) in *.
  set (x := inject_Z (2 ^ (e' - e))) in *.
  change (inject_Z (2 ^ 52 - 1)) with (4503599627370495 # 1)%Q in Lo.
  change (inject_Z (2 ^ 52 + 1)) with (4503599627370497 # 1)%Q in Hi.
  change (inject_Z (2 ^ 52)) with (4503599627370496 # 1)%Q in Lo, Hi.
  change (1 # 2 ^ 52)%Q with (1 # 4503599627370496)%Q.
  assert (Lo' : ((4503599627370495 # 1) * a * 2 ^ e
                 <= (4503599627370496 # 1) * (p * x) * 2 ^ e)%Q)
    by (apply Qmult_le_compat_r; [exact Lo|apply Qlt_le_weak, W]).
  assert (Hi' : ((4503599627370496 # 1) * (p * x) * 2 ^ e
                 <= (4503599627370497 # 1) * a * 2 ^ e)%Q)
    by (apply Qmult_le_compat_r; [exact Hi|apply Qlt_le_weak, W]).
  set (w := (2 ^ e)%Q) in *.
  split; lra.
Qed.

Lemma digits_between (M : positive) (a b : Z) :
  0 <= a -> 2 ^ a <= Z.pos M < 2 ^ b ->
  a + 1 <= Z.pos (digits2_pos M) <= b.
Proof.
  intros Ha [Lo Hi]. pose proof (Zdigits2_bounds M) as [DL DH].
  set (d := Z.pos (digits2_pos M)) in *.
  assert (Hd : 0 < d) by (unfold d; lia).
  split.
  - destruct (Z_lt_le_dec d (a + 1)) as [L|L]; [exfalso|exact L].
    assert (2 ^ d <= 2 ^ a) by (apply Z.pow_le_mono_r; lia). lia.
  - destruct (Z_lt_le_dec b d) as [L|L]; [exfalso|exact L].
    assert (2 ^ b <= 2 ^ (d - 1)) by (apply Z.pow_le_mono_r; lia). lia.
Qed.

Lemma SF2Q_normal (m : positive) (e : Z) :
  SF2Q (S754_finite false m e) = (inject_Z (Z.pos m) * 2 ^ e)%Q.
Proof. reflexivity. Qed.

Lemma SF2Q_normal_pos (lo hi : Z) (x : spec_float) :
  normal_between lo hi x -> (0 < SF2Q x)%Q.
Proof.
  intros (m & e & -> & _). rewrite SF2Q_normal.
  apply Qmult_lt_0_compat; [reflexivity|apply Qpower2_pos].
Qed.

(** The product of two normal floats. *)
Lemma SFmul_value (lo hi lo' hi' : Z) (x y : spec_float) :
  normal_between lo hi x -> normal_between lo' hi' y ->
  -1100 <= lo + lo' -> hi + hi' <= 800 ->
  normal_between (lo + lo' + 52) (hi + hi' + 54) (SF64mul x y)
  /\ within eps (SF2Q (SF64mul x y)) (SF2Q x * SF2Q y).
Proof.
  intros (mx & ex & -> & Bx & Ex) (my & ey & -> & By & Ey) Lo Hi.
  unfold SF64mul, SFmul. cbn [xorb].
  assert (BM : 2 ^ 104 <= Z.pos (mx * my) < 2 ^ 106).
  { rewrite Pos2Z.inj_mul.
    change (2 ^ 104) with (2 ^ 52 * 2 ^ 52). change (2 ^ 106) with (2 ^ 53 * 2 ^ 53).
    split; [apply Z.mul_le_mono_nonneg; lia|apply Z.mul_lt_mono_nonneg; lia]. }
  pose proof (digits_between _ 104 106 ltac:(lia) BM) as D.
  destruct (binary_round_aux_wide (mx * my) (ex + ey))
    as (m' & e' & -> & Bm & Be & RE); try lia.
  split.
  - exists m', e'. split; [reflexivity|]. split; [exact Bm|]. lia.
  - pose proof (within_of_mantissas _ m' (ex + ey) e' ltac:(lia) RE) as W.
    rewrite !SF2Q_normal. unfold within in *.
    assert (E : (inject_Z (Z.pos (mx * my)) * 2 ^ (ex + ey)
                 == inject_Z (Z.pos mx) * 2 ^ ex * (inject_Z (Z.pos my) * 2 ^ ey))%Q).
    { rewrite Pos2Z.inj_mul, inject_Z_mult, Qpower_plus by discriminate. ring. }
    rewrite <- E. exact W.
Qed.

Lemma binary_round_wide (M : positive) (e : Z) :
  53 <= Z.pos (digits2_pos M) -> -1074 <= e ->
  binary_round prec emax false M e
  = binary_round_aux prec emax false (Z.pos M) e loc_Exact.
Proof.
  intros D He. unfold binary_round.
  assert (SA : shl_align M e (fexp prec emax (Z.pos (digits2_pos M) + e)) = (M, e)).
  { unfold shl_align, fexp, SpecFloat.emin, prec, emax.
    destruct (Z.max (Z.pos (digits2_pos M) + e - 53) (3 - 1024 - 53) - e) eqn:X;
      try lia; reflexivity. }
  now rewrite SA.
Qed.

(** The sum of two normal floats. *)
Lemma SFadd_value (lo hi : Z) (x y : spec_float) :
  normal_between lo hi x -> normal_between lo hi y ->
  -1000 <= lo -> hi <= 800 ->
  normal_between lo (hi + 2) (SF64add x y)
  /\ within eps (SF2Q (SF64add x y)) (SF2Q x + SF2Q y).
Proof.
  intros (mx & ex & -> & Bx & Ex) (my & ey & -> & By & Ey) Lo Hi.
  unfold SF64add, SFadd, cond_Zopp.
  set (ez := Z.min ex ey).
  pose proof (shl_align_fst mx ex ez ltac:(unfold ez; lia)) as Ax.
  pose proof (shl_align_fst my ey ez ltac:(unfold ez; lia)) as Ay.
  set (A := fst (shl_align mx ex ez)) in *.
  set (B := fst (shl_align my ey ez)) in *.
  cbn [Z.add binary_normalize]. set (M := (A + B)%positive).
  assert (EM : Z.pos M = Z.pos mx * 2 ^ (ex - ez) + Z.pos my * 2 ^ (ey - ez))
    by (unfold M; rewrite Pos2Z.inj_add; lia).
  assert (Px : 1 <= 2 ^ (ex - ez) <= 2 ^ (hi - ez)).
  { split; [apply (Z.pow_le_mono_r 2 0); unfold ez; lia|].
    apply Z.pow_le_mono_r; unfold ez; lia. }
  assert (Py : 1 <= 2 ^ (ey - ez) <= 2 ^ (hi - ez)).
  { split; [apply (Z.pow_le_mono_r 2 0); unfold ez; lia|].
    apply Z.pow_le_mono_r; unfold ez; lia. }
  assert (BM : 2 ^ 52 <= Z.pos M < 2 ^ (54 + (hi - ez))).
  { rewrite EM. split.
    { assert (Z.pos mx * 1 <= Z.pos mx * 2 ^ (ex - ez))
        by (apply Z.mul_le_mono_nonneg_l; lia).
      assert (0 <= Z.pos my * 2 ^ (ey - ez)) by (apply Z.mul_nonneg_nonneg; lia).
      lia. }
    rewrite Z.pow_add_r by (unfold ez; lia).
    change (2 ^ 54) with (2 ^ 53 + 2 ^ 53).
    assert (Z.pos mx * 2 ^ (ex - ez) < 2 ^ 53 * 2 ^ (ex - ez))
      by (apply Z.mul_lt_mono_pos_r; lia).
    assert (2 ^ 53 * 2 ^ (ex - ez) <= 2 ^ 53 * 2 ^ (hi - ez))
      by (apply Z.mul_le_mono_nonneg_l; lia).
    assert (Z.pos my * 2 ^ (ey - ez) < 2 ^ 53 * 2 ^ (ey - ez))
      by (apply Z.mul_lt_mono_pos_r; lia).
    assert (2 ^ 53 * 2 ^ (ey - ez) <= 2 ^ 53 * 2 ^ (hi - ez))
      by (apply Z.mul_le_mono_nonneg_l; lia).
    rewrite Z.mul_add_distr_r. lia. }
  pose proof (digits_between M 52 _ ltac:(lia) BM) as D.
  rewrite binary_round_wide by (unfold ez; lia).
  destruct (binary_round_aux_wide M ez)
    as (m' & e' & -> & Bm & Be & RE); try (unfold ez; lia).
  split.
  - exists m', e'. split; [reflexivity|]. split; [exact Bm|]. unfold ez in *; lia.
  - pose proof (within_of_mantissas _ m' ez e' ltac:(lia) RE) as W.
    rewrite !SF2Q_normal. unfold within in *.
    assert (E : (inject_Z (Z.pos M) * 2 ^ ez
                 == inject_Z (Z.pos mx) * 2 ^ ex + inject_Z (Z.pos my) * 2 ^ ey)%Q).
    { rewrite EM, inject_Z_plus, !inject_Z_mult.
      rewrite (Qpower2_shift ez ex), (Qpower2_shift ez ey) by (unfold ez; lia).
      ring. }
    rewrite <- E. exact W.
Qed.

(** The quotient of two normal floats, with its rounding error: the
    mantissas are compared as integers, [e0] is the exponent of the
    integer quotient of [m1 * 2^53] by [m2]. *)
Lemma SFdiv_normal_error (m1 m2 : positive) (e1 e2 : Z) :
  2 ^ 52 <= Z.pos m1 < 2 ^ 53 -> 2 ^ 52 <= Z.pos m2 < 2 ^ 53 ->
  -400 <= e1 <= 400 -> -400 <= e2 <= 400 ->
  exists (m : positive) (e : Z),
    SF64div (S754_finite false m1 e1) (S754_finite false m2 e2)
    = S754_finite false m e
    /\ 2 ^ 52 <= Z.pos m < 2 ^ 53
    /\ e1 - e2 - 53 <= e <= e1 - e2 - 51
    /\ (2 ^ 52 - 1) * (Z.pos m1 * 2 ^ 53)
       <= 2 ^ 52 * (Z.pos m * 2 ^ (e - (e1 - e2 - 53)) * Z.pos m2)
       <= (2 ^ 52 + 1) * (Z.pos m1 * 2 ^ 53).
Proof.
  intros B1 B2 E1 E2.
  unfold SF64div, SFdiv, SFdiv_core_binary, Zdigits2.
  rewrite (Zdigits2_unique m1 53), (Zdigits2_unique m2 53) by (try lia; assumption).
  unfold fexp, SpecFloat.emin, prec, emax.
  replace (Z.min (Z.max (53 + e1 - (53 + e2) - 53) (3 - 1024 - 53)) (e1 - e2))
    with (e1 - e2 - 53) by lia.
  replace (e1 - e2 - (e1 - e2 - 53)) with 53 by lia.
  rewrite Z.shiftl_mul_pow2 by lia.
  pose proof (Z_div_mod (Z.pos m1 * 2 ^ 53) (Z.pos m2) eq_refl) as D.
  destruct (Z.div_eucl (Z.pos m1 * 2 ^ 53) (Z.pos m2)) as [q r].
  destruct D as [D R]. cbn [xorb].
  set (N := Z.pos m1 * 2 ^ 53) in *.
  assert (P53 : 2 ^ 53 = 2 * 2 ^ 52) by reflexivity.
  assert (P54 : 2 ^ 54 = 4 * 2 ^ 52) by reflexivity.
  assert (Q : 2 ^ 52 <= q < 2 ^ 54).
  { unfold N in D. rewrite P53 in *. rewrite P54. revert B1 B2 D. generalize (2 ^ 52).
    intros t B1 B2 D. split.
    - destruct (Z_lt_le_dec q t) as [L|L]; [exfalso|exact L].
      assert (Z.pos m2 * (q + 1) <= Z.pos m2 * t) by (apply Z.mul_le_mono_nonneg_l; lia).
      assert (Z.pos m2 * t < 2 * t * t) by nia.
      assert (2 * t * t <= Z.pos m1 * (2 * t)) by nia.
      lia.
    - destruct (Z_lt_le_dec q (4 * t)) as [L|L]; [exact L|exfalso].
      assert (Z.pos m2 * (4 * t) <= Z.pos m2 * q) by (apply Z.mul_le_mono_nonneg_l; lia).
      assert (4 * t * t <= Z.pos m2 * (4 * t)) by nia.
      assert (Z.pos m1 * (2 * t) < 4 * t * t) by nia.
      lia. }
  set (e' := e1 - e2 - 53). set (l := new_location (Z.pos m2) r).
  destruct q as [|pq|pq]; try lia.
  destruct (Z_lt_le_dec (Z.pos pq) (2 ^ 53)) as [S|S].
  - (* a quotient of 53 bits *)
    pose proof (binary_round_aux_normal false (Z.pos pq) e' l _ _
                  (shr_fexp_53 pq e' l ltac:(lia) ltac:(unfold e'; lia))) as A.
    rewrite shr_m_record_of_loc in A.
    specialize (A ltac:(lia) ltac:(unfold e'; lia)). cbv zeta in A.
    unfold prec, emax in A. rewrite A.
    pose proof (round_nearest_even_bounds (Z.pos pq)
                  (loc_of_shr_record (shr_record_of_loc (Z.pos pq) l))) as R'.
    set (rr := round_nearest_even (Z.pos pq)
                 (loc_of_shr_record (shr_record_of_loc (Z.pos pq) l))) in *.
    pose proof (round_error (2 ^ 52) (Z.pos m2) N (Z.pos pq) r rr
                  ltac:(lia) ltac:(lia) D R ltac:(lia) R') as RE.
    destruct (Z.ltb_spec rr (2 ^ 53)).
    + exists (Z.to_pos rr), e'. rewrite Z2Pos.id by lia.
      split; [reflexivity|]. split; [lia|]. split; [unfold e'; lia|].
      replace (e' - e') with 0 by lia. change (2 ^ 0) with 1.
      rewrite Z.mul_1_r. exact RE.
    + exists (2 ^ 52)%positive, (e' + 1).
      split; [reflexivity|].
      split; [split; vm_compute; (reflexivity || discriminate)|].
      split; [unfold e'; lia|].
      replace (e' + 1 - e') with 1 by lia.
      assert (Er : rr = 2 ^ 53) by lia. rewrite Er in RE. exact RE.
  - (* a quotient of 54 bits *)
    pose proof (binary_round_aux_normal false (Z.pos pq) e' l _ _
                  (shr_fexp_54 pq e' l ltac:(lia) ltac:(unfold e'; lia))) as A.
    rewrite shr_m_shr_1 in A.
    assert (H2 : 2 ^ 52 <= Z.pos pq / 2 < 2 ^ 53).
    { split.
      - apply Z.div_le_lower_bound; [lia|]. change (2 * 2 ^ 52) with (2 ^ 53). lia.
      - apply Z.div_lt_upper_bound; [lia|]. change (2 * 2 ^ 53) with (2 ^ 54). lia. }
    specialize (A H2 ltac:(unfold e'; lia)). cbv zeta in A.
    unfold prec, emax in A. rewrite A.
    pose proof (round_nearest_even_bounds (Z.pos pq / 2)
                  (loc_of_shr_record (shr_1 (shr_record_of_loc (Z.pos pq) l)))) as R'.
    set (rr := round_nearest_even (Z.pos pq / 2)
                 (loc_of_shr_record (shr_1 (shr_record_of_loc (Z.pos pq) l)))) in *.
    pose proof (Z.div_mod (Z.pos pq) 2 ltac:(lia)) as DM2.
    pose proof (Z.mod_pos_bound (Z.pos pq) 2 ltac:(lia)) as BM2.
    set (t := Z.pos pq / 2) in *.
    assert (D' : N = 2 * Z.pos m2 * t + (N - 2 * Z.pos m2 * t)) by ring.
    assert (R2 : 0 <= N - 2 * Z.pos m2 * t < 2 * Z.pos m2).
    { remember (Z.pos pq mod 2) as b eqn:Eb.
      assert (X : Z.pos m2 * Z.pos pq = 2 * Z.pos m2 * t + Z.pos m2 * b).
      { transitivity (Z.pos m2 * (2 * t + b)); [f_equal; exact DM2|ring]. }
      assert (Hb : b = 0 \/ b = 1) by lia.
      destruct Hb as [Hb|Hb]; rewrite Hb in X; lia. }
    pose proof (round_error (2 ^ 52) (2 * Z.pos m2) N t _ rr
                  ltac:(lia) ltac:(lia) D' R2 ltac:(lia) R') as RE.
    destruct (Z.ltb_spec rr (2 ^ 53)).
    + exists (Z.to_pos rr), (e' + 1). rewrite Z2Pos.id by lia.
      split; [reflexivity|]. split; [lia|]. split; [unfold e'; lia|].
      replace (e' + 1 - e') with 1 by lia. change (2 ^ 1) with 2.
      replace (rr * 2 * Z.pos m2) with (rr * (2 * Z.pos m2)) by ring.
      exact RE.
    + exists (2 ^ 52)%positive, (e' + 1 + 1).
      split; [reflexivity|].
      split; [split; vm_compute; (reflexivity || discriminate)|].
      split; [unfold e'; lia|].
      replace (e' + 1 + 1 - e') with 2 by lia.
      assert (Er : rr = 2 ^ 53) by lia. rewrite Er in RE.
      replace (Z.pos (2 ^ 52) * 2 ^ 2 * Z.pos m2) with (2 ^ 53 * (2 * Z.pos m2))
        by (change (Z.pos (2 ^ 52)) with (2 ^ 52); change (2 ^ 53) with (2 ^ 52 * 2);
            change (2 ^ 2) with 4; ring).
      exact RE.
Qed.

(** The quotient of two normal floats. *)
Lemma SFdiv_value (lo hi lo' hi' : Z) (x y : spec_float) :
  normal_between lo hi x -> normal_between lo' hi' y ->
  -400 <= lo -> hi <= 400 -> -400 <= lo' -> hi' <= 400 ->
  normal_between (lo - hi' - 53) (hi - lo' - 51) (SF64div x y)
  /\ within eps (SF2Q (SF64div x y)) (SF2Q x / SF2Q y).
Proof.
  intros (m1 & e1 & -> & B1 & E1) (m2 & e2 & -> & B2 & E2) L1 H1 L2 H2.
  destruct (SFdiv_normal_error m1 m2 e1 e2 B1 B2 ltac:(lia) ltac:(lia))
    as (m & e & -> & Bm & Be & [Lo Hi]).
  split.
  - exists m, e. split; [reflexivity|]. split; [exact Bm|]. lia.
  - rewrite !SF2Q_normal. unfold within, eps.
    set (e0 := e1 - e2 - 53) in *.
    rewrite (Qpower2_shift e0 e) by lia.
    assert (X1 : (2 ^ e1 == inject_Z (2 ^ 53) * 2 ^ e0 * 2 ^ e2)%Q).
    { rewrite Zpower_Qpower by lia. change (inject_Z 2) with 2%Q.
      rewrite <- !Qpower_plus by discriminate.
      replace (53 + e0 + e2) with e1 by (unfold e0; lia). reflexivity. }
    rewrite X1.
    pose proof (Qpower2_pos e0) as W0. pose proof (Qpower2_pos e2) as W2.
    rewrite Zle_Qle in Lo, Hi. rewrite !inject_Z_mult in Lo, Hi.
    set (a := inject_Z (Z.pos m1)) in *. set (b := inject_Z (Z.pos m2)) in *.
    set (p := inject_Z (Z.pos m)) in *.
    set (s := inject_Z (2 ^ (e - e0))) in *.
    set (c := inject_Z (2 ^ 53)) in *.
    assert (Hb : (0 < b)%Q) by reflexivity.
    change (inject_Z (2 ^ 52 - 1)) with (4503599627370495 # 1)%Q in Lo.
    change (inject_Z (2 ^ 52 + 1)) with (4503599627370497 # 1)%Q in Hi.
    change (inject_Z (2 ^ 52)) with (4503599627370496 # 1)%Q in Lo, Hi.
    change (1 # 2 ^ 52)%Q with (1 # 4503599627370496)%Q.
    set (w0 := (2 ^ e0)%Q) in *. set (w2 := (2 ^ e2)%Q) in *.
    assert (Ez : (a * (c * w0 * w2) / (b * w2) == a * c / b * w0)%Q)
      by (field; split; lra).
    rewrite Ez.
    set (z := (a * c / b)%Q).
    assert (Zb : (a * c == z * b)%Q) by (unfold z; field; lra).
    rewrite Zb in Lo, Hi.
    assert (Lo' : ((4503599627370495 # 1) * z <= (4503599627370496 # 1) * (p * s))%Q).
    { apply (Qmult_le_r _ _ b Hb). lra. }
    assert (Hi' : ((4503599627370496 # 1) * (p * s) <= (4503599627370497 # 1) * z)%Q).
    { apply (Qmult_le_r _ _ b Hb). lra. }
    assert (Lo2 : ((4503599627370495 # 1) * z * w0
                   <= (4503599627370496 # 1) * (p * s) * w0)%Q)
      by (apply Qmult_le_compat_r; [exact Lo'|lra]).
    assert (Hi2 : ((4503599627370496 # 1) * (p * s) * w0
                   <= (4503599627370497 # 1) * z * w0)%Q)
      by (apply Qmult_le_compat_r; [exact Hi'|lra]).
    split; lra.
Qed.

(** An integer below [2^53] is a normal float of its own value. *)
Lemma of_int_value (k : Z) :
  0 < k < 2 ^ 53 ->
  normal_between (-52) 0 (Prim2SF (of_int k))
  /\ (SF2Q (Prim2SF (of_int k)) == inject_Z k)%Q.
Proof.
  intros K. cbn [of_int binary64].
  destruct (of_int_normal k K) as (m & e & -> & B & E & V).
  split; [exists m, e; repeat split; lia|].
  rewrite SF2Q_normal, V, inject_Z_mult, Zpower_Qpower by lia.
  change (inject_Z 2) with 2%Q. rewrite <- Qmult_assoc, <- Qpower_plus by discriminate.
  replace (- e + e) with 0 by lia. change (2 ^ 0)%Q with 1%Q. ring.
Qed.

Lemma within_ext (t x y y' : Q) : (y == y')%Q -> within t x y -> within t x y'.
Proof. unfold within. intros E W. rewrite <- E. exact W. Qed.

(** The quotient of two counts below [2^53], as binary64 returns it: a
    normal float within one part in [2^52] of the rational quotient. *)
Lemma binary64_rate_value (k n : Z) :
  0 < k < 2 ^ 53 -> 0 < n < 2 ^ 53 ->
  normal_between (-105) 1 (Prim2SF (Np.true_divide k n))
  /\ within eps (float_value (Np.true_divide k n)) (inject_Z k / inject_Z n).
Proof.
  intros K N. unfold float_value, Np.true_divide.
  change (div (of_int k) (of_int n)) with (of_int k / of_int n)%float.
  rewrite div_spec.
  destruct (of_int_value k K) as (Nk & Vk). destruct (of_int_value n N) as (Nn & Vn).
  destruct (SFdiv_value _ _ _ _ _ _ Nk Nn) as (Nd & W); try lia.
  split; [exact Nd|].
  apply (within_ext _ _ _ _ (Qdiv_comp _ _ Vk _ _ Vn)). exact W.
Qed.

(** ** The harmonic mean through four roundings *)

Lemma Qdiv_le_cross (a b c d : Q) :
  (0 <= a)%Q -> (a <= c)%Q -> (0 < d)%Q -> (d <= b)%Q -> (a / b <= c / d)%Q.
Proof.
  intros A AC D DB.
  assert (B : (0 < b)%Q) by lra.
  apply Qle_shift_div_r; [exact B|].
  assert (E : (c / d * b == c * b / d)%Q) by (field; lra). rewrite E.
  apply Qle_shift_div_l; [exact D|].
  assert (a * d <= c * d)%Q by (apply Qmult_le_compat_r; lra).
  assert (c * d <= c * b)%Q
    by (rewrite (Qmult_comm c d), (Qmult_comm c b); apply Qmult_le_compat_r; lra).
  lra.
Qed.

Lemma Qmult_le_compat_l_nonneg (a b c : Q) :
  (0 <= c)%Q -> (a <= b)%Q -> (c * a <= c * b)%Q.
Proof.
  intros C AB. rewrite (Qmult_comm c a), (Qmult_comm c b).
  apply Qmult_le_compat_r; assumption.
Qed.

(** [f] is [2 * ((p * r) / (p + r))] with each of the four operations
    rounded to within [u] above and [l] below. *)
Lemma harmonic_mean_rounded (l u p r t1 t2 t3 f : Q) :
  (0 < l)%Q -> (l <= u)%Q -> (0 < p)%Q -> (0 < r)%Q ->
  (l * (p * r) <= t1 <= u * (p * r))%Q ->
  (l * (p + r) <= t2 <= u * (p + r))%Q ->
  (l * (t1 / t2) <= t3 <= u * (t1 / t2))%Q ->
  (l * (2 * t3) <= f <= u * (2 * t3))%Q ->
  (l * (l * (l / u)) * (2 * (p * r / (p + r))) <= f
   <= u * (u * (u / l)) * (2 * (p * r / (p + r))))%Q.
Proof.
  intros L LU P R [A1 B1] [A2 B2] [A3 B3] [A4 B4].
  assert (U : (0 < u)%Q) by lra.
  assert (PR : (0 < p * r)%Q) by (apply Qmult_lt_0_compat; assumption).
  assert (S : (0 < p + r)%Q) by lra.
  assert (LPR : (0 < l * (p * r))%Q) by (apply Qmult_lt_0_compat; assumption).
  assert (LS : (0 < l * (p + r))%Q) by (apply Qmult_lt_0_compat; assumption).
  assert (US : (0 < u * (p + r))%Q) by (apply Qmult_lt_0_compat; assumption).
  set (h := (p * r / (p + r))%Q).
  assert (D1 : (l / u * h <= t1 / t2)%Q).
  { assert (E : (l / u * h == l * (p * r) / (u * (p + r)))%Q)
      by (unfold h; field; split; lra).
    rewrite E. apply Qdiv_le_cross; lra. }
  assert (D2 : (t1 / t2 <= u / l * h)%Q).
  { assert (E : (u / l * h == u * (p * r) / (l * (p + r)))%Q)
      by (unfold h; field; split; lra).
    rewrite E. apply Qdiv_le_cross; lra. }
  assert (T3l : (l * (l / u * h) <= t3)%Q).
  { apply Qle_trans with (l * (t1 / t2))%Q; [|exact A3].
    apply Qmult_le_compat_l_nonneg; lra. }
  assert (T3u : (t3 <= u * (u / l * h))%Q).
  { apply Qle_trans with (u * (t1 / t2))%Q; [exact B3|].
    apply Qmult_le_compat_l_nonneg; lra. }
  split.
  - apply Qle_trans with (l * (2 * t3))%Q; [|exact A4].
    assert (E : (l * (l * (l / u)) * (2 * h) == l * (2 * (l * (l / u * h))))%Q)
      by (field; lra).
    rewrite E. apply Qmult_le_compat_l_nonneg; lra.
  - apply Qle_trans with (u * (2 * t3))%Q; [exact B4|].
    assert (E : (u * (u * (u / l)) * (2 * h) == u * (2 * (u * (u / l * h))))%Q)
      by (field; lra).
    rewrite E. apply Qmult_le_compat_l_nonneg; lra.
Qed.

Lemma four_roundings_below :
  (1 - f1_tolerance <= (1 - eps) * ((1 - eps) * ((1 - eps) / (1 + eps))))%Q.
Proof. apply Qle_bool_iff. vm_compute. reflexivity. Qed.

Lemma four_roundings_above :
  ((1 + eps) * ((1 + eps) * ((1 + eps) / (1 - eps))) <= 1 + f1_tolerance)%Q.
Proof. apply Qle_bool_iff. vm_compute. reflexivity. Qed.

(** The 'f1' of two normal floats [p] and [r], as binary64 computes
    [2 * ((p * r) / (p + r))]: a normal float within [f1_tolerance] of the
    harmonic mean of the values of [p] and [r]. *)
Lemma binary64_f1_value (p r : float) :
  normal_between (-105) 1 (Prim2SF p) -> normal_between (-105) 1 (Prim2SF r) ->
  normal_between (-1000) 800
    (Prim2SF (mul (of_int 2) (div (mul p r) (add p r))))
  /\ within f1_tolerance
       (float_value (mul (of_int 2) (div (mul p r) (add p r))))
       (2 * (float_value p * float_value r / (float_value p + float_value r))).
Proof.
  intros Np Nr. unfold float_value. cbn [mul div add binary64].
  rewrite mul_spec, div_spec, mul_spec, add_spec.
  destruct (of_int_value 2 ltac:(lia)) as (N2 & V2).
  destruct (SFmul_value _ _ _ _ _ _ Np Nr) as (N1 & W1); try lia.
  destruct (SFadd_value _ _ _ _ Np Nr) as (Ns & Ws); try lia.
  destruct (SFdiv_value _ _ _ _ _ _ N1 Ns) as (Nd & Wd); try lia.
  destruct (SFmul_value _ _ _ _ _ _ N2 Nd) as (Nf & Wf); try lia.
  split.
  - destruct Nf as (m & e & -> & B & E). exists m, e. repeat split; lia.
  - pose proof (SF2Q_normal_pos _ _ _ Np) as Pp.
    pose proof (SF2Q_normal_pos _ _ _ Nr) as Pr.
    unfold within in *.
    rewrite V2 in Wf. change (inject_Z 2) with 2%Q in Wf.
    assert (L : (0 < 1 - eps)%Q) by reflexivity.
    assert (LU : (1 - eps <= 1 + eps)%Q) by (apply Qle_bool_iff; reflexivity).
    pose proof (harmonic_mean_rounded _ _ _ _ _ _ _ _ L LU Pp Pr W1 Ws Wd Wf) as [A B].
    set (h := (2 * (SF2Q (Prim2SF p) * SF2Q (Prim2SF r)
                    / (SF2Q (Prim2SF p) + SF2Q (Prim2SF r))))%Q) in *.
    assert (H : (0 <= h)%Q).
    { unfold h. apply Qmult_le_0_compat; [discriminate|].
      apply Qle_shift_div_l; [lra|]. rewrite Qmult_0_l.
      apply Qlt_le_weak, Qmult_lt_0_compat; assumption. }
    split.
    + apply Qle_trans with ((1 - eps) * ((1 - eps) * ((1 - eps) / (1 + eps))) * h)%Q;
        [|exact A].
      apply Qmult_le_compat_r; [exact four_roundings_below|exact H].
    + apply Qle_trans with ((1 + eps) * ((1 + eps) * ((1 + eps) / (1 - eps))) * h)%Q;
        [exact B|].
      apply Qmult_le_compat_r; [exact four_roundings_above|exact H].
Qed.

Lemma positive_rate_has_positive_count (k n : Z) :
  0 <= k -> 0 <= n < 2 ^ 53 ->
  (0 <? Np.true_divide (F:=float) k n)%float = true -> 0 < k.
Proof.
  intros K N P. destruct (Z.eq_dec k 0) as [->|NZ]; [exfalso|lia].
  destruct (Z.eq_dec n 0) as [->|NN].
  - rewrite zero_over_zero in P. discriminate P.
  - rewrite binary64_zero_rate in P by lia. discriminate P.
Qed.

(** ** The harmonic mean, as returned *)

(** C9, amended. On every valid input of fewer than 2^53 cases where the
    returned 'precision' and 'recall' are strictly positive, the 'f1' the
    function returns in binary64 is a positive finite number within a
    relative 2^-49 of the harmonic mean of the two returned values; so it
    lies between them up to that rounding error:
    (1 - 2^-49) min(precision, recall) <= f1 <= (1 + 2^-49) max(precision,
    recall).  It can exceed both, by the rounding of its four
    operations. *)
Theorem f1_between_precision_and_recall_up_to_rounding
    (observed predicted : list Z) (d : dict float) (p r : float) :
  Spec.valid observed predicted = true ->
  Spec.N observed < 2 ^ 53 ->
  calculate_accuracy observed predicted = Returned d ->
  dict_get "precision" d = Some p ->
  dict_get "recall" d = Some r ->
  (0 <? p)%float = true -> (0 <? r)%float = true ->
  exists (f : float) (m : positive) (e : Z),
    dict_get "f1" d = Some f
    /\ Prim2SF f = S754_finite false m e
    /\ within f1_tolerance (float_value f)
         (2 * (float_value p * float_value r / (float_value p + float_value r)))
    /\ ((1 - f1_tolerance) * Qmin (float_value p) (float_value r)
        <= float_value f
        <= (1 + f1_tolerance) * Qmax (float_value p) (float_value r))%Q.
Proof.
  intros V N D Gp Gr Hp Hr. apply valid_inv in V as (E & _).
  unfold Spec.N in N.
  rewrite (calculate_accuracy_report _ _ E) in D.
  apply (f_equal (fun o => match o with Returned d' => d' | Raised _ => [] end)) in D.
  cbv beta iota in D. subst d.
  report_fields.
  cbn [report dict_get String.eqb Ascii.eqb Bool.eqb counts_of n_cases
       n_observed_positives n_observed_negatives n_predicted_positives
       n_predicted_negatives n_true_positives n_false_positives
       n_true_negatives n_matches] in Gp, Gr.
  apply (f_equal (fun v => match v with Some x => x | None => nan end)) in Gp, Gr.
  cbv beta iota in Gp, Gr.
  destruct (predicted_margins observed predicted E) as (PM & _).
  pose proof (sum_mask_bounds observed 1) as B1.
  pose proof (sum_mask_bounds predicted 1) as C1. rewrite <- E in C1.
  fold (observed_positives observed) in B1.
  fold (predicted_positives predicted) in C1.
  pose proof (count_bounds (fun o p => (p =? 1) && (o =? 1)) observed predicted) as BT.
  pose proof (count_bounds (fun o p => (p =? 1) && negb (o =? 1)) observed predicted) as BF.
  pose proof (true_positives_le_observed observed predicted) as LT.
  set (tp := Spec.count (fun o p => (p =? 1) && (o =? 1)) observed predicted) in *.
  set (fp := Spec.count (fun o p => (p =? 1) && negb (o =? 1)) observed predicted) in *.
  set (op := Np.sum (observed_positives observed)) in *.
  assert (T0 : 0 < tp).
  { apply (positive_rate_has_positive_count tp (tp + fp)); try lia.
    rewrite Gp. exact Hp. }
  destruct (binary64_rate_value tp (tp + fp)) as (Np & _); try lia.
  destruct (binary64_rate_value tp op) as (Nr & _); try lia.
  rewrite Gp in Np |- *. rewrite Gr in Nr |- *.
  destruct (binary64_f1_value p r Np Nr) as ((m & e & F & _) & W).
  exists (mul (of_int 2) (div (mul p r) (add p r))), m, e.
  split; [reflexivity|]. split; [exact F|]. split; [exact W|].
  pose proof (SF2Q_normal_pos _ _ _ Np) as Pp.
  pose proof (SF2Q_normal_pos _ _ _ Nr) as Pr.
  fold (float_value p) in Pp. fold (float_value r) in Pr.
  destruct (harmonic_mean_between _ _ Pp Pr) as [HL HU].
  unfold within in W. destruct W as [WL WU].
  split.
  - apply Qle_trans with (2 := WL).
    apply Qmult_le_compat_l_nonneg; [discriminate|exact HL].
  - apply Qle_trans with (1 := WU).
    apply Qmult_le_compat_l_nonneg; [discriminate|exact HU].
Qed.

Lemma f1_between_precision_and_recall_up_to_rounding_demo :
  exists (d : dict float) (p r f : float),
    calculate_accuracy [1; 1; 1; 1; 1; 0; 0] [1; 1; 1; 1; 0; 1; 0] = Returned d
    /\ dict_get "precision" d = Some p
    /\ dict_get "recall" d = Some r
    /\ dict_get "f1" d = Some f
    /\ ((1 - f1_tolerance) * Qmin (float_value p) (float_value r)
        <= float_value f
        <= (1 + f1_tolerance) * Qmax (float_value p) (float_value r))%Q.
Proof.
  pose proof (calculate_accuracy_report (F:=float)
                [1; 1; 1; 1; 1; 0; 0] [1; 1; 1; 1; 0; 1; 0] eq_refl) as D.
  destruct (f1_between_precision_and_recall_up_to_rounding
              [1; 1; 1; 1; 1; 0; 0] [1; 1; 1; 1; 0; 1; 0] _
              (Np.true_divide 4 5) (Np.true_divide 4 5)
              eq_refl eq_refl D eq_refl eq_refl eq_refl eq_refl)
    as (f & m & e & F1 & _ & _ & B).
  exists (report (counts_of [1; 1; 1; 1; 1; 0; 0] [1; 1; 1; 1; 0; 1; 0])),
         (Np.true_divide 4 5), (Np.true_divide 4 5), f.
  split; [exact D|]. split; [reflexivity|]. split; [reflexivity|].
  split; [exact F1|exact B].
Defined.

Lemma within_zero (t : Q) : within t 0 0.
Proof. unfold within. split; ring_simplify; apply Qle_refl. Qed.

(** A count out of at least as many, as binary64 returns the quotient:
    a number of [0, 1] within one part in [2^52] of the rational. *)
Lemma binary64_ratio_value (k n : Z) :
  0 <= k <= n -> 0 < n < 2 ^ 53 ->
  (0 <=? Np.true_divide k n)%float = true
  /\ (Np.true_divide k n <=? 1)%float = true
  /\ within eps (float_value (Np.true_divide k n)) (inject_Z k / inject_Z n).
Proof.
  intros K N.
  destruct (binary64_rate_in_unit_interval k n K N) as (A & B).
  split; [exact A|]. split; [exact B|].
  destruct (Z.eq_dec k 0) as [->|NZ].
  - rewrite binary64_zero_rate by lia.
    apply (within_ext _ _ 0); [|apply within_zero].
    unfold Qdiv. rewrite Qmult_0_l. reflexivity.
  - apply binary64_rate_value; lia.
Qed.

(** ** The predictive values, as returned *)

(** C6. On every valid input 'positive_predictive_value' is the very value
    of 'recall', TP divided by the number of observed positives, and
    'negative_predictive_value' the very value of 'specificity', TN divided
    by the number of observed negatives.  In binary64 (fewer than 2^53
    cases) each is the quotient binary64 returns for the two counts:
    not-a-number when the denominator is zero, otherwise a number of
    [0, 1] within a relative 2^-52 of the rational quotient.  In exact
    arithmetic each is that rational (not-a-number when the denominator
    is zero). *)
Theorem predictive_values_are_recall_and_specificity (observed predicted : list Z) :
  Spec.valid observed predicted = true ->
  (exists (d : dict float) (v w : float),
     calculate_accuracy observed predicted = Returned d
     /\ dict_get "positive_predictive_value" d = Some v
     /\ dict_get "recall" d = Some v
     /\ dict_get "negative_predictive_value" d = Some w
     /\ dict_get "specificity" d = Some w
     /\ v = Np.true_divide (Spec.TP observed predicted) (Spec.P observed)
     /\ w = Np.true_divide (Spec.TN observed predicted) (Spec.N_ observed)
     /\ (Spec.N observed < 2 ^ 53 ->
         (if Spec.P observed =? 0 then v = nan
          else (0 <=? v)%float = true /\ (v <=? 1)%float = true
               /\ within eps (float_value v)
                    (inject_Z (Spec.TP observed predicted)
                     / inject_Z (Spec.P observed)))
         /\ (if Spec.N_ observed =? 0 then w = nan
             else (0 <=? w)%float = true /\ (w <=? 1)%float = true
                  /\ within eps (float_value w)
                       (inject_Z (Spec.TN observed predicted)
                        / inject_Z (Spec.N_ observed)))))
  /\ (exists (d : dict xnum) (x y : xnum),
        calculate_accuracy observed predicted = Returned d
        /\ dict_get "positive_predictive_value" d = Some x
        /\ dict_get "recall" d = Some x
        /\ dict_get "negative_predictive_value" d = Some y
        /\ dict_get "specificity" d = Some y
        /\ (if Spec.P observed =? 0 then x = XNaN
            else exists q : Q,
                   x = XFin q
                   /\ (q == inject_Z (Spec.TP observed predicted)
                            / inject_Z (Spec.P observed))%Q)
        /\ (if Spec.N_ observed =? 0 then y = XNaN
            else exists q : Q,
                   y = XFin q
                   /\ (q == inject_Z (Spec.TN observed predicted)
                            / inject_Z (Spec.N_ observed))%Q)).
Proof.
  intros V. apply valid_inv in V as (E & _).
  pose proof (true_positives_le_observed observed predicted) as LT.
  pose proof (true_negatives_le_observed observed predicted E) as LN.
  pose proof (sum_mask_bounds observed 1) as B1.
  pose proof (sum_mask_bounds observed 0) as B0.
  pose proof (count_bounds (fun o p => (p =? 1) && (o =? 1)) observed predicted) as BT.
  pose proof (count_bounds (fun o p => (p =? 0) && (o =? 0)) observed predicted) as BN.
  unfold observed_positives, observed_negatives in LT, LN.
  rewrite sum_eq_scalar in LT, LN, B1, B0.
  fold (Spec.P observed) in LT, B1. fold (Spec.N_ observed) in LN, B0.
  fold (Spec.TP observed predicted) in LT, BT.
  fold (Spec.TN observed predicted) in LN, BN.
  split.
  - rewrite (calculate_accuracy_report _ _ E).
    do 3 eexists. split; [reflexivity|]. report_fields.
    unfold observed_positives, observed_negatives. rewrite !sum_eq_scalar.
    fold (Spec.P observed) (Spec.N_ observed).
    fold (Spec.TP observed predicted) (Spec.TN observed predicted).
    do 6 (split; [reflexivity|]).
    unfold Spec.N. intros N. split.
    + destruct (Z.eqb_spec (Spec.P observed) 0) as [Z0|NZ].
      * rewrite Z0 in *. replace (Spec.TP observed predicted) with 0 by lia.
        apply zero_over_zero.
      * apply binary64_ratio_value; lia.
    + destruct (Z.eqb_spec (Spec.N_ observed) 0) as [Z0|NZ].
      * rewrite Z0 in *. replace (Spec.TN observed predicted) with 0 by lia.
        apply zero_over_zero.
      * apply binary64_ratio_value; lia.
  - rewrite (calculate_accuracy_report _ _ E).
    do 3 eexists. split; [reflexivity|]. report_fields.
    unfold observed_positives, observed_negatives. rewrite !sum_eq_scalar.
    fold (Spec.P observed) (Spec.N_ observed).
    fold (Spec.TP observed predicted) (Spec.TN observed predicted).
    do 4 (split; [reflexivity|]). split.
    + destruct (Z.eqb_spec (Spec.P observed) 0) as [Z0|NZ].
      * rewrite Z0 in *. replace (Spec.TP observed predicted) with 0 by lia.
        reflexivity.
      * unfold Np.true_divide. rewrite exact_rate by lia.
        eexists. split; [reflexivity|]. apply Qred_correct.
    + destruct (Z.eqb_spec (Spec.N_ observed) 0) as [Z0|NZ].
      * rewrite Z0 in *. replace (Spec.TN observed predicted) with 0 by lia.
        reflexivity.
      * unfold Np.true_divide. rewrite exact_rate by lia.
        eexists. split; [reflexivity|]. apply Qred_correct.
Qed.

Lemma predictive_values_are_recall_and_specificity_demo :
  exists (d : dict float) (v w : float),
    calculate_accuracy demo_observed demo_predicted = Returned d
    /\ dict_get "positive_predictive_value" d = Some v
    /\ dict_get "recall" d = Some v
    /\ dict_get "negative_predictive_value" d = Some w
    /\ dict_get "specificity" d = Some w
    /\ within eps (float_value v) (3 # 4)
    /\ within eps (float_value w) (5 # 6).
Proof.
  destruct (predictive_values_are_recall_and_specificity
              demo_observed demo_predicted eq_refl)
    as ((d & v & w & D & P & R & N & S & _ & _ & B) & _).
  destruct (B eq_refl) as ((_ & _ & Wv) & (_ & _ & Ww)).
  exists d, v, w. repeat split; try assumption; [apply Wv|apply Wv|apply Ww|apply Ww].
Defined.

(** ** One minus a rate, with its error *)

Lemma within_refl (t x : Q) : (0 <= t)%Q -> (0 <= x)%Q -> within t x x.
Proof.
  intros T X. unfold within.
  assert (0 <= t * x)%Q by (apply Qmult_le_0_compat; assumption).
  split; lra.
Qed.

(** A positive integer [M] at the exponent [e], rounded to a float: a
    normal float within one part in [2^52] of [M * 2^e]. *)
Lemma binary_round_value (M : positive) (e : Z) :
  -1000 <= e -> Z.pos (digits2_pos M) + e <= 900 ->
  exists (m' : positive) (e' : Z),
    binary_round prec emax false M e = S754_finite false m' e'
    /\ 2 ^ 52 <= Z.pos m' < 2 ^ 53
    /\ within eps (inject_Z (Z.pos m') * 2 ^ e') (inject_Z (Z.pos M) * 2 ^ e).
Proof.
  intros He Hd.
  pose proof (Zdigits2_bounds M) as DM.
  set (d := Z.pos (digits2_pos M)) in *.
  assert (D0 : 0 < d) by (unfold d; lia).
  destruct (Z_le_gt_dec d 53) as [L|G].
  - unfold binary_round, fexp, SpecFloat.emin, prec, emax. fold d.
    replace (Z.max (d + e - 53) (3 - 1024 - 53)) with (d + e - 53) by lia.
    pose proof (shl_align_fst M e (d + e - 53) ltac:(lia)) as A.
    pose proof (shl_align_snd M e (d + e - 53) ltac:(lia)) as B.
    destruct (shl_align M e (d + e - 53)) as [mz ez]. cbn [fst snd] in A, B. subst ez.
    replace (e - (d + e - 53)) with (53 - d) in A by lia.
    assert (P : 2 ^ (d - 1) * 2 ^ (53 - d) = 2 ^ 52)
      by (rewrite <- Z.pow_add_r by lia; f_equal; lia).
    assert (Q : 2 ^ d * 2 ^ (53 - d) = 2 ^ 53)
      by (rewrite <- Z.pow_add_r by lia; f_equal; lia).
    assert (Ps : 0 < 2 ^ (53 - d)) by (apply Z.pow_pos_nonneg; lia).
    assert (Bz : 2 ^ 52 <= Z.pos mz < 2 ^ 53) by (rewrite A; nia).
    pose proof (binary_round_aux_normal false (Z.pos mz) (d + e - 53) loc_Exact
                  _ _ (shr_fexp_53 mz (d + e - 53) loc_Exact Bz ltac:(lia))) as R.
    cbn [shr_record_of_loc shr_m loc_of_shr_record round_nearest_even] in R.
    unfold prec, emax in R. rewrite R by lia.
    destruct (Z.ltb_spec (Z.pos mz) (2 ^ 53)); [|lia].
    exists mz, (d + e - 53). split; [reflexivity|]. split; [exact Bz|].
    assert (E : (inject_Z (Z.pos mz) * 2 ^ (d + e - 53)
                 == inject_Z (Z.pos M) * 2 ^ e)%Q).
    { rewrite A, inject_Z_mult, (Qpower2_shift (d + e - 53) e) by lia.
      replace (e - (d + e - 53)) with (53 - d) by lia. ring. }
    apply (within_ext _ _ _ _ E). apply within_refl; [discriminate|].
    apply Qmult_le_0_compat; [discriminate|apply Qlt_le_weak, Qpower2_pos].
  - rewrite binary_round_wide by (fold d; lia).
    destruct (binary_round_aux_wide M e) as (m' & e' & -> & Bm & Be & RE);
      fold d; try lia.
    exists m', e'. split; [reflexivity|]. split; [exact Bm|].
    apply within_of_mantissas; [fold d in Be; lia|exact RE].
Qed.

(** One minus a normal float [y] of at most one: zero or a normal
    float, within one part in [2^52] of the exact difference. *)
Lemma SFsub_one_value (m : positive) (e : Z) :
  2 ^ 52 <= Z.pos m < 2 ^ 53 -> -105 <= e ->
  e < -52 \/ (e = -52 /\ Z.pos m = 2 ^ 52) ->
  (SF2Q (S754_finite false m e) <= 1)%Q
  /\ within eps (SF2Q (SF64sub (Prim2SF 1) (S754_finite false m e)))
       (1 - SF2Q (S754_finite false m e)).
Proof.
  intros Bm He [L|[-> Em]].
  - assert (G : 2 ^ 53 <= 2 ^ (- e)) by (apply Z.pow_le_mono_r; lia).
    assert (V : (inject_Z (2 ^ (- e)) * 2 ^ e == 1)%Q).
    { rewrite Zpower_Qpower by lia. change (inject_Z 2) with 2%Q.
      rewrite <- Qpower_plus by discriminate.
      replace (- e + e) with 0 by lia. reflexivity. }
    pose proof (Qpower2_pos e) as W.
    rewrite SF2Q_normal. split.
    { rewrite <- V. apply Qmult_le_compat_r; [|lra].
      rewrite <- Zle_Qle. lia. }
    change (Prim2SF 1) with (S754_finite false (2 ^ 52)%positive (-52)).
    unfold SF64sub, SFsub, cond_Zopp. cbn [negb].
    rewrite Z.min_r by lia.
    pose proof (shl_align_fst (2 ^ 52)%positive (-52) e ltac:(lia)) as A.
    pose proof (shl_align_fst m e e ltac:(lia)) as B.
    set (a := fst (shl_align (2 ^ 52)%positive (-52) e)) in *.
    set (b := fst (shl_align m e e)) in *.
    replace (e - e) with 0 in B by lia. change (2 ^ 0) with 1 in B.
    assert (Pa : Z.pos a = 2 ^ (- e)).
    { rewrite A. change (Z.pos (2 ^ 52)) with (2 ^ 52).
      rewrite <- Z.pow_add_r by lia. f_equal. lia. }
    destruct (Z.pos a - Z.pos b) as [|M|M] eqn:S; try lia.
    cbn [binary_normalize].
    assert (DM : Z.pos (digits2_pos M) <= - e).
    { apply (digits_between M 0 (- e)); lia. }
    destruct (binary_round_value M e ltac:(lia) ltac:(lia))
      as (m' & e' & -> & _ & Wd).
    rewrite SF2Q_normal.
    assert (E : (inject_Z (Z.pos M) * 2 ^ e == 1 - inject_Z (Z.pos m) * 2 ^ e)%Q).
    { rewrite <- S, Pa, B, Z.mul_1_r. unfold Z.sub.
      rewrite inject_Z_plus, inject_Z_opp. rewrite <- V. ring. }
    apply (within_ext _ _ _ _ E). exact Wd.
  - assert (m = (2 ^ 52)%positive) as -> by (apply Pos2Z.inj; exact Em).
    split; [apply Qle_bool_iff; vm_compute; reflexivity|].
    unfold within. split; apply Qle_bool_iff; vm_compute; reflexivity.
Qed.

(** The harmonic mean grows with both of its arguments. *)
Lemma harmonic_mean_monotone (p r p' r' : Q) :
  (0 < p)%Q -> (p <= p')%Q -> (0 < r)%Q -> (r <= r')%Q ->
  (p * r / (p + r) <= p' * r' / (p' + r'))%Q.
Proof.
  intros P PP R RR.
  apply Qle_shift_div_r; [lra|].
  assert (E : (p' * r' / (p' + r') * (p + r) == p' * r' * (p + r) / (p' + r'))%Q)
    by (field; lra).
  rewrite E. apply Qle_shift_div_l; [lra|].
  assert (A : (p * p' * r <= p * p' * r')%Q).
  { apply Qmult_le_compat_l_nonneg; [|exact RR].
    apply Qlt_le_weak, Qmult_lt_0_compat; lra. }
  assert (B : (r * r' * p <= r * r' * p')%Q).
  { apply Qmult_le_compat_l_nonneg; [|exact PP].
    apply Qlt_le_weak, Qmult_lt_0_compat; lra. }
  lra.
Qed.

(** Precision and recall within [l] and [u] of two ratios: so is their
    harmonic mean. *)
Lemma harmonic_mean_within (l u p r p0 r0 : Q) :
  (0 < l)%Q -> (0 < p0)%Q -> (0 < r0)%Q ->
  (l * p0 <= p <= u * p0)%Q -> (l * r0 <= r <= u * r0)%Q ->
  (l * (2 * (p0 * r0 / (p0 + r0))) <= 2 * (p * r / (p + r))
   <= u * (2 * (p0 * r0 / (p0 + r0))))%Q.
Proof.
  intros L P0 R0 [Pl Pu] [Rl Ru].
  assert (LP : (0 < l * p0)%Q) by (apply Qmult_lt_0_compat; assumption).
  assert (LR : (0 < l * r0)%Q) by (apply Qmult_lt_0_compat; assumption).
  assert (U : (0 < u)%Q).
  { destruct (Qlt_le_dec 0 u) as [G|G]; [exact G|exfalso].
    assert (u * p0 <= 0 * p0)%Q by (apply Qmult_le_compat_r; lra). lra. }
  pose proof (harmonic_mean_monotone (l * p0) (l * r0) p r LP Pl LR Rl) as A.
  pose proof (harmonic_mean_monotone p r (u * p0) (u * r0)
                ltac:(lra) Pu ltac:(lra) Ru) as B.
  assert (EA : (l * p0 * (l * r0) / (l * p0 + l * r0) == l * (p0 * r0 / (p0 + r0)))%Q)
    by (field; split; lra).
  assert (EB : (u * p0 * (u * r0) / (u * p0 + u * r0) == u * (p0 * r0 / (p0 + r0)))%Q).
  { field. split; [lra|].
    assert (0 < u * p0 + u * r0)%Q.
    { assert (0 < u * p0)%Q by (apply Qmult_lt_0_compat; assumption).
      assert (0 < u * r0)%Q by (apply Qmult_lt_0_compat; assumption). lra. }
    lra. }
  rewrite EA in A. rewrite EB in B. split; lra.
Qed.

(** ** The closed form of 'f1', as returned *)

Lemma two_roundings_more_below :
  (1 - (1 # 2 ^ 48) <= (1 - f1_tolerance) * (1 - eps))%Q.
Proof. apply Qle_bool_iff. vm_compute. reflexivity. Qed.

Lemma two_roundings_more_above :
  ((1 + f1_tolerance) * (1 + eps) <= 1 + (1 # 2 ^ 48))%Q.
Proof. apply Qle_bool_iff. vm_compute. reflexivity. Qed.

(** X11. On a valid input of fewer than 2^53 cases with a true positive,
    the 'f1' the function returns in binary64 is a positive finite number
    within a relative 2^-48 of 2 TP / (2 TP + FP + FN), the counts being
    those of the function's own masks. *)
Theorem f1_is_two_tp_over_two_tp_fp_fn_up_to_rounding
    (observed predicted : list Z) (tp fp fn : list bool) :
  Spec.valid observed predicted = true ->
  Spec.N observed < 2 ^ 53 ->
  true_positives observed predicted = Returned tp ->
  false_positives observed predicted = Returned fp ->
  false_negatives observed predicted = Returned fn ->
  0 < Np.sum tp ->
  exists (d : dict float) (f : float) (m : positive) (e : Z),
    calculate_accuracy observed predicted = Returned d
    /\ dict_get "f1" d = Some f
    /\ Prim2SF f = S754_finite false m e
    /\ within (1 # 2 ^ 48) (float_value f)
         (inject_Z (2 * Np.sum tp)
          / inject_Z (2 * Np.sum tp + Np.sum fp + Np.sum fn)).
Proof.
  intros V N T U W T0. apply valid_inv in V as (E & _ & Lo & Lp).
  unfold Spec.N in N.
  destruct (masks_same_length _ _ E) as (T1 & T2 & _ & T4).
  rewrite T1 in T. injection T as <-. rewrite T2 in U. injection U as <-.
  rewrite T4 in W. injection W as <-.
  rewrite !sum_zip_with in *.
  rewrite (calculate_accuracy_report _ _ E).
  destruct (observed_margins _ _ E Lo Lp) as (OM & _).
  destruct (predicted_margins observed predicted E) as (PM & _).
  pose proof (sum_mask_bounds observed 1) as B1.
  pose proof (sum_mask_bounds predicted 1) as C1. rewrite <- E in C1.
  fold (observed_positives observed) in B1.
  fold (predicted_positives predicted) in C1.
  pose proof (count_bounds (fun o p => (p =? 1) && negb (o =? 1)) observed predicted) as BF.
  pose proof (count_bounds (fun o p => (p =? 0) && negb (o =? 0)) observed predicted) as BN.
  set (a := Spec.count (fun o p => (p =? 1) && (o =? 1)) observed predicted) in *.
  set (b := Spec.count (fun o p => (p =? 1) && negb (o =? 1)) observed predicted) in *.
  set (c := Spec.count (fun o p => (p =? 0) && negb (o =? 0)) observed predicted) in *.
  destruct (binary64_rate_value a (a + b)) as (Np & Wp); try lia.
  destruct (binary64_rate_value a (a + c)) as (Nr & Wr); try lia.
  destruct (binary64_f1_value _ _ Np Nr) as ((m & e & F & _) & Wf).
  do 4 eexists. split; [reflexivity|].
  report_fields. fold a b. rewrite <- OM.
  split; [reflexivity|]. split; [exact F|].
  assert (A : (0 < inject_Z a)%Q)
    by (change 0%Q with (inject_Z 0); rewrite <- Zlt_Qlt; exact T0).
  assert (B : (0 <= inject_Z b)%Q)
    by (change 0%Q with (inject_Z 0); rewrite <- Zle_Qle; lia).
  assert (C : (0 <= inject_Z c)%Q)
    by (change 0%Q with (inject_Z 0); rewrite <- Zle_Qle; lia).
  rewrite !inject_Z_plus in Wp, Wr.
  assert (P0 : (0 < inject_Z a / (inject_Z a + inject_Z b))%Q)
    by (apply Qlt_shift_div_l; lra).
  assert (R0 : (0 < inject_Z a / (inject_Z a + inject_Z c))%Q)
    by (apply Qlt_shift_div_l; lra).
  pose proof (harmonic_mean_within (1 - eps) (1 + eps) _ _ _ _
                ltac:(reflexivity) P0 R0 Wp Wr) as [HL HU].
  rewrite harmonic_mean_of_ratios in HL, HU by assumption.
  assert (G : (inject_Z (2 * a) / inject_Z (2 * a + b + c)
               == 2 * inject_Z a / (2 * inject_Z a + inject_Z b + inject_Z c))%Q).
  { rewrite !inject_Z_plus, !inject_Z_mult. reflexivity. }
  apply (within_ext _ _ _ _ (Qeq_sym _ _ G)).
  set (h := (2 * inject_Z a / (2 * inject_Z a + inject_Z b + inject_Z c))%Q) in *.
  assert (H : (0 <= h)%Q).
  { unfold h. apply Qle_shift_div_l; [lra|]. lra. }
  unfold within in Wf |- *. destruct Wf as [WL WU].
  set (g := (2 * (float_value (Np.true_divide a (a + b))
                  * float_value (Np.true_divide a (a + c))
                  / (float_value (Np.true_divide a (a + b))
                     + float_value (Np.true_divide a (a + c)))))%Q) in *.
  split.
  - apply Qle_trans with ((1 - f1_tolerance) * ((1 - eps) * h))%Q.
    + rewrite Qmult_assoc. apply Qmult_le_compat_r; [exact two_roundings_more_below|exact H].
    + apply Qle_trans with (2 := WL).
      apply Qmult_le_compat_l_nonneg; [discriminate|exact HL].
  - apply Qle_trans with ((1 + f1_tolerance) * ((1 + eps) * h))%Q.
    + apply Qle_trans with (1 := WU).
      apply Qmult_le_compat_l_nonneg; [discriminate|exact HU].
    + rewrite Qmult_assoc. apply Qmult_le_compat_r; [exact two_roundings_more_above|exact H].
Qed.


Lemma f1_is_two_tp_over_two_tp_fp_fn_up_to_rounding_demo :
  exists (d : dict float) (f : float),
    calculate_accuracy demo_observed demo_predicted = Returned d
    /\ dict_get "f1" d = Some f
    /\ within (1 # 2 ^ 48) (float_value f) (inject_Z (2 * 3) / inject_Z (2 * 3 + 1 + 1)).
Proof.
  destruct (f1_is_two_tp_over_two_tp_fp_fn_up_to_rounding
              demo_observed demo_predicted
              [false; false; true; false; true; false; true; false; false; false]
              [false; false; false; false; false; false; false; false; false; true]
              [false; false; false; false; false; false; false; false; true; false]
              eq_refl eq_refl eq_refl eq_refl eq_refl eq_refl)
    as (d & f & m & e & D & F & _ & W).
  exists d, f. split; [exact D|]. split; [exact F|exact W].
Defined.

(** ** The error rates, as returned *)

(** One minus the quotient of two counts, as binary64 returns it: within
    [2^-51] of the rational. *)
Lemma binary64_one_minus_rate_value (k n : Z) :
  0 <= k <= n -> 0 < n < 2 ^ 53 ->
  (inject_Z (n - k) / inject_Z n - (1 # 2 ^ 51)
   <= float_value (sub (of_int 1) (Np.true_divide k n))
   <= inject_Z (n - k) / inject_Z n + (1 # 2 ^ 51))%Q.
Proof.
  intros K N.
  assert (Hn : (0 < inject_Z n)%Q)
    by (change 0%Q with (inject_Z 0); rewrite <- Zlt_Qlt; lia).
  assert (E : (inject_Z (n - k) / inject_Z n == 1 - inject_Z k / inject_Z n)%Q).
  { unfold Z.sub. rewrite inject_Z_plus, inject_Z_opp. field. lra. }
  rewrite E. clear E.
  destruct (Z.eq_dec k 0) as [->|K0].
  - rewrite binary64_zero_rate by lia.
    assert (V : (float_value (sub (of_int 1) 0%float) == 1)%Q) by reflexivity.
    rewrite V. change (inject_Z 0) with 0%Q.
    assert (Z0 : (0 / inject_Z n == 0)%Q) by (field; lra). rewrite Z0.
    split; apply Qle_bool_iff; reflexivity.
  - destruct (binary64_rate k n ltac:(lia) ltac:(lia))
      as (m & e & R & Bm & He & LE & _).
    destruct (binary64_rate_value k n ltac:(lia) ltac:(lia)) as (_ & W).
    assert (S1 : (0 <= inject_Z k / inject_Z n <= 1)%Q).
    { split.
      - apply Qle_shift_div_l; [exact Hn|]. rewrite Qmult_0_l.
        change 0%Q with (inject_Z 0). rewrite <- Zle_Qle. lia.
      - apply Qle_shift_div_r; [exact Hn|]. rewrite Qmult_1_l.
        rewrite <- Zle_Qle. lia. }
    unfold float_value in *. cbn [sub binary64]. rewrite sub_spec.
    unfold Np.true_divide in *. cbn [div of_int binary64] in *.
    rewrite R in W |- *.
    destruct (SFsub_one_value m e Bm He LE) as (S & D).
    change (Prim2SF (of_uint63 (of_Z 1))) with (Prim2SF 1).
    unfold within, eps in *.
    set (s := SF2Q (S754_finite false m e)) in *.
    set (x := SF2Q (SF64sub (Prim2SF 1) (S754_finite false m e))) in *.
    set (q := (inject_Z k / inject_Z n)%Q) in *.
    change (1 # 2 ^ 52)%Q with (1 # 4503599627370496)%Q in *.
    change (1 # 2 ^ 51)%Q with (1 # 2251799813685248)%Q.
    split; lra.
Qed.

(** X12. On a valid input of fewer than 2^53 cases where both classes are
    observed, the two error rates the function returns in binary64, 1
    minus 'specificity' and 1 minus 'recall', are numbers of [0, 1] within
    2^-51 of the shares the function's own error masks take of the
    observed classes: FP over the observed negatives, FN over the observed
    positives. *)
Theorem error_rates_are_shares_of_the_observed_classes_up_to_rounding
    (observed predicted : list Z) (fp fn : list bool) :
  Spec.valid observed predicted = true ->
  Spec.N observed < 2 ^ 53 ->
  false_positives observed predicted = Returned fp ->
  false_negatives observed predicted = Returned fn ->
  0 < Np.sum (observed_positives observed) ->
  0 < Np.sum (observed_negatives observed) ->
  exists (d : dict float) (p n : float),
    calculate_accuracy observed predicted = Returned d
    /\ dict_get "false_positive_rate" d = Some p
    /\ dict_get "false_negative_rate" d = Some n
    /\ ((0 <=? p)%float = true /\ (p <=? 1)%float = true)
    /\ ((0 <=? n)%float = true /\ (n <=? 1)%float = true)
    /\ (inject_Z (Np.sum fp) / inject_Z (Np.sum (observed_negatives observed))
        - (1 # 2 ^ 51)
        <= float_value p
        <= inject_Z (Np.sum fp) / inject_Z (Np.sum (observed_negatives observed))
           + (1 # 2 ^ 51))%Q
    /\ (inject_Z (Np.sum fn) / inject_Z (Np.sum (observed_positives observed))
        - (1 # 2 ^ 51)
        <= float_value n
        <= inject_Z (Np.sum fn) / inject_Z (Np.sum (observed_positives observed))
           + (1 # 2 ^ 51))%Q.
Proof.
  intros V N U W P0 N0. apply valid_inv in V as (E & _ & Lo & Lp).
  unfold Spec.N in N.
  destruct (masks_same_length _ _ E) as (_ & T2 & _ & T4).
  rewrite T2 in U. injection U as <-. rewrite T4 in W. injection W as <-.
  rewrite !sum_zip_with.
  rewrite (calculate_accuracy_report _ _ E).
  destruct (observed_margins _ _ E Lo Lp) as (OM & ON & _).
  pose proof (sum_mask_bounds observed 1) as B1.
  pose proof (sum_mask_bounds observed 0) as B0.
  fold (observed_positives observed) in B1.
  fold (observed_negatives observed) in B0.
  pose proof (count_bounds (fun o p => (p =? 1) && (o =? 1)) observed predicted) as BT.
  pose proof (count_bounds (fun o p => (p =? 0) && (o =? 0)) observed predicted) as BN.
  pose proof (count_bounds (fun o p => (p =? 1) && negb (o =? 1)) observed predicted) as BF.
  pose proof (count_bounds (fun o p => (p =? 0) && negb (o =? 0)) observed predicted) as BG.
  do 3 eexists. split; [reflexivity|]. report_fields.
  do 2 (split; [reflexivity|]).
  set (tpc := Spec.count (fun o p => (p =? 1) && (o =? 1)) observed predicted) in *.
  set (tnc := Spec.count (fun o p => (p =? 0) && (o =? 0)) observed predicted) in *.
  set (fpc := Spec.count (fun o p => (p =? 1) && negb (o =? 1)) observed predicted) in *.
  set (fnc := Spec.count (fun o p => (p =? 0) && negb (o =? 0)) observed predicted) in *.
  set (op := Np.sum (observed_positives observed)) in *.
  set (on := Np.sum (observed_negatives observed)) in *.
  split; [apply binary64_one_minus_rate; lia|].
  split; [apply binary64_one_minus_rate; lia|].
  split.
  - replace fpc with (on - tnc) by lia.
    apply binary64_one_minus_rate_value; lia.
  - replace fnc with (op - tpc) by lia.
    apply binary64_one_minus_rate_value; lia.
Qed.

Lemma error_rates_are_shares_of_the_observed_classes_up_to_rounding_demo :
  exists (d : dict float) (p n : float),
    calculate_accuracy demo_observed demo_predicted = Returned d
    /\ dict_get "false_positive_rate" d = Some p
    /\ dict_get "false_negative_rate" d = Some n
    /\ ((1 # 6) - (1 # 2 ^ 51) <= float_value p <= (1 # 6) + (1 # 2 ^ 51))%Q
    /\ ((1 # 4) - (1 # 2 ^ 51) <= float_value n <= (1 # 4) + (1 # 2 ^ 51))%Q.
Proof.
  destruct (error_rates_are_shares_of_the_observed_classes_up_to_rounding
              demo_observed demo_predicted
              [false; false; false; false; false; false; false; false; false; true]
              [false; false; false; false; false; false; false; false; true; false]
              eq_refl eq_refl eq_refl eq_refl eq_refl eq_refl)
    as (d & p & n & D & P & N & _ & _ & Bp & Bn).
  exists d, p, n. split; [exact D|]. split; [exact P|]. split; [exact N|].
  split; [exact Bp|exact Bn].
Defined.
